(** * Verification of the protocol_toolkit codec generators

    The development embeds three parts of the repository:

    - [attic/gen_codec/gen_codec.py]: the struct-based generator, whose
      [get_decode_code] / [get_encode_code] emit the byte transcription of a
      scalar field and whose [generate_implementation] emits the per-struct
      decode function;
    - [tools/gen_codec/attic/gen_codec_final.py]: the PDL generator
      ([process], [generate_message], [generate_field], [generate_header])
      with its bit-field accessors, and the step of [main] that turns the
      parsed text into definitions;
    - the regular-expression based field parser [parse_struct_fields].

    The generators emit C text.  Each emitter is modelled twice over: the
    Rocq function of the same name produces the emitted statements (as data,
    or as text lines for the header), and an interpreter gives those
    statements the meaning the C compiler gives them. *)

From stdpp Require Import base gmap strings list pretty.
From Stdlib Require Import ZArith List String Ascii Bool Lia.
From Stdlib Require Import Floats.SpecFloat.
Import ListNotations.

Local Open Scope string_scope.
Local Open Scope Z_scope.

(** ** C integers

    Integers of the emitted C code are mathematical integers with the
    wrap-around of their width written out: unsigned arithmetic and
    conversions wrap; an operation C leaves undefined has no value in the
    interpreters below. *)
Module CInt.

Definition wrap_unsigned (w x : Z) : Z := x mod 2 ^ w.

(** Two's-complement value of the low [w] bits of [x]. *)
Definition wrap_signed (w x : Z) : Z :=
  (x + 2 ^ (w - 1)) mod 2 ^ w - 2 ^ (w - 1).

End CInt.

(** ** IEEE-754 binary interchange formats

    A C [float] or [double] object is represented by its bit pattern.  The
    only floating-point operation the emitted code performs is the implicit
    conversion of an integer to a floating value on assignment; it is computed
    with the library's [binary_normalize] (round to nearest, ties to even). *)
Module Ieee.

(** [prec] is the precision (24, 53) and [ebits] the width of the exponent
    field (8, 11). *)
Definition emax (ebits : Z) : Z := 2 ^ (ebits - 1).

Definition bits_of_SF (prec ebits : Z) (f : spec_float) : Z :=
  let mbits := prec - 1 in
  let sign (s : bool) : Z := if s then 2 ^ (mbits + ebits) else 0 in
  match f with
  | S754_zero s => sign s
  | S754_infinity s => sign s + (2 ^ ebits - 1) * 2 ^ mbits
  | S754_nan => (2 ^ ebits - 1) * 2 ^ mbits + 2 ^ (mbits - 1)
  | S754_finite s m e =>
      if Z.pos m <? 2 ^ mbits
      then sign s + Z.pos m
      else sign s + (e - emin prec (emax ebits) + 1) * 2 ^ mbits
                  + (Z.pos m - 2 ^ mbits)
  end.

(** The integer [z] converted to the format, as a bit pattern. *)
Definition of_Z (prec ebits : Z) (z : Z) : Z :=
  bits_of_SF prec ebits (binary_normalize prec (emax ebits) z 0 false).

Definition float_of_Z : Z -> Z := of_Z 24 8.
Definition double_of_Z : Z -> Z := of_Z 53 11.

End Ieee.

(** ** Python string helpers *)
Module Py.

(** [needle in hay] on strings. *)
Fixpoint contains (needle hay : string) : bool :=
  String.prefix needle hay
  || match hay with
     | EmptyString => false
     | String _ rest => contains needle rest
     end.

(** [x in [a, b, ...]] on a list of strings. *)
Definition in_list (x : string) (l : list string) : bool :=
  existsb (String.eqb x) l.

(** [d.get(k, default)] on a dictionary given by its items. *)
Fixpoint dict_get {A} (d : list (string * A)) (k : string) (default : A) : A :=
  match d with
  | [] => default
  | (k', v) :: d' => if String.eqb k k' then v else dict_get d' k default
  end.

(** [s.startswith(p)] *)
Definition startswith (p s : string) : bool := String.prefix p s.

(** [s.replace(old, '')] for a non-empty [old]: every occurrence of [old],
    scanning from the left, is removed.  [skip] counts the characters of the
    current occurrence still to drop. *)
Fixpoint remove_aux (old : string) (skip : nat) (s : string) : string :=
  match s with
  | EmptyString => EmptyString
  | String c rest =>
      match skip with
      | S k => remove_aux old k rest
      | O =>
          if String.prefix old s
          then remove_aux old (String.length old - 1) rest
          else String c (remove_aux old 0 rest)
      end
  end.

Definition remove_all (old s : string) : string := remove_aux old 0 s.

(** Truth value of an optional string ([None] and [''] are false). *)
Definition truthy (o : option string) : bool :=
  match o with
  | Some s => negb (String.eqb s EmptyString)
  | None => false
  end.

(** [s.split(sep)] for a one-character separator. *)
Fixpoint split (sep : ascii) (s : string) : list string :=
  match s with
  | EmptyString => [EmptyString]
  | String c rest =>
      if Ascii.eqb c sep then EmptyString :: split sep rest
      else match split sep rest with
           | piece :: pieces => String c piece :: pieces
           | [] => [String c EmptyString]
           end
  end.

(** Whitespace of [str.strip()] in ASCII text: tab, line feed, vertical tab,
    form feed, carriage return, the four separators 28 to 31, and space. *)
Definition is_space (c : ascii) : bool :=
  let n := nat_of_ascii c in
  ((9 <=? n) && (n <=? 13) || (28 <=? n) && (n <=? 32))%nat.

Fixpoint lstrip (s : string) : string :=
  match s with
  | String c rest => if is_space c then lstrip rest else s
  | EmptyString => EmptyString
  end.

(** [s.rstrip()]: a character is dropped when it is whitespace and nothing
    but whitespace follows. *)
Fixpoint rstrip (s : string) : string :=
  match s with
  | String c rest =>
      match rstrip rest with
      | EmptyString => if is_space c then EmptyString else String c EmptyString
      | rest' => String c rest'
      end
  | EmptyString => EmptyString
  end.

(** [s.strip()] *)
Definition strip (s : string) : string := rstrip (lstrip s).

(** Whether every character of the text is ASCII, as the whitespace and the
    character classes of this development take it to be. *)
Fixpoint is_ascii (s : string) : bool :=
  match s with
  | EmptyString => true
  | String c rest => (nat_of_ascii c <? 128)%nat && is_ascii rest
  end.

(** Truth value of a string. *)
Definition nonempty (s : string) : bool :=
  match s with
  | EmptyString => false
  | String _ _ => true
  end.

(** [c in s] for a character. *)
Fixpoint has_char (c : ascii) (s : string) : bool :=
  match s with
  | EmptyString => false
  | String c' rest => Ascii.eqb c' c || has_char c rest
  end.

(** [s.upper()] on ASCII text. *)
Definition upper_char (c : ascii) : ascii :=
  let n := nat_of_ascii c in
  if ((97 <=? n) && (n <=? 122))%nat then ascii_of_nat (n - 32) else c.

Fixpoint upper (s : string) : string :=
  match s with
  | EmptyString => EmptyString
  | String c rest => String (upper_char c) (upper rest)
  end.

(** The double-quote character. *)
Definition dq : string := String (ascii_of_nat 34) EmptyString.

(** [sep.join(lines)] with the newline as separator. *)
Definition join_lines (lines : list string) : string :=
  String.concat (String (ascii_of_nat 10) EmptyString) lines.

Fixpoint dict_find {A} (d : list (string * A)) (k : string) : option A :=
  match d with
  | [] => None
  | (k', v) :: d' => if String.eqb k k' then Some v else dict_find d' k
  end.

(** The exceptions the modelled code can raise. *)
Inductive exn := TypeError | KeyError | ValueError | AttributeError.

End Py.

(** ** Regular expressions

    A backtracking matcher for the fragment of Python's [re] the parser uses:
    greedy repetition of a character class, sequence, ordered alternative,
    greedy option, capturing groups and the word boundary.  Text is ASCII. *)
Module Regex.

Definition is_word (c : ascii) : bool :=
  let n := nat_of_ascii c in
  ((48 <=? n) && (n <=? 57) || (65 <=? n) && (n <=? 90)
   || (97 <=? n) && (n <=? 122) || (n =? 95))%nat.

(** Whitespace of [\s]: that of [str.strip()]. *)
Definition is_space : ascii -> bool := Py.is_space.

Inductive re :=
| Lit (s : string)              (* the text s *)
| Star (p : ascii -> bool)      (* c*, greedy, for a character class c *)
| Plus (p : ascii -> bool)      (* c+, greedy *)
| Seq (a b : re)                (* ab *)
| Alt (a b : re)                (* a|b, a is tried first *)
| Opt (a : re)                  (* a?, greedy *)
| Group (n : nat) (a : re)      (* capturing group number n *)
| WordBoundary.                 (* \b *)

(** Captured groups, by number. *)
Abbreviation captures := (gmap nat string).

Section Matcher.

Context {R : Type}.

(** A continuation receives the character before the current position (for
    [\b]), the rest of the text and the groups captured so far. *)
Definition cont := option ascii -> string -> captures -> option R.

Fixpoint match_lit (lit : string) (prev : option ascii) (s : string)
  : option (option ascii * string) :=
  match lit, s with
  | EmptyString, _ => Some (prev, s)
  | String a lit', String c s' =>
      if Ascii.eqb a c then match_lit lit' (Some c) s' else None
  | String _ _, EmptyString => None
  end.

(** Greedy [c*]: the longest run first, then shorter ones. *)
Fixpoint match_star (p : ascii -> bool) (prev : option ascii) (s : string)
         (k : option ascii -> string -> option R) : option R :=
  match s with
  | String c s' =>
      if p c then
        match match_star p (Some c) s' k with
        | Some r => Some r
        | None => k prev s
        end
      else k prev s
  | EmptyString => k prev s
  end.

Definition word_at (c : option ascii) : bool :=
  match c with
  | Some c => is_word c
  | None => false
  end.

Definition next_char (s : string) : option ascii :=
  match s with
  | String c _ => Some c
  | EmptyString => None
  end.

Fixpoint match_re (r : re) (prev : option ascii) (s : string) (caps : captures)
         (k : cont) : option R :=
  match r with
  | Lit lit =>
      match match_lit lit prev s with
      | Some (prev', s') => k prev' s' caps
      | None => None
      end
  | Star p => match_star p prev s (fun prev' s' => k prev' s' caps)
  | Plus p =>
      match s with
      | String c s' =>
          if p c then match_star p (Some c) s' (fun prev' s' => k prev' s' caps)
          else None
      | EmptyString => None
      end
  | Seq a b =>
      match_re a prev s caps (fun prev' s' caps' => match_re b prev' s' caps' k)
  | Alt a b =>
      match match_re a prev s caps k with
      | Some r => Some r
      | None => match_re b prev s caps k
      end
  | Opt a =>
      match match_re a prev s caps k with
      | Some r => Some r
      | None => k prev s caps
      end
  | Group n a =>
      match_re a prev s caps
        (fun prev' s' caps' =>
           k prev' s'
             (<[n := substring 0 (String.length s - String.length s') s]> caps'))
  | WordBoundary =>
      if xorb (word_at prev) (word_at (next_char s)) then k prev s caps else None
  end.

End Matcher.

(** [re.match(r, s)]: a match anchored at the start of [s]; the result holds
    the captured groups. *)
Definition re_match (r : re) (s : string) : option captures :=
  match_re r None s ∅ (fun _ _ caps => Some caps).

End Regex.

(** ** Runs of characters

    Predicates on text, used to state what the matcher and the field parser
    do. *)
Module Text.

(** Whether every character of the text satisfies [p]. *)
Fixpoint all_chars (p : ascii -> bool) (s : string) : bool :=
  match s with
  | EmptyString => true
  | String c rest => p c && all_chars p rest
  end.

(** The last character of [s], or [prev] when [s] is empty. *)
Fixpoint last_char (prev : option ascii) (s : string) : option ascii :=
  match s with
  | EmptyString => prev
  | String c rest => last_char (Some c) rest
  end.

(** The text does not go on with a character of the class. *)
Definition stops (p : ascii -> bool) (s : string) : Prop :=
  match s with
  | EmptyString => True
  | String c _ => p c = false
  end.

(** Whether the text ends with a character that is not whitespace. *)
Fixpoint ends_nonspace (s : string) : bool :=
  match s with
  | EmptyString => false
  | String c EmptyString => negb (Py.is_space c)
  | String _ rest => ends_nonspace rest
  end.
End Text.

(** ** The struct-based generator, [attic/gen_codec/gen_codec.py] *)
Module StructCodec.

(** C types the codec type names are typedef'd to. *)
Inductive ctype :=
| uint_t (w : Z)
| int_t (w : Z)
| float_t
| double_t.

(** [self.codec_types] *)
Definition codec_types : list (string * ctype) :=
  [ ("codec_u8", uint_t 8); ("codec_i8", int_t 8);
    ("codec_u16_be", uint_t 16); ("codec_i16_be", int_t 16);
    ("codec_u16_le", uint_t 16); ("codec_i16_le", int_t 16);
    ("codec_u32_be", uint_t 32); ("codec_i32_be", int_t 32);
    ("codec_u32_be_bs", uint_t 32); ("codec_i32_be_bs", int_t 32);
    ("codec_u32_le", uint_t 32); ("codec_i32_le", int_t 32);
    ("codec_u32_le_bs", uint_t 32); ("codec_i32_le_bs", int_t 32);
    ("codec_u64_be", uint_t 64); ("codec_i64_be", int_t 64);
    ("codec_u64_be_bs", uint_t 64); ("codec_i64_be_bs", int_t 64);
    ("codec_u64_le", uint_t 64); ("codec_i64_le", int_t 64);
    ("codec_u64_le_bs", uint_t 64); ("codec_i64_le_bs", int_t 64);
    ("codec_f32_be", float_t); ("codec_f32_be_bs", float_t);
    ("codec_f32_le", float_t); ("codec_f32_le_bs", float_t);
    ("codec_f64_be", double_t); ("codec_f64_be_bs", double_t);
    ("codec_f64_le", double_t); ("codec_f64_le_bs", double_t) ].

(** [self.type_sizes] *)
Definition type_sizes : list (string * nat) :=
  [ ("codec_u8", 1); ("codec_i8", 1);
    ("codec_u16_be", 2); ("codec_i16_be", 2); ("codec_u16_le", 2); ("codec_i16_le", 2);
    ("codec_u32_be", 4); ("codec_i32_be", 4); ("codec_u32_be_bs", 4); ("codec_i32_be_bs", 4);
    ("codec_u32_le", 4); ("codec_i32_le", 4); ("codec_u32_le_bs", 4); ("codec_i32_le_bs", 4);
    ("codec_u64_be", 8); ("codec_i64_be", 8); ("codec_u64_be_bs", 8); ("codec_i64_be_bs", 8);
    ("codec_u64_le", 8); ("codec_i64_le", 8); ("codec_u64_le_bs", 8); ("codec_i64_le_bs", 8);
    ("codec_f32_be", 4); ("codec_f32_be_bs", 4); ("codec_f32_le", 4); ("codec_f32_le_bs", 4);
    ("codec_f64_be", 8); ("codec_f64_be_bs", 8); ("codec_f64_le", 8); ("codec_f64_le_bs", 8) ]%nat.

(** *** Emitted statements

    The lvalue a scalar block reads or writes: [result->f] / [value->f], or
    the element [result->f[i]] / [value->f[i]] at the running loop index. *)
Inductive lvalue :=
| LField (f : string)
| LElem (f : string).

(** The operand [actual_var] of an encode line: the variable itself, or the
    integer member of the union declared for a float. *)
Inductive operand :=
| OVar (v : lvalue)
| OUnionI.

(** One constructor per emitted C statement (the error check that follows
    every buffer access is part of the statement). *)
Inductive cstmt :=
| SGetU8 (var : lvalue)
    (* err = buf_get_u8((uint8_t* )&var, input_buf, offset); check *)
| SDeclBytes (size : nat)
    (* uint8_t bytes[size]; *)
| SFetch (size : nat)
    (* for i < size: err = buf_get_u8(&bytes[i], input_buf, offset + i); check *)
| SAssignOr (var : lvalue) (cast64 : bool) (terms : list (nat * nat))
    (* var = (bytes[i0] << s0) | (bytes[i1] << s1) | ...;
       with cast64 every byte is first cast to uint64_t *)
| SUnionLoadI (var : lvalue) (w : Z)
    (* union { uintW_t i; F f; } u;  u.i = *((uintW_t* )&var); *)
| SAssignUnionF (var : lvalue)
    (* var = u.f; *)
| SUnionStoreF (var : lvalue) (w : Z)
    (* union { uintW_t i; F f; } u;  u.f = var; *)
| SSetByte (idx : nat) (src : operand) (shift : nat)
    (* bytes[idx] = (src >> shift) & 0xFF; *)
| SSetU8 (var : lvalue)
    (* err = buf_set_u8(output_buf, offset, (uint8_t)var); check *)
| SStore (size : nat)
    (* for i < size: err = buf_set_u8(output_buf, offset + i, bytes[i]); check *)
| SAdvance (n : nat).
    (* offset += n; *)

(** [get_decode_code]: the statements emitted to decode one scalar of type
    [field_type] into [var_name]. *)
Definition get_decode_code (field_type : string) (var_name : lvalue) : list cstmt :=
  let size := Py.dict_get type_sizes field_type 0%nat in
  if Py.in_list field_type ["codec_u8"; "codec_i8"] then
    [SGetU8 var_name; SAdvance 1]
  else if (1 <? size)%nat then
    [SDeclBytes size; SFetch size]
    ++ (if Py.contains "_be" field_type && negb (Py.contains "_bs" field_type) then
          if (size =? 2)%nat then
            [SAssignOr var_name false [(0, 8); (1, 0)]%nat]
          else if (size =? 4)%nat then
            [SAssignOr var_name false [(0, 24); (1, 16); (2, 8); (3, 0)]%nat]
          else if (size =? 8)%nat then
            [SAssignOr var_name true
               [(0, 56); (1, 48); (2, 40); (3, 32); (4, 24); (5, 16); (6, 8); (7, 0)]%nat]
          else []
        else if Py.contains "_le" field_type && negb (Py.contains "_bs" field_type) then
          if (size =? 2)%nat then
            [SAssignOr var_name false [(0, 0); (1, 8)]%nat]
          else if (size =? 4)%nat then
            [SAssignOr var_name false [(0, 0); (1, 8); (2, 16); (3, 24)]%nat]
          else if (size =? 8)%nat then
            [SAssignOr var_name true
               [(0, 0); (1, 8); (2, 16); (3, 24); (4, 32); (5, 40); (6, 48); (7, 56)]%nat]
          else []
        else if Py.contains "_be_bs" field_type then
          if (size =? 4)%nat then
            [SAssignOr var_name false [(2, 24); (3, 16); (1, 8); (0, 0)]%nat]
          else if (size =? 8)%nat then
            [SAssignOr var_name true
               [(6, 56); (7, 48); (4, 40); (5, 32); (2, 24); (3, 16); (0, 8); (1, 0)]%nat]
          else []
        else if Py.contains "_le_bs" field_type then
          if (size =? 4)%nat then
            [SAssignOr var_name false [(1, 0); (0, 8); (3, 16); (2, 24)]%nat]
          else if (size =? 8)%nat then
            [SAssignOr var_name true
               [(1, 0); (0, 8); (3, 16); (2, 24); (5, 32); (4, 40); (7, 48); (6, 56)]%nat]
          else []
        else [])
    ++ (if Py.contains "f32" field_type || Py.contains "f64" field_type then
          let w := if Py.contains "f32" field_type then 32 else 64 in
          [SUnionLoadI var_name w; SAssignUnionF var_name]
        else [])
    ++ [SAdvance size]
  else [].

(** [get_encode_code]: the statements emitted to encode [var_name]. *)
Definition get_encode_code (field_type : string) (var_name : lvalue) : list cstmt :=
  let size := Py.dict_get type_sizes field_type 0%nat in
  if Py.in_list field_type ["codec_u8"; "codec_i8"] then
    [SSetU8 var_name; SAdvance 1]
  else if (1 <? size)%nat then
    let is_float := Py.contains "f32" field_type || Py.contains "f64" field_type in
    let actual_var := if is_float then OUnionI else OVar var_name in
    [SDeclBytes size]
    ++ (if is_float then
       [SUnionStoreF var_name (if Py.contains "f32" field_type then 32 else 64)]
     else [])
    ++ (if Py.contains "_be" field_type && negb (Py.contains "_bs" field_type) then
          if (size =? 2)%nat then
            [SSetByte 0 actual_var 8; SSetByte 1 actual_var 0]
          else if (size =? 4)%nat then
            [SSetByte 0 actual_var 24; SSetByte 1 actual_var 16;
             SSetByte 2 actual_var 8; SSetByte 3 actual_var 0]
          else if (size =? 8)%nat then
            map (fun i => SSetByte i actual_var ((7 - i) * 8)) (seq 0 8)
          else []
        else if Py.contains "_le" field_type && negb (Py.contains "_bs" field_type) then
          if (size =? 2)%nat then
            [SSetByte 0 actual_var 0; SSetByte 1 actual_var 8]
          else if (size =? 4)%nat then
            [SSetByte 0 actual_var 0; SSetByte 1 actual_var 8;
             SSetByte 2 actual_var 16; SSetByte 3 actual_var 24]
          else if (size =? 8)%nat then
            map (fun i => SSetByte i actual_var (i * 8)) (seq 0 8)
          else []
        else if Py.contains "_be_bs" field_type then
          if (size =? 4)%nat then
            [SSetByte 2 actual_var 24; SSetByte 3 actual_var 16;
             SSetByte 1 actual_var 8; SSetByte 0 actual_var 0]
          else if (size =? 8)%nat then
            let byte_order := [6; 7; 4; 5; 2; 3; 0; 1]%nat in
            imap (fun i byte_idx => SSetByte byte_idx actual_var ((7 - i) * 8))
                 byte_order
          else []
        else if Py.contains "_le_bs" field_type then
          if (size =? 4)%nat then
            [SSetByte 1 actual_var 0; SSetByte 0 actual_var 8;
             SSetByte 3 actual_var 16; SSetByte 2 actual_var 24]
          else if (size =? 8)%nat then
            let byte_order := [1; 0; 3; 2; 5; 4; 7; 6]%nat in
            imap (fun i byte_idx => SSetByte byte_idx actual_var (i * 8))
                 byte_order
          else []
        else [])
    ++ [SStore size; SAdvance size]
  else [].

(** *** Meaning of the emitted statements *)

Inductive codec_err :=
| CODEC_OK
| CODEC_ERR_OUT_OF_BOUNDS
| CODEC_ERR_NULL_PTR
| CODEC_ERR_NO_MEMORY.

Inductive buf_err :=
| BUF_OK
| BUF_ERR_OUT_OF_BOUNDS
| BUF_ERR_NULL_PTR.

(** Modelled from the spec: the byte buffer of [buf.h], which is not part of
    the sources; it provides bounds-checked get and set of one byte.  A buffer
    is the list of its bytes. *)
Definition buf_get_u8 (buf : list Z) (idx : nat) : buf_err * Z :=
  match buf !! idx with
  | Some b => (BUF_OK, b)
  | None => (BUF_ERR_OUT_OF_BOUNDS, 0)
  end.

(** Modelled from the spec: see [buf_get_u8]. *)
Definition buf_set_u8 (buf : list Z) (idx : nat) (b : Z) : buf_err * list Z :=
  if (idx <? List.length buf)%nat then (BUF_OK, <[idx := b]> buf)
  else (BUF_ERR_OUT_OF_BOUNDS, buf).

(** The check emitted after every buffer access:
    [if (err != BUF_OK) { if (err == BUF_ERR_OUT_OF_BOUNDS) return ...;
                          if (err == BUF_ERR_NULL_PTR) return ...; }] *)
Definition check_buf_err (e : buf_err) : option codec_err :=
  match e with
  | BUF_OK => None
  | BUF_ERR_OUT_OF_BOUNDS => Some CODEC_ERR_OUT_OF_BOUNDS
  | BUF_ERR_NULL_PTR => Some CODEC_ERR_NULL_PTR
  end.

(** A struct object: the value of every scalar it holds, by access path
    ([f] is [[(f, 0)]], [f[i]] is [[(f, i)]], a member of an embedded struct
    has a longer path).  Integers are held by value, floats and doubles by
    bit pattern. *)
Abbreviation path := (list (string * nat)).
Abbreviation obj := (gmap (list (string * nat)) Z).

Definition obj_get (o : obj) (k : path) : Z := default 0 (o !! k).

Definition lv_path (i : nat) (v : lvalue) : path :=
  match v with
  | LField f => [(f, 0%nat)]
  | LElem f => [(f, i)]
  end.

(** State of one activation of an emitted function. *)
Record cstate := mk_cstate {
  st_obj : obj;           (* result->... when decoding, value->... when encoding *)
  st_bytes : list Z;      (* uint8_t bytes[size] of the current block *)
  st_u : Z;               (* the union u of the current block, as a bit pattern *)
  st_offset : nat;        (* size_t offset *)
  st_buf : list Z         (* input_buf when decoding, output_buf when encoding *)
}.

Inductive outcome :=
| Next (st : cstate)             (* control reaches the next statement *)
| Return (e : codec_err)         (* the function returns e *)
| Stuck.                         (* statement not typable at this C type *)

(** [var = e;] for an integer expression of value [z]: conversion to the type
    of [var].  For a floating [var] this is C's numeric conversion. *)
Definition assign_from_int (t : ctype) (z : Z) : Z :=
  match t with
  | uint_t w => CInt.wrap_unsigned w z
  | int_t w => CInt.wrap_signed w z
  | float_t => Ieee.float_of_Z z
  | double_t => Ieee.double_of_Z z
  end.

(** Whether a shift term has a value.  With the cast the operand is unsigned
    and the shift wraps around; without it the byte is promoted to [int], and
    C gives the shift a value only when the result is below 2^31. *)
Definition or_term_defined (cast64 : bool) (bytes : list Z) (term : nat * nat) : bool :=
  cast64 || (Z.shiftl (default 0 (bytes !! term.1)) (Z.of_nat term.2) <? 2 ^ 31).

(** [(bytes[i] << s)] in [int], or [((uint64_t)bytes[i] << s)]. *)
Definition or_term (cast64 : bool) (bytes : list Z) (term : nat * nat) : Z :=
  let b := default 0 (bytes !! term.1) in
  if cast64 then CInt.wrap_unsigned 64 (Z.shiftl b (Z.of_nat term.2))
  else CInt.wrap_signed 32 (Z.shiftl b (Z.of_nat term.2)).

Definition or_terms (cast64 : bool) (bytes : list Z) (terms : list (nat * nat)) : Z :=
  fold_left (fun acc term => Z.lor acc (or_term cast64 bytes term)) terms 0.

Fixpoint fetch_loop (buf : list Z) (offset : nat) (n i : nat) (bytes : list Z)
  : codec_err + list Z :=
  match n with
  | O => inr bytes
  | S n' =>
      let '(err, b) := buf_get_u8 buf (offset + i) in
      match check_buf_err err with
      | Some e => inl e
      | None => fetch_loop buf offset n' (S i) (<[i := b]> bytes)
      end
  end.

Fixpoint store_loop (bytes : list Z) (offset : nat) (n i : nat) (buf : list Z)
  : codec_err + list Z :=
  match n with
  | O => inr buf
  | S n' =>
      let '(err, buf') := buf_set_u8 buf (offset + i) (default 0 (bytes !! i)) in
      match check_buf_err err with
      | Some e => inl e
      | None => store_loop bytes offset n' (S i) buf'
      end
  end.

Definition set_var (st : cstate) (k : path) (z : Z) : cstate :=
  mk_cstate (<[k := z]> (st_obj st)) (st_bytes st) (st_u st) (st_offset st) (st_buf st).

(** One emitted statement, at loop index [i], for a variable of C type [t]. *)
Definition exec_stmt (t : ctype) (i : nat) (s : cstmt) (st : cstate) : outcome :=
  match s with
  | SGetU8 var =>
      let '(err, b) := buf_get_u8 (st_buf st) (st_offset st) in
      match check_buf_err err with
      | Some e => Return e
      | None =>
          match t with
          | uint_t 8 => Next (set_var st (lv_path i var) b)
          | int_t 8 => Next (set_var st (lv_path i var) (CInt.wrap_signed 8 b))
          | _ => Stuck
          end
      end
  | SDeclBytes size =>
      Next (mk_cstate (st_obj st) (replicate size 0) (st_u st) (st_offset st) (st_buf st))
  | SFetch size =>
      match fetch_loop (st_buf st) (st_offset st) size 0 (st_bytes st) with
      | inl e => Return e
      | inr bytes => Next (mk_cstate (st_obj st) bytes (st_u st) (st_offset st) (st_buf st))
      end
  | SAssignOr var cast64 terms =>
      if forallb (or_term_defined cast64 (st_bytes st)) terms then
        Next (set_var st (lv_path i var)
                (assign_from_int t (or_terms cast64 (st_bytes st) terms)))
      else Stuck
  | SUnionLoadI var w =>
      match t, w with
      | float_t, 32 | double_t, 64 =>
          Next (mk_cstate (st_obj st) (st_bytes st) (obj_get (st_obj st) (lv_path i var))
                          (st_offset st) (st_buf st))
      | _, _ => Stuck
      end
  | SAssignUnionF var =>
      match t with
      | float_t | double_t => Next (set_var st (lv_path i var) (st_u st))
      | _ => Stuck
      end
  | SUnionStoreF var w =>
      match t, w with
      | float_t, 32 | double_t, 64 =>
          Next (mk_cstate (st_obj st) (st_bytes st) (obj_get (st_obj st) (lv_path i var))
                          (st_offset st) (st_buf st))
      | _, _ => Stuck
      end
  | SSetByte idx src shift =>
      let v := match src, t with
               | OVar var, (uint_t _ | int_t _) => Some (obj_get (st_obj st) (lv_path i var))
               | OVar _, _ => None
               | OUnionI, _ => Some (st_u st)
               end in
      match v with
      | Some v =>
          Next (mk_cstate (st_obj st)
                          (<[idx := Z.land (Z.shiftr v (Z.of_nat shift)) 255]> (st_bytes st))
                          (st_u st) (st_offset st) (st_buf st))
      | None => Stuck
      end
  | SSetU8 var =>
      let '(err, buf') :=
        buf_set_u8 (st_buf st) (st_offset st)
                   (CInt.wrap_unsigned 8 (obj_get (st_obj st) (lv_path i var))) in
      match check_buf_err err with
      | Some e => Return e
      | None => Next (mk_cstate (st_obj st) (st_bytes st) (st_u st) (st_offset st) buf')
      end
  | SStore size =>
      match store_loop (st_bytes st) (st_offset st) size 0 (st_buf st) with
      | inl e => Return e
      | inr buf' => Next (mk_cstate (st_obj st) (st_bytes st) (st_u st) (st_offset st) buf')
      end
  | SAdvance n =>
      Next (mk_cstate (st_obj st) (st_bytes st) (st_u st) (st_offset st + n) (st_buf st))
  end.

Fixpoint exec_code (t : ctype) (i : nat) (code : list cstmt) (st : cstate) : outcome :=
  match code with
  | [] => Next st
  | s :: code' =>
      match exec_stmt t i s st with
      | Next st' => exec_code t i code' st'
      | r => r
      end
  end.

(** *** The scalar plans on their own

    Decoding a field [x] of type [field_type] from a buffer holding exactly
    [bytes], and encoding the value [v] of such a field into a buffer of the
    size of the type. *)
Definition decode_scalar (field_type : string) (bytes : list Z) : option Z :=
  match Py.dict_find codec_types field_type with
  | None => None
  | Some t =>
      match exec_code t 0 (get_decode_code field_type (LField "x"))
                      (mk_cstate ∅ [] 0 0 bytes) with
      | Next st => Some (obj_get (st_obj st) [("x", 0%nat)])
      | _ => None
      end
  end.

Definition encode_scalar (field_type : string) (v : Z) : option (list Z) :=
  match Py.dict_find codec_types field_type with
  | None => None
  | Some t =>
      match exec_code t 0 (get_encode_code field_type (LField "x"))
                      (mk_cstate {[ [("x", 0%nat)] := v ]} [] 0 0
                                 (replicate (Py.dict_get type_sizes field_type 0%nat) 0)) with
      | Next st => Some (st_buf st)
      | _ => None
      end
  end.

(** Whether every shift of the decode line of [field_type] has a value on
    [bytes]. *)
Definition shifts_defined (field_type : string) (bytes : list Z) : bool :=
  forallb (fun s => match s with
                    | SAssignOr _ cast64 terms =>
                        forallb (or_term_defined cast64 bytes) terms
                    | _ => true
                    end)
          (get_decode_code field_type (LField "x")).

(** *** Structs, and the decode and dispose functions emitted for them *)

Record Field := mk_Field {
  field_type : string;
  name : string;
  array_size : option string;
  is_pointer : bool
}.

Record Struct := mk_Struct {
  struct_name : string;
  fields : list Field
}.

Inductive ptr :=
| PBlock (b : nat)                           (* a block returned by malloc *)
| PMember (p : ptr) (f : string) (i : nat).  (* &p->f, or &p->f[i] *)

Inductive event :=
| EvHookDecode (s f : string) (p : ptr)      (* call of the user's s_f_decode *)
| EvHookDispose (s f : string) (p : ptr)     (* call of the user's s_f_dispose *)
| EvFree (b : nat)                           (* free of a live block *)
| EvBadFree (p : ptr).                       (* free of anything else *)

(** The C heap and the out-parameter [remaining_input_buf] shared by all
    activations of one top-level call. *)
Record mstate := mk_mstate {
  m_live : gmap nat obj;           (* live blocks and their contents *)
  m_next : nat;                    (* next fresh block *)
  m_avail : nat;                   (* number of further malloc calls that succeed *)
  m_remaining : option (list Z);   (* what remaining_input_buf was last set to *)
  m_trace : list event
}.

Definition log_event (ev : event) (m : mstate) : mstate :=
  mk_mstate (m_live m) (m_next m) (m_avail m) (m_remaining m) (m_trace m ++ [ev]).

(** [malloc(sizeof ...)] followed by [memset(result, 0, ...)]. *)
Definition malloc (m : mstate) : option (nat * mstate) :=
  match m_avail m with
  | O => None
  | S k =>
      Some (m_next m,
            mk_mstate (<[m_next m := ∅]> (m_live m)) (S (m_next m)) k
                      (m_remaining m) (m_trace m))
  end.

Definition free (p : ptr) (m : mstate) : mstate :=
  match p with
  | PBlock b =>
      match m_live m !! b with
      | Some _ =>
          mk_mstate (delete b (m_live m)) (m_next m) (m_avail m) (m_remaining m)
                    (m_trace m ++ [EvFree b])
      | None => log_event (EvBadFree p) m
      end
  | PMember _ _ _ => log_event (EvBadFree p) m
  end.

Definition content (b : nat) (m : mstate) : obj := default ∅ (m_live m !! b).

Definition set_content (b : nat) (o : obj) (m : mstate) : mstate :=
  mk_mstate (<[b := o]> (m_live m)) (m_next m) (m_avail m) (m_remaining m) (m_trace m).

(** [result->f[i] = *elem_ptr;]: the members of the struct at [sub] become the
    members of [o] below the path [(f, i)]. *)
Definition embed (f : string) (i : nat) (sub o : obj) : obj :=
  list_to_map (map (fun kv : path * Z => ((f, i) :: kv.1, kv.2)) (map_to_list sub)) ∪ o.

Definition set_remaining (r : list Z) (m : mstate) : mstate :=
  mk_mstate (m_live m) (m_next m) (m_avail m) (Some r) (m_trace m).

(** Modelled from the spec: [buf_from_buf(dst, src, offset, len)] of [buf.h],
    not part of the sources; [dst] becomes the unconsumed bytes of [src] from
    [offset] on, and an [offset] beyond the end is out of bounds. *)
Definition buf_from_buf (src : list Z) (offset : nat) : buf_err * list Z :=
  if (offset <=? List.length src)%nat then (BUF_OK, drop offset src)
  else (BUF_ERR_OUT_OF_BOUNDS, []).

(** Control flow inside an emitted function body: fall through to the next
    statement, or return. *)
Inductive flow (S : Type) :=
| Go (s : S)
| Ret (e : codec_err) (m : mstate).
Arguments Go {S} s.
Arguments Ret {S} e m.

(** A sequence of steps with early return; [None] is kept for a body that
    cannot be run (see [decode_fn]). *)
Fixpoint run_steps {A S} (f : A -> S -> option (flow S)) (l : list A) (s : S)
  : option (flow S) :=
  match l with
  | [] => Some (Go s)
  | a :: l' =>
      match f a s with
      | Some (Go s') => run_steps f l' s'
      | r => r
      end
  end.

Fixpoint foldM {A S} (f : A -> S -> option S) (l : list A) (s : S) : option S :=
  match l with
  | [] => Some s
  | a :: l' =>
      match f a s with
      | Some s' => foldM f l' s'
      | None => None
      end
  end.

Definition is_ok (e : codec_err) : bool :=
  match e with CODEC_OK => true | _ => false end.

Record dres := mk_dres {
  r_err : codec_err;         (* the value returned *)
  r_value : option ptr;      (* what *value was set to, if it was set *)
  r_state : mstate
}.

Section Emitted.

(** [self.structs], the value of the C expression given as an array size, and
    the result of the user-supplied decode function of a pointer field. *)
Variable structs : list Struct.
Variable array_len : string -> nat.
Variable hook_decode : string -> string -> list Z -> codec_err.

Definition find_struct (sname : string) : option Struct :=
  List.find (fun s => String.eqb (struct_name s) sname) structs.

(** The function [{struct.name}_dispose(value)].  [fuel] bounds the nesting of
    calls; the result is [None] when it runs out or when the function called
    is not one the generator emits. *)
Fixpoint dispose_fn (fuel : nat) (sname : string) (value : option ptr) (m : mstate)
  : option mstate :=
  match fuel with
  | O => None
  | S fuel' =>
      match find_struct sname, value with
      | None, _ => None
      | Some _, None => Some m
      | Some s, Some p =>
          let field_step (field : Field) (m : mstate) : option mstate :=
            if is_pointer field then
              Some (log_event (EvHookDispose sname (name field) p) m)
            else if Py.truthy (array_size field)
                    && Py.startswith "struct " (field_type field) then
              let struct_type := Py.remove_all "struct " (field_type field) in
              foldM (fun i m => dispose_fn fuel' struct_type
                                           (Some (PMember p (name field) i)) m)
                    (seq 0 (array_len (default EmptyString (array_size field)))) m
            else if Py.startswith "struct " (field_type field) then
              let struct_type := Py.remove_all "struct " (field_type field) in
              dispose_fn fuel' struct_type (Some (PMember p (name field) 0)) m
            else Some m in
          match foldM field_step (fields s) m with
          | Some m' => Some (free p m')
          | None => None
          end
      end
  end.

(** The function [{struct.name}_decode(value, remaining_input_buf, input_buf)];
    [value_ok] and [remaining_ok] tell whether the two pointers are non-null,
    [input_buf] is [None] for a null buffer. *)
Fixpoint decode_fn (fuel : nat) (sname : string) (value_ok remaining_ok : bool)
         (input_buf : option (list Z)) (m : mstate) : option dres :=
  match fuel with
  | O => None
  | S fuel' =>
      match find_struct sname, input_buf with
      | None, _ => None
      | Some _, None => Some (mk_dres CODEC_ERR_NULL_PTR None m)
      | Some s, Some input =>
          if negb value_ok || negb remaining_ok then
            Some (mk_dres CODEC_ERR_NULL_PTR None m)
          else
            match malloc m with
            | None => Some (mk_dres CODEC_ERR_NO_MEMORY None m)
            | Some (b, m) =>
                let result := PBlock b in
                (* one scalar, or one element of an array; the state is the
                   running [offset] and the machine *)
                let elem (field : Field) (var : lvalue) (i : nat) (st : nat * mstate)
                  : option (flow (nat * mstate)) :=
                  let '(offset, m) := st in
                  if Py.startswith "struct " (field_type field) then
                    let struct_type := Py.remove_all "struct " (field_type field) in
                    match decode_fn fuel' struct_type true true (Some input) m with
                    | None => None
                    | Some r =>
                        if negb (is_ok (r_err r)) then
                          match dispose_fn fuel' sname (Some result) (r_state r) with
                          | Some m' => Some (Ret (r_err r) m')
                          | None => None
                          end
                        else
                          match r_value r with
                          | Some (PBlock b') =>
                              let m1 := r_state r in
                              let m2 := set_content b
                                          (embed (name field) i (content b' m1) (content b m1))
                                          m1 in
                              Some (Go (offset, free (PBlock b') m2))
                          | _ => None
                          end
                    end
                  else
                    match get_decode_code (field_type field) var,
                          Py.dict_find codec_types (field_type field) with
                    | [], _ => Some (Go (offset, m))
                    | _ :: _, None => None
                    | code, Some t =>
                        match exec_code t i code
                                        (mk_cstate (content b m) [] 0 offset input) with
                        | Next st' => Some (Go (st_offset st', set_content b (st_obj st') m))
                        | Return e => Some (Ret e m)
                        | Stuck => None
                        end
                    end in
                let field_step (field : Field) (st : nat * mstate)
                  : option (flow (nat * mstate)) :=
                  if is_pointer field then
                    let m1 := log_event (EvHookDecode sname (name field) result) st.2 in
                    let err := hook_decode sname (name field) input in
                    if negb (is_ok err) then
                      match dispose_fn fuel' sname (Some result) m1 with
                      | Some m' => Some (Ret err m')
                      | None => None
                      end
                    else Some (Go (st.1, m1))
                  else if Py.truthy (array_size field) then
                    run_steps (elem field (LElem (name field)))
                              (seq 0 (array_len (default EmptyString (array_size field)))) st
                  else
                    elem field (LField (name field)) 0%nat st in
                match run_steps field_step (fields s) (0%nat, m) with
                | None => None
                | Some (Ret e m') => Some (mk_dres e None m')
                | Some (Go (offset, m)) =>
                    let '(buf_err, rest) := buf_from_buf input offset in
                    match check_buf_err buf_err with
                    | Some e =>
                        match dispose_fn fuel' sname (Some result) m with
                        | Some m' => Some (mk_dres e None m')
                        | None => None
                        end
                    | None =>
                        Some (mk_dres CODEC_OK (Some result) (set_remaining rest m))
                    end
                end
            end
      end
  end.

End Emitted.

Definition init_mstate (avail : nat) : mstate := mk_mstate ∅ 0 avail None [].

(** *** [parse_struct_fields] *)

(** The pattern of [re.match] in [parse_struct_fields].  Group 1 is a run of
    word characters or, failing that, a word boundary, the text struct,
    whitespace and a run of word characters; whitespace follows; group 2 is a
    possibly empty run of stars; group 3 is a run of word characters; the
    optional group 4 is an opening bracket, group 5 (a non-empty run of
    characters other than the closing bracket) and the closing bracket. *)
Definition field_pattern : Regex.re :=
  Regex.Seq
    (Regex.Group 1
       (Regex.Alt (Regex.Plus Regex.is_word)
                  (Regex.Seq Regex.WordBoundary
                     (Regex.Seq (Regex.Lit "struct")
                        (Regex.Seq (Regex.Plus Regex.is_space)
                                   (Regex.Plus Regex.is_word))))))
    (Regex.Seq (Regex.Plus Regex.is_space)
       (Regex.Seq (Regex.Group 2 (Regex.Star (Ascii.eqb "*")))
          (Regex.Seq (Regex.Group 3 (Regex.Plus Regex.is_word))
             (Regex.Opt
                (Regex.Group 4
                   (Regex.Seq (Regex.Lit "[")
                      (Regex.Seq
                         (Regex.Group 5 (Regex.Plus (fun c => negb (Ascii.eqb c "]"))))
                         (Regex.Lit "]")))))))).

(** The body of the loop over [field_lines]: the field of one line, if the
    line matches. *)
Definition parse_field_line (line : string) : option Field :=
  match Regex.re_match field_pattern (Py.strip line) with
  | Some groups =>
      let field_type := default EmptyString (groups !! 1%nat) in
      let pointers := default EmptyString (groups !! 2%nat) in
      let field_name := default EmptyString (groups !! 3%nat) in
      let array_bracket := groups !! 4%nat in
      let array_size := match array_bracket with
                        | Some bracket =>
                            if Py.nonempty bracket then groups !! 5%nat else None
                        | None => None
                        end in
      let is_pointer := (0 <? String.length pointers)%nat in
      Some (mk_Field field_type field_name array_size is_pointer)
  | None => None
  end.

Definition parse_struct_fields (struct_body : string) : list Field :=
  let field_lines :=
    List.filter Py.nonempty (map Py.strip (Py.split ";" struct_body)) in
  omap parse_field_line field_lines.

(** *** Byte layouts

    The integer plans of a type are determined by its layout, the list of
    (byte index, shift) pairs of its decode line: decoding ORs the shifted
    bytes together, encoding stores the shifted value byte by byte. *)
Definition encode_bytes (n : nat) (layout : list (nat * nat)) (v : Z) : list Z :=
  fold_left
    (fun bytes term => <[term.1 := Z.land (Z.shiftr v (Z.of_nat term.2)) 255]> bytes)
    layout (replicate n 0).

Fixpoint distinct (l : list nat) : bool :=
  match l with
  | [] => true
  | x :: l' => negb (existsb (Nat.eqb x) l') && distinct l'
  end.

(** A layout of [n] bytes pairs every byte index below [n] with one of the
    shifts 0, 8, ..., 8(n-1), each used once. *)
Definition layout_ok (n : nat) (layout : list (nat * nat)) : bool :=
  forallb (fun i => existsb (fun term => (term.1 =? i)%nat) layout) (seq 0 n)
  && forallb (fun q => existsb (fun term => (term.2 =? 8 * q)%nat) layout) (seq 0 n)
  && forallb (fun term => (term.1 <? n)%nat && (term.2 mod 8 =? 0)%nat
                          && (term.2 + 8 <=? 8 * n)%nat) layout
  && distinct (map fst layout)
  && distinct (map snd layout).

Definition is_byte (b : Z) : Prop := 0 <= b < 256.

(** The values of a C type; a float or a double is any bit pattern of its
    width. *)
Definition in_range (t : ctype) (v : Z) : Prop :=
  match t with
  | uint_t w => 0 <= v < 2 ^ w
  | int_t w => - 2 ^ (w - 1) <= v < 2 ^ (w - 1)
  | float_t => 0 <= v < 2 ^ 32
  | double_t => 0 <= v < 2 ^ 64
  end.

Definition is_integer (t : ctype) : bool :=
  match t with
  | uint_t _ | int_t _ => true
  | float_t | double_t => false
  end.

Definition int_width (t : ctype) : Z :=
  match t with
  | uint_t w | int_t w => w
  | float_t => 32
  | double_t => 64
  end.

(** [bytes[i]], and the byte of [v] at the shift [s]. *)
Definition byte_at (bytes : list Z) (i : nat) : Z := default 0 (bytes !! i).

Definition byte_of (v : Z) (s : nat) : Z := Z.land (Z.shiftr v (Z.of_nat s)) 255.

(** What [layout_ok] checks. *)
Record layout_spec (n : nat) (L : list (nat * nat)) : Prop := {
  ls_index : forall i, (i < n)%nat -> exists s, In (i, s) L;
  ls_shift : forall q, (q < n)%nat -> exists i, In (i, (8 * q)%nat) L;
  ls_bound : forall t, In t L ->
               (t.1 < n)%nat /\ (t.2 mod 8 = 0)%nat /\ (t.2 + 8 <= 8 * n)%nat;
  ls_index_once : List.NoDup (map fst L);
  ls_shift_once : List.NoDup (map snd L)
}.

(** The statements emitted for a multi-byte integer type of [n] bytes with
    the layout [L]. *)
Definition decode_shape (var : lvalue) (n : nat) (c : bool) (L : list (nat * nat))
  : list cstmt :=
  [SDeclBytes n; SFetch n; SAssignOr var c L; SAdvance n].

Definition encode_shape (var : lvalue) (n : nat) (L : list (nat * nat)) : list cstmt :=
  SDeclBytes n :: map (fun t => SSetByte t.1 (OVar var) t.2) L ++ [SStore n; SAdvance n].

(** The integer type [ft], of C type [t], has [n] bytes, the layout [L], and
    its plans have the shapes above. *)
Record int_plan (ft : string) (t : ctype) (n : nat) (c : bool)
       (L : list (nat * nat)) : Prop := {
  ip_type : Py.dict_find codec_types ft = Some t;
  ip_size : Py.dict_get type_sizes ft 0%nat = n;
  ip_pos : (0 < n)%nat;
  ip_decode : get_decode_code ft (LField "x") = decode_shape (LField "x") n c L;
  ip_encode : get_encode_code ft (LField "x") = encode_shape (LField "x") n L;
  ip_layout : layout_ok n L = true;
  ip_width : int_width t = 8 * Z.of_nat n;
  ip_bound : int_width t <= (if c then 64 else 32)
}.

(** A line that is empty or starts with a character that cannot start a word. *)
Definition unmatched (line : string) : Prop :=
  match line with
  | EmptyString => True
  | String c _ => Regex.is_word c = false
  end.

(** A record of three one-byte scalars, and a record whose second field is a
    pointer field. *)
Definition three_bytes : Struct :=
  mk_Struct "rec" [ mk_Field "codec_u8" "a" None false;
                    mk_Field "codec_u8" "b" None false;
                    mk_Field "codec_u8" "c" None false ].

Definition with_pointer : Struct :=
  mk_Struct "rec" [ mk_Field "codec_u8" "a" None false;
                    mk_Field "payload" "p" None true;
                    mk_Field "codec_u8" "c" None false ].

(** A header of three integer fields of different sizes and byte orders. *)
Definition mixed : Struct :=
  mk_Struct "hdr" [ mk_Field "codec_u16_be" "id" None false;
                    mk_Field "codec_u8" "kind" None false;
                    mk_Field "codec_u32_le" "len" None false ].

(** A value of [mixed]. *)
Definition mixed_value : obj :=
  <[ [("len", 0%nat)] := 16909060 ]>
    (<[ [("kind", 0%nat)] := 7 ]> (<[ [("id", 0%nat)] := 4660 ]> ∅)).

(** *** Shapes and readings used in the statements about the emitted code *)

(** The statements emitted for a floating type of [n] bytes and [w] bits with
    the layout [L]. *)
Definition float_encode_shape (var : lvalue) (w : Z) (n : nat) (L : list (nat * nat))
  : list cstmt :=
  ([SDeclBytes n; SUnionStoreF var w] ++ map (fun t => SSetByte t.1 OUnionI t.2) L
   ++ [SStore n; SAdvance n])%list.

(** A field the generator decodes and encodes inline with one scalar block:
    neither a pointer nor an array, and of a codec type. *)
Definition scalar_field (f : Field) : bool :=
  negb (is_pointer f) && negb (Py.truthy (array_size f))
  && match Py.dict_find codec_types (field_type f) with
     | Some _ => true
     | None => false
     end.

(** The bytes a run of scalar fields takes. *)
Definition struct_size (fs : list Field) : nat :=
  sum_list_with (fun f => Py.dict_get type_sizes (field_type f) 0%nat) fs.

(** Field-by-field reading of a run of scalar fields from consecutive
    windows of the input, each window decoded on its own. *)
Fixpoint decode_fields (fs : list Field) (input : list Z) (offset : nat) (o : obj)
  : option obj :=
  match fs with
  | [] => Some o
  | f :: fs' =>
      let n := Py.dict_get type_sizes (field_type f) 0%nat in
      match decode_scalar (field_type f) (take n (drop offset input)) with
      | Some v => decode_fields fs' input (offset + n) (<[ [(name f, 0%nat)] := v ]> o)
      | None => None
      end
  end.

(** What a run of scalar fields does to the running offset and the block
    under construction. *)
Inductive fields_result :=
| FieldsOk (offset : nat) (o : obj)      (* every field decoded *)
| FieldsShort (o : obj).                 (* a field found the input too short *)

Fixpoint run_fields (fs : list Field) (input : list Z) (offset : nat) (o : obj)
  : option fields_result :=
  match fs with
  | [] => Some (FieldsOk offset o)
  | f :: fs' =>
      let n := Py.dict_get type_sizes (field_type f) 0%nat in
      if (List.length input <? offset + n)%nat then Some (FieldsShort o)
      else
        match decode_scalar (field_type f) (take n (drop offset input)) with
        | Some v => run_fields fs' input (offset + n) (<[ [(name f, 0%nat)] := v ]> o)
        | None => None
        end
  end.

(** *** The struct members [generate_header] writes, and the texts the field
    parser reads *)

(** The declaration of one struct member, as [generate_header] writes it. *)
Definition member_line (field : Field) : string :=
  if is_pointer field then
    if Py.truthy (array_size field) then
      "    " ++ field_type field ++ " *" ++ name field ++ "["
      ++ default EmptyString (array_size field) ++ "];"
    else "    " ++ field_type field ++ " *" ++ name field ++ ";"
  else if Py.truthy (array_size field) then
    "    " ++ field_type field ++ " " ++ name field ++ "["
    ++ default EmptyString (array_size field) ++ "];"
  else "    " ++ field_type field ++ " " ++ name field ++ ";".

(** A run of word characters that is not empty. *)
Definition is_word_text (s : string) : bool :=
  Py.nonempty s && Text.all_chars Regex.is_word s.

(** A field as [parse_struct_fields] can return it and [generate_header]
    write it back: type and name are words, and the array size, if there is
    one, is not empty and holds neither a closing bracket nor a semicolon. *)
Definition plain_field (f : Field) : bool :=
  is_word_text (field_type f) && is_word_text (name f)
  && match array_size f with
     | None => true
     | Some a => Py.nonempty a && negb (Py.has_char "]" a) && negb (Py.has_char ";" a)
     end.

(** The text of a member between the indentation and the semicolon. *)
Definition member_core (f : Field) : string :=
  field_type f ++ " " ++ (if is_pointer f then "*" else EmptyString) ++ name f
  ++ match array_size f with None => EmptyString | Some a => "[" ++ a ++ "]" end.

(** The text of an optional array size. *)
Definition bracket_text (a : option string) : string :=
  match a with
  | None => EmptyString
  | Some a => "[" ++ a ++ "]"
  end.

(** The groups of a match of [field_pattern], from those of group 1. *)
Definition field_captures (caps : Regex.captures) (stars nm : string) (a : option string)
  : Regex.captures :=
  let caps := <[3%nat := nm]> (<[2%nat := stars]> caps) in
  match a with
  | None => caps
  | Some a => <[4%nat := "[" ++ a ++ "]"]> (<[5%nat := a]> caps)
  end.

(** What group 5 can hold: a non-empty text without a closing bracket. *)
Definition size_ok (a : option string) : Prop :=
  match a with
  | None => True
  | Some a => Py.nonempty a = true /\ Py.has_char "]" a = false
  end.

(** *** The encode function emitted for a struct *)

(** Result of an emitted encode function: with CODEC_OK the output buffer and
    what [remaining_output_buf] was set to; otherwise the value returned (the
    output buffer may then be partly written). *)
Inductive eres :=
| EncOk (output remaining : list Z)
| EncErr (e : codec_err).

(** A sequence of steps with early return of an error. *)
Fixpoint try_steps {A S} (f : A -> S -> option (codec_err + S)) (l : list A) (s : S)
  : option (codec_err + S) :=
  match l with
  | [] => Some (inr s)
  | a :: l' =>
      match f a s with
      | Some (inr s') => try_steps f l' s'
      | r => r
      end
  end.

(** [&value->f[i]]: the members of [o] below the path [(f, i)]. *)
Definition member (f : string) (i : nat) (o : obj) : obj :=
  list_to_map
    (omap (fun kv : path * Z =>
             match kv.1 with
             | (f', i') :: rest =>
                 if String.eqb f' f && (i' =? i)%nat then Some (rest, kv.2) else None
             | [] => None
             end)
          (map_to_list o)).

Section EmittedEncode.

(** [self.structs], the value of the C expression given as an array size, and
    the user-supplied encode function of a pointer field: its result and the
    output buffer as it leaves it. *)
Variable structs : list Struct.
Variable array_len : string -> nat.
Variable hook_encode : string -> string -> obj -> list Z -> codec_err * list Z.

(** The function [{struct.name}_encode(remaining_output_buf, output_buf,
    value)]; [remaining_ok] tells whether the first pointer is non-null, the
    other two are [None] when null. *)
Fixpoint encode_fn (fuel : nat) (sname : string) (remaining_ok : bool)
         (output_buf : option (list Z)) (value : option obj) : option eres :=
  match fuel with
  | O => None
  | S fuel' =>
      match find_struct structs sname, output_buf, value with
      | None, _, _ => None
      | Some s, Some output, Some o =>
          if negb remaining_ok then Some (EncErr CODEC_ERR_NULL_PTR)
          else
            (* one scalar, or one element of an array; the state is the
               running [offset] and the output buffer *)
            let elem (field : Field) (var : lvalue) (i : nat) (st : nat * list Z)
              : option (codec_err + nat * list Z) :=
              let '(offset, output) := st in
              if Py.startswith "struct " (field_type field) then
                let struct_type := Py.remove_all "struct " (field_type field) in
                match encode_fn fuel' struct_type true (Some output)
                                (Some (member (name field) i o)) with
                | None => None
                | Some (EncErr e) => Some (inl e)
                | Some (EncOk output' _) => Some (inr (offset, output'))
                end
              else
                match get_encode_code (field_type field) var,
                      Py.dict_find codec_types (field_type field) with
                | [], _ => Some (inr (offset, output))
                | _ :: _, None => None
                | code, Some t =>
                    match exec_code t i code (mk_cstate o [] 0 offset output) with
                    | Next st' => Some (inr (st_offset st', st_buf st'))
                    | Return e => Some (inl e)
                    | Stuck => None
                    end
                end in
            let field_step (field : Field) (st : nat * list Z)
              : option (codec_err + nat * list Z) :=
              if is_pointer field then
                let '(err, output') := hook_encode sname (name field) o st.2 in
                if negb (is_ok err) then Some (inl err) else Some (inr (st.1, output'))
              else if Py.truthy (array_size field) then
                try_steps (elem field (LElem (name field)))
                          (seq 0 (array_len (default EmptyString (array_size field)))) st
              else
                elem field (LField (name field)) 0%nat st in
            match try_steps field_step (fields s) (0%nat, output) with
            | None => None
            | Some (inl e) => Some (EncErr e)
            | Some (inr (offset, output)) =>
                let '(buf_err, rest) := buf_from_buf output offset in
                match check_buf_err buf_err with
                | Some e => Some (EncErr e)
                | None => Some (EncOk output rest)
                end
            end
      | Some _, _, _ => Some (EncErr CODEC_ERR_NULL_PTR)
      end
  end.

End EmittedEncode.

(** The bytes of a run of scalar fields of [o], each field encoded on its
    own, one after the other. *)
Fixpoint encode_fields (fs : list Field) (o : obj) : option (list Z) :=
  match fs with
  | [] => Some []
  | f :: fs' =>
      match encode_scalar (field_type f) (obj_get o [(name f, 0%nat)]),
            encode_fields fs' o with
      | Some bs, Some rest => Some (bs ++ rest)%list
      | _, _ => None
      end
  end.

(** A field of integer type whose value in [o] is in the range of the type
    and, for the types of four bytes, has bit 31 clear. *)
Definition int_field_ok (o : obj) (f : Field) : Prop :=
  exists t, In (field_type f, t) codec_types /\ is_integer t = true
    /\ in_range t (obj_get o [(name f, 0%nat)])
    /\ (int_width t = 32 -> 0 <= obj_get o [(name f, 0%nat)] < 2 ^ 31).

(** *** Definedness of the decode shifts over a run of fields *)

(** Whether the shifts of the decode lines of a run of scalar fields have a
    value on the windows of [input] the fields are read from, the first
    window starting at [offset]. *)
Fixpoint shifts_defined_fields (fs : list Field) (input : list Z) (offset : nat) : bool :=
  match fs with
  | [] => true
  | f :: fs' =>
      let n := Py.dict_get type_sizes (field_type f) 0%nat in
      shifts_defined (field_type f) (take n (drop offset input))
      && shifts_defined_fields fs' input (offset + n)
  end.

(** *** The field parser as it runs *)

(** The body of the loop over [field_lines] with the one operation of it
    that can raise made explicit: [group] returns [None] for a group that
    took no part in the match, and [len(pointers)] raises TypeError on
    [None]. *)
Definition parse_field_line_run (line : string) : Py.exn + option Field :=
  match Regex.re_match field_pattern (Py.strip line) with
  | Some groups =>
      let field_type := default EmptyString (groups !! 1%nat) in
      let pointers := groups !! 2%nat in
      let field_name := default EmptyString (groups !! 3%nat) in
      let array_bracket := groups !! 4%nat in
      let array_size := match array_bracket with
                        | Some bracket =>
                            if Py.nonempty bracket then groups !! 5%nat else None
                        | None => None
                        end in
      match pointers with
      | Some pointers =>
          let is_pointer := (0 <? String.length pointers)%nat in
          inr (Some (mk_Field field_type field_name array_size is_pointer))
      | None => inl Py.TypeError
      end
  | None => inr None
  end.

(** The loop over [field_lines], appending to [fields]. *)
Fixpoint run_field_lines (field_lines : list string) (fields : list Field)
  : Py.exn + list Field :=
  match field_lines with
  | [] => inr fields
  | line :: rest =>
      match parse_field_line_run line with
      | inl e => inl e
      | inr (Some field) => run_field_lines rest (fields ++ [field])
      | inr None => run_field_lines rest fields
      end
  end.

(** [parse_struct_fields], returning the list or the exception raised. *)
Definition parse_struct_fields_run (struct_body : string) : Py.exn + list Field :=
  let field_lines :=
    List.filter Py.nonempty (map Py.strip (Py.split ";" struct_body)) in
  run_field_lines field_lines [].

End StructCodec.

(** ** The PDL generator, [tools/gen_codec/attic/gen_codec_final.py] *)
Module Pdl.

(** The dictionary [PDLTransformer.bit_source] builds. *)
Record bit_source := mk_bit_source {
  container : string;
  start_bit : nat;
  length : nat
}.

(** The dictionaries [PDLTransformer.field_def] builds:
    [{'name': n, 'field_type': 'type_ref', 'ref': r}],
    [{'name': n, 'field_type': 'array', 'element_type': e, 'size': s}],
    [{'name': n, 'field_type': 'bit_field', 'source': src}]. *)
Inductive field_def :=
| FTypeRef (name ref : string)
| FArray (name element_type size : string)
| FBitField (name : string) (source : bit_source).

(** The dictionaries built by [primitive_def], [message_def] and
    [constant_def]. *)
Inductive type_def :=
| TPrimitive (base_type : string) (byte_order : option (list nat))
| TMessage (fields : list field_def)
| TConstant (type_ref : string) (value : Z).

(** [type_def['type']] *)
Definition type_of (t : type_def) : string :=
  match t with
  | TPrimitive _ _ => "primitive"
  | TMessage _ => "message"
  | TConstant _ _ => "constant"
  end.

(** The dataclass [Definition]; [PDLTransformer.definition] sets [def_type]
    to [type_def['type']]. *)
Record PdlDefinition := mk_Definition {
  def_name : string;
  def_type : string;
  attributes : type_def
}.

Definition definition (name : string) (t : type_def) : PdlDefinition :=
  mk_Definition name (type_of t) t.

Record GeneratedField := mk_GeneratedField {
  gf_name : string;
  c_type : string;
  is_array : bool;
  is_bit_field : bool;
  bit_field_info : option bit_source
}.

Record GeneratedMessage := mk_GeneratedMessage {
  gm_name : string;
  gm_fields : list GeneratedField;
  message_type_id : nat
}.

Record GeneratedConstant := mk_GeneratedConstant {
  const_name : string;
  const_type : string;
  const_value : Z
}.

(** [CodeGenerator.get_c_type] *)
Definition type_map : list (string * string) :=
  [ ("u8", "uint8_t"); ("u16", "uint16_t"); ("u32", "uint32_t"); ("u64", "uint64_t");
    ("i8", "int8_t"); ("i16", "int16_t"); ("i32", "int32_t"); ("i64", "int64_t");
    ("f32", "float"); ("f64", "double") ].

Definition get_c_type (pdl_type : string) : string :=
  Py.dict_get type_map pdl_type (pdl_type ++ "_t").

(** [CodeGenerator.get_bit_field_type] *)
Definition get_bit_field_type (bit_length : nat) : string :=
  if (bit_length <=? 8)%nat then "uint8_t"
  else if (bit_length <=? 16)%nat then "uint16_t"
  else if (bit_length <=? 32)%nat then "uint32_t"
  else "uint64_t".

(** [CodeGenerator.generate_field] *)
Definition generate_field (fd : field_def) : option GeneratedField :=
  match fd with
  | FBitField name source =>
      Some (mk_GeneratedField name (get_bit_field_type (length source))
                              false true (Some source))
  | FArray name element_type _ =>
      Some (mk_GeneratedField name (get_c_type element_type ++ "_array_t *")
                              true false None)
  | FTypeRef name ref =>
      Some (mk_GeneratedField name (get_c_type ref) false false None)
  end.

(** [CodeGenerator.generate_message], at the current value of
    [self.message_type_counter]. *)
Definition generate_message (message_type_counter : nat) (defn : PdlDefinition)
  : GeneratedMessage :=
  let field_defs := match attributes defn with
                    | TMessage fields => fields
                    | _ => []
                    end in
  mk_GeneratedMessage (def_name defn)
                      (omap generate_field field_defs)
                      message_type_counter.

(** [CodeGenerator.generate_constant] *)
Definition generate_constant (defn : PdlDefinition) : GeneratedConstant :=
  match attributes defn with
  | TConstant type_ref value =>
      mk_GeneratedConstant (Py.upper (def_name defn)) (get_c_type type_ref) value
  | _ => mk_GeneratedConstant (Py.upper (def_name defn)) (get_c_type "u32") 0
  end.

Record GeneratedData := mk_GeneratedData {
  messages : list GeneratedMessage;
  constants : list GeneratedConstant;
  namespace : string
}.

(** The loop of [CodeGenerator.process]; the state is [messages],
    [constants] and [self.message_type_counter]. *)
Fixpoint process_loop (definitions : list PdlDefinition)
         (messages : list GeneratedMessage) (constants : list GeneratedConstant)
         (message_type_counter : nat)
  : list GeneratedMessage * list GeneratedConstant * nat :=
  match definitions with
  | [] => (messages, constants, message_type_counter)
  | defn :: rest =>
      if String.eqb (def_type defn) "message" then
        let msg := generate_message message_type_counter defn in
        process_loop rest (messages ++ [msg]) constants (message_type_counter + 1)
      else if String.eqb (def_type defn) "constant" then
        let const := generate_constant defn in
        process_loop rest messages (constants ++ [const]) message_type_counter
      else
        process_loop rest messages constants message_type_counter
  end.

(** [CodeGenerator.process] on a generator fresh from [__init__], whose
    counter is 1. *)
Definition process (namespace : string) (definitions : list PdlDefinition)
  : GeneratedData :=
  let '(messages, constants, _) := process_loop definitions [] [] 1 in
  mk_GeneratedData messages constants namespace.

(** The accessor pair emitted for one bit-field of [message]. *)
Definition bit_field_accessor_lines (message : GeneratedMessage) (field : GeneratedField)
  : list string :=
  match bit_field_info field with
  | None => []
  | Some info =>
      [ "static inline " ++ c_type field ++ " " ++ gm_name message ++ "_get_"
          ++ gf_name field ++ "(const " ++ gm_name message ++ "_t *msg) {";
        "    return (msg->" ++ container info ++ " >> " ++ pretty (start_bit info)
          ++ ") & ((1 << " ++ pretty (length info) ++ ") - 1);";
        "}";
        EmptyString;
        "static inline void " ++ gm_name message ++ "_set_" ++ gf_name field ++ "("
          ++ gm_name message ++ "_t *msg, " ++ c_type field ++ " value) {";
        "    msg->" ++ container info ++ " &= ~(((1 << " ++ pretty (length info)
          ++ ") - 1) << " ++ pretty (start_bit info) ++ ");";
        "    msg->" ++ container info ++ " |= (value & ((1 << " ++ pretty (length info)
          ++ ") - 1)) << " ++ pretty (start_bit info) ++ ";";
        "    msg->" ++ gf_name field ++ " = value;";
        "}" ]
  end.

(** The part of the header emitted for one message. *)
Definition message_lines (message : GeneratedMessage) : list string :=
  let n := gm_name message in
  [ EmptyString;
    "/* " ++ n ++ " message definition */";
    "typedef struct " ++ n ++ "_t {";
    "    const int message_type;" ]
  ++ map (fun field => "    " ++ c_type field ++ " " ++ gf_name field ++ ";")
         (gm_fields message)
  ++ [ "} " ++ n ++ "_t;";
       EmptyString;
       "/* Constructor/Destructor */";
       "ptk_err " ++ n ++ "_create(ptk_allocator_t *alloc, " ++ n ++ "_t **instance);";
       "void " ++ n ++ "_dispose(ptk_allocator_t *alloc, " ++ n ++ "_t *instance);";
       EmptyString;
       "/* Encode/Decode */";
       "ptk_err " ++ n ++ "_encode(ptk_allocator_t *alloc, ptk_buf_t *buf, const "
         ++ n ++ "_t *instance);";
       "ptk_err " ++ n ++ "_decode(ptk_allocator_t *alloc, " ++ n
         ++ "_t **instance, ptk_buf_t *buf);" ]
  ++ (let array_fields := List.filter is_array (gm_fields message) in
      match array_fields with
      | [] => []
      | _ =>
          [ EmptyString; "/* Array Accessors */" ]
          ++ List.concat
               (map (fun field =>
                       let element_type := Py.remove_all "_array_t *" (c_type field) in
                       [ "ptk_err " ++ n ++ "_get_" ++ gf_name field
                           ++ "_element(const " ++ n ++ "_t *msg, size_t index, "
                           ++ element_type ++ " *value);";
                         "ptk_err " ++ n ++ "_set_" ++ gf_name field ++ "_element("
                           ++ n ++ "_t *msg, size_t index, " ++ element_type ++ " value);";
                         "size_t " ++ n ++ "_get_" ++ gf_name field
                           ++ "_length(const " ++ n ++ "_t *msg);" ])
                    array_fields)
      end)
  ++ (let bit_fields := List.filter is_bit_field (gm_fields message) in
      match bit_fields with
      | [] => []
      | _ =>
          [ EmptyString; "/* Bit Field Accessors */" ]
          ++ List.concat (map (bit_field_accessor_lines message) bit_fields)
      end).

(** [CodeGenerator.generate_header], as the list of lines joined at the end. *)
Definition generate_header_lines (self_namespace : string) (data : GeneratedData)
           (filename : string) : list string :=
  let guard := Py.upper self_namespace ++ "_" ++ Py.upper filename ++ "_H" in
  [ "#ifndef " ++ guard;
    "#define " ++ guard;
    EmptyString;
    "#include " ++ Py.dq ++ "ptk_array.h" ++ Py.dq;
    "#include " ++ Py.dq ++ "ptk_allocator.h" ++ Py.dq;
    "#include " ++ Py.dq ++ "ptk_buf.h" ++ Py.dq;
    "#include " ++ Py.dq ++ "ptk_codec.h" ++ Py.dq;
    "#include " ++ Py.dq ++ "ptk_err.h" ++ Py.dq;
    "#include " ++ Py.dq ++ "ptk_log.h" ++ Py.dq;
    "#include <stdint.h>";
    "#include <stdbool.h>";
    "#include <stddef.h>";
    EmptyString;
    "#ifdef __cplusplus";
    "extern " ++ Py.dq ++ "C" ++ Py.dq ++ " {";
    "#endif";
    EmptyString;
    "/* Message Type Enumeration */";
    "typedef enum {" ]
  ++ map (fun message => "    " ++ Py.upper (gm_name message) ++ "_MESSAGE_TYPE = "
                         ++ pretty (message_type_id message) ++ ",")
         (messages data)
  ++ [ "} message_type_t;";
       EmptyString;
       "/* Constants */" ]
  ++ map (fun const => "#define " ++ const_name const ++ " ((" ++ const_type const ++ ")"
                       ++ pretty (const_value const) ++ ")")
         (constants data)
  ++ List.concat (map message_lines (messages data))
  ++ [ EmptyString;
       "#ifdef __cplusplus";
       "}";
       "#endif";
       EmptyString;
       "#endif /* " ++ guard ++ " */" ].

Definition generate_header (self_namespace : string) (data : GeneratedData)
           (filename : string) : string :=
  Py.join_lines (generate_header_lines self_namespace data filename).

(** The body of the [try] block of [main] for one input file, from the parsed
    definitions on: a generator is created for the namespace, the definitions
    are processed and the header text is written to the output file.  None of
    these statements raises. *)
Definition compile_unit (namespace filename : string)
           (definitions : list PdlDefinition) : string :=
  generate_header namespace (process namespace definitions) filename.

(** *** Meaning of the emitted accessors

    The operands of the accessor bodies are C integers: after integer
    promotion each has one of four arithmetic types ([int], [unsigned int],
    [int64_t], [uint64_t], with a 32-bit [int]).  Unsigned arithmetic wraps
    around in the width of its type, and so does a conversion to a narrower
    type.  An operation C leaves undefined has no value: a shift whose count
    is not below the width of its promoted left operand, a left shift of a
    signed operand that is negative or whose result its type cannot
    represent, a signed subtraction that overflows. *)
Inductive ity := I32 | U32 | I64 | U64.

Definition ity_bits (t : ity) : Z :=
  match t with I32 | U32 => 32 | I64 | U64 => 64 end.

Definition ity_signed (t : ity) : bool :=
  match t with I32 | I64 => true | U32 | U64 => false end.

(** Conversion to an integer type of the given signedness and width. *)
Definition convert (signed : bool) (width : Z) (z : Z) : Z :=
  if signed then CInt.wrap_signed width z else CInt.wrap_unsigned width z.

Definition ity_wrap (t : ity) (z : Z) : Z := convert (ity_signed t) (ity_bits t) z.

Definition ity_rank (t : ity) : nat :=
  match t with I32 => 0 | U32 => 1 | I64 => 2 | U64 => 3 end.

(** The usual arithmetic conversions. *)
Definition common (a b : ity) : ity :=
  if (ity_rank a <? ity_rank b)%nat then b else a.

Record cint := mk_cint { ty : ity; val : Z }.

(** Signedness and width of the integer types a struct member can be
    declared with. *)
Definition int_types : list (string * (bool * Z)) :=
  [ ("uint8_t", (false, 8)); ("uint16_t", (false, 16));
    ("uint32_t", (false, 32)); ("uint64_t", (false, 64));
    ("int8_t", (true, 8)); ("int16_t", (true, 16));
    ("int32_t", (true, 32)); ("int64_t", (true, 64)) ].

(** Integer promotion of a value of the given type. *)
Definition promote (signed : bool) (width : Z) (z : Z) : cint :=
  if width <? 32 then mk_cint I32 z
  else if width =? 32 then mk_cint (if signed then I32 else U32) z
  else mk_cint (if signed then I64 else U64) z.

(** A decimal literal. *)
Definition c_lit (z : Z) : cint := mk_cint I32 z.

(** Whether the type represents the number. *)
Definition fits (t : ity) (z : Z) : bool := ity_wrap t z =? z.

Definition c_shl (a n : cint) : option cint :=
  if (0 <=? val n) && (val n <? ity_bits (ty a)) then
    let r := Z.shiftl (val a) (val n) in
    if ity_signed (ty a) then
      if (0 <=? val a) && fits (ty a) r then Some (mk_cint (ty a) r) else None
    else Some (mk_cint (ty a) (ity_wrap (ty a) r))
  else None.

Definition c_shr (a n : cint) : option cint :=
  if (0 <=? val n) && (val n <? ity_bits (ty a))
  then Some (mk_cint (ty a) (Z.shiftr (val a) (val n)))
  else None.

Definition c_sub (a b : cint) : option cint :=
  let t := common (ty a) (ty b) in
  let r := ity_wrap t (val a) - ity_wrap t (val b) in
  if ity_signed t then
    if fits t r then Some (mk_cint t r) else None
  else Some (mk_cint t (ity_wrap t r)).

Definition c_and (a b : cint) : cint :=
  let t := common (ty a) (ty b) in
  mk_cint t (Z.land (ity_wrap t (val a)) (ity_wrap t (val b))).

Definition c_or (a b : cint) : cint :=
  let t := common (ty a) (ty b) in
  mk_cint t (Z.lor (ity_wrap t (val a)) (ity_wrap t (val b))).

Definition c_not (a : cint) : cint :=
  mk_cint (ty a) (ity_wrap (ty a) (Z.lnot (val a))).

(** [((1 << length) - 1)] *)
Definition mask_expr (length : nat) : option cint :=
  one ← c_shl (c_lit 1) (c_lit (Z.of_nat length));
  c_sub one (c_lit 1).

(** A message object: the value of each struct member, by member name. *)
Abbreviation msg_t := (gmap string Z).

(** The emitted getter, for a container member of the integer type
    ([csigned], [cwidth]):

    [return (msg->container >> start_bit) & ((1 << length) - 1);]

    converted to the return type [get_bit_field_type(length)]. *)
Definition getter (csigned : bool) (cwidth : Z) (info : bit_source) (msg : msg_t)
  : option Z :=
  '(rsigned, rwidth) ← Py.dict_find int_types (get_bit_field_type (length info));
  c ← msg !! container info;
  mask ← mask_expr (length info);
  shifted ← c_shr (promote csigned cwidth c) (c_lit (Z.of_nat (start_bit info)));
  Some (convert rsigned rwidth (val (c_and shifted mask))).

(** The emitted setter of the bit-field member [name]:

    [msg->container &= ~(((1 << length) - 1) << start_bit);]
    [msg->container |= (value & ((1 << length) - 1)) << start_bit;]
    [msg->name = value;]

    The argument is converted to the parameter type
    [get_bit_field_type(length)] on entry. *)
Definition setter (csigned : bool) (cwidth : Z) (name : string) (info : bit_source)
           (v : Z) (msg : msg_t) : option msg_t :=
  '(vsigned, vwidth) ← Py.dict_find int_types (get_bit_field_type (length info));
  let value := convert vsigned vwidth v in
  mask ← mask_expr (length info);
  c ← msg !! container info;
  clear ← c_shl mask (c_lit (Z.of_nat (start_bit info)));
  let msg1 :=
    <[container info :=
        convert csigned cwidth (val (c_and (promote csigned cwidth c) (c_not clear)))]> msg in
  c1 ← msg1 !! container info;
  bits ← c_shl (c_and (promote vsigned vwidth value) mask)
               (c_lit (Z.of_nat (start_bit info)));
  let msg2 :=
    <[container info :=
        convert csigned cwidth (val (c_or (promote csigned cwidth c1) bits))]> msg1 in
  Some (<[name := value]> msg2).

(** The integer type the struct of [message] declares the member [member]
    with, if it is one. *)
Definition member_int_type (message : GeneratedMessage) (member : string)
  : option (bool * Z) :=
  f ← List.find (fun f => String.eqb (gf_name f) member) (gm_fields message);
  Py.dict_find int_types (c_type f).

(** The container after the two assignments of the setter to it, for a
    parameter type of width [vw]. *)
Definition set_bits (cs : bool) (cw : Z) (vw : Z) (start len : nat) (v c : Z) : Z :=
  let value := convert false vw v in
  let mask := mk_cint I32 (Z.ones (Z.of_nat len)) in
  let clear := mk_cint I32
                 (ity_wrap I32 (Z.shiftl (Z.ones (Z.of_nat len)) (Z.of_nat start))) in
  let c1 := convert cs cw (val (c_and (promote cs cw c) (c_not clear))) in
  let vm := c_and (promote false vw value) mask in
  let bits := mk_cint (ty vm) (ity_wrap (ty vm) (Z.shiftl (val vm) (Z.of_nat start))) in
  convert cs cw (val (c_or (promote cs cw c1) bits)).

Definition is_message (defn : PdlDefinition) : bool :=
  String.eqb (def_type defn) "message".

(** A unit with two messages, the first with a one-byte member, a bit-field
    of three bits from bit 6 of it, and a member of an undefined type. *)
Definition example_fields : list field_def :=
  [ FTypeRef "flags" "u8";
    FBitField "f" (mk_bit_source "flags" 6 3);
    FTypeRef "x" "nosuch" ].

Definition example_unit : list PdlDefinition :=
  [ definition "u16_le" (TPrimitive "u16" (Some [0; 1]%nat));
    definition "hdr" (TMessage example_fields);
    definition "limit" (TConstant "u16_le" 16);
    definition "ack" (TMessage []) ].

Definition example_header : list string :=
  generate_header_lines "ns" (process "ns" example_unit) "file".

Definition flags_2_3 : bit_source := mk_bit_source "flags" 2 3.
Definition flags_6_3 : bit_source := mk_bit_source "flags" 6 3.
Definition flags_40_4 : bit_source := mk_bit_source "flags" 40 4.

(** A message with an array field. *)
Definition array_unit : list PdlDefinition :=
  [ definition "frame" (TMessage [ FTypeRef "n" "u8"; FArray "data" "u16" "n" ]) ].

(** [definition['type'] == 'constant'] *)
Definition is_constant (defn : PdlDefinition) : bool :=
  String.eqb (def_type defn) "constant".

(** *** [main]: from the text to the header file

    Lark is not part of the sources; its part is modelled from its documented
    behaviour.  Built with [transformer=PDLTransformer()], the parser calls,
    each time it reduces a rule, the method of the transformer named after
    the rule on the values of the rule's children (tokens the grammar writes
    as literals are dropped), and for a rule without such a method it builds
    [Tree(rule, children)]. *)

(** The value of the second child of the rule [definition]: a dictionary, as
    the methods [primitive_def], [message_def] and [constant_def] return it,
    or a lark [Tree] over such dictionaries. *)
Inductive node :=
| Dict (d : type_def)
| Tree (data : string) (children : list type_def).

(** The rule [type_def: primitive_def | message_def | constant_def] has no
    method in [PDLTransformer]: its value is a [Tree] over the value of the
    alternative taken. *)
Definition type_def_rule (d : type_def) : node := Tree "type_def" [d].

(** [PDLTransformer.definition]:
    [return Definition(str(name), type_def['type'], type_def)].
    Subscripting a dictionary gives the entry; a [Tree] cannot be
    subscripted, and the attempt raises TypeError. *)
Definition definition_method (name : string) (type_def : node)
  : Py.exn + PdlDefinition :=
  match type_def with
  | Dict d => inr (definition name d)
  | Tree _ _ => inl Py.TypeError
  end.

(** [parser.parse(content)] for a text of the grammar, given by its
    definitions in order, each by its name and the dictionary its inner rule
    yields: the rules [definition], [item] and [start], reduced from left to
    right. *)
Fixpoint parse (content : list (string * type_def)) : Py.exn + list PdlDefinition :=
  match content with
  | [] => inr []
  | (name, d) :: rest =>
      match definition_method name (type_def_rule d) with
      | inl e => inl e
      | inr defn =>
          match parse rest with
          | inl e => inl e
          | inr definitions => inr (defn :: definitions)
          end
      end
  end.

(** The body of the loop of [main] for one input file of the grammar: the
    text written to the header file or, when the [try] block raises, the
    exception caught and reported, no file being written.  [args_namespace]
    is the namespace option, [stem] the name of the input file without its
    suffix. *)
Definition main_file (args_namespace : option string) (stem : string)
           (content : list (string * type_def)) : Py.exn + string :=
  match parse content with
  | inl e => inl e
  | inr definitions =>
      let namespace :=
        if Py.truthy args_namespace then default EmptyString args_namespace else stem in
      inr (compile_unit namespace stem definitions)
  end.

(** The text of [example_unit]: its definitions as [parse] takes them. *)
Definition example_content : list (string * type_def) :=
  [ ("u16_le", TPrimitive "u16" (Some [0; 1]%nat));
    ("hdr", TMessage example_fields);
    ("limit", TConstant "u16_le" 16);
    ("ack", TMessage []) ].

(** A text whose references all resolve and whose bit-field lies within its
    container. *)
Definition sound_content : list (string * type_def) :=
  [ ("hdr", TMessage [ FTypeRef "flags" "u8";
                       FBitField "f" (mk_bit_source "flags" 2 3) ]) ].

End Pdl.

(** * Theorems *)

Section Bits.

Lemma wrap_unsigned_testbit w x k :
  0 <= k < w -> Z.testbit (CInt.wrap_unsigned w x) k = Z.testbit x k.
Proof. intros. unfold CInt.wrap_unsigned. apply Z.mod_pow2_bits_low. lia. Qed.

Lemma wrap_signed_mod w x :
  0 < w -> CInt.wrap_signed w x mod 2 ^ w = x mod 2 ^ w.
Proof.
  intros Hw. unfold CInt.wrap_signed.
  rewrite Zminus_mod, Zmod_mod, <- Zminus_mod. f_equal. lia.
Qed.

Lemma wrap_signed_testbit w x k :
  0 <= k < w -> Z.testbit (CInt.wrap_signed w x) k = Z.testbit x k.
Proof.
  intros Hk.
  rewrite <- (Z.mod_pow2_bits_low (CInt.wrap_signed w x) w k) by lia.
  rewrite wrap_signed_mod by lia. apply Z.mod_pow2_bits_low. lia.
Qed.

Lemma low_bits_mod w a b :
  0 <= w ->
  (forall k, 0 <= k < w -> Z.testbit a k = Z.testbit b k) ->
  a mod 2 ^ w = b mod 2 ^ w.
Proof.
  intros Hw H. apply Z.bits_inj'. intros k Hk.
  destruct (Z.lt_ge_cases k w).
  - rewrite !Z.mod_pow2_bits_low by lia. apply H. lia.
  - rewrite !Z.mod_pow2_bits_high by lia. reflexivity.
Qed.

Lemma pow2_half w : 0 < w -> 2 ^ w = 2 * 2 ^ (w - 1).
Proof. intros. rewrite <- Z.pow_succ_r by lia. f_equal. lia. Qed.

Lemma wrap_signed_small w v :
  0 < w -> - 2 ^ (w - 1) <= v < 2 ^ (w - 1) -> CInt.wrap_signed w v = v.
Proof.
  intros Hw Hv. unfold CInt.wrap_signed.
  rewrite Z.mod_small; [lia|]. rewrite (pow2_half w) by lia. lia.
Qed.

Lemma wrap_signed_congr w a b :
  a mod 2 ^ w = b mod 2 ^ w -> CInt.wrap_signed w a = CInt.wrap_signed w b.
Proof.
  intros H. unfold CInt.wrap_signed.
  rewrite (Zplus_mod a), (Zplus_mod b), H. reflexivity.
Qed.

Lemma wrap_unsigned_small w v : 0 <= v < 2 ^ w -> CInt.wrap_unsigned w v = v.
Proof. intros. unfold CInt.wrap_unsigned. apply Z.mod_small. lia. Qed.

Lemma byte_testbit_high b k : 0 <= b < 256 -> 8 <= k -> Z.testbit b k = false.
Proof.
  intros Hb Hk. destruct (Z.eq_dec b 0) as [->|]; [apply Z.bits_0|].
  apply Z.bits_above_log2; [lia|].
  assert (Z.log2 b < 8); [|lia]. apply Z.log2_lt_pow2; lia.
Qed.

Lemma shiftl_bound x (len n : nat) :
  0 <= x < 2 ^ Z.of_nat len -> (n + len <= 31)%nat ->
  0 <= Z.shiftl x (Z.of_nat n) < 2 ^ 31.
Proof.
  intros Hx Hn. rewrite Z.shiftl_mul_pow2 by lia.
  assert (0 < 2 ^ Z.of_nat n) by (apply Z.pow_pos_nonneg; lia).
  assert (2 ^ Z.of_nat len * 2 ^ Z.of_nat n <= 2 ^ 31).
  { rewrite <- Z.pow_add_r by lia. apply Z.pow_le_mono_r; lia. }
  nia.
Qed.

End Bits.

(** ** Byte layouts *)
Section Layout.

Import StructCodec.

Lemma distinct_NoDup l : distinct l = true -> List.NoDup l.
Proof.
  induction l as [|x l IH]; simpl; intros H; [constructor|].
  apply andb_true_iff in H as [Hx Hl]. constructor; [|auto].
  intros Hin. apply negb_true_iff in Hx.
  assert (existsb (Nat.eqb x) l = true); [|congruence].
  apply existsb_exists. exists x. split; [done|]. apply Nat.eqb_refl.
Qed.

Lemma NoDup_snd_inj (L : list (nat * nat)) a b s :
  List.NoDup (map snd L) -> In (a, s) L -> In (b, s) L -> a = b.
Proof.
  induction L as [|[i0 s0] L IH]; simpl; [tauto|].
  intros Hnd [Ha|Ha] [Hb|Hb]; inversion Hnd as [|? ? Hnot Hnd']; subst.
  - congruence.
  - inversion Ha; subst. exfalso. apply Hnot.
    change s with (snd (b, s)). by apply in_map.
  - inversion Hb; subst. exfalso. apply Hnot.
    change s with (snd (a, s)). by apply in_map.
  - auto.
Qed.

Lemma layout_ok_spec n L : layout_ok n L = true -> layout_spec n L.
Proof.
  unfold layout_ok. rewrite !andb_true_iff.
  intros [[[[Hi Hq] Hb] Hd1] Hd2].
  rewrite forallb_forall in Hi, Hq, Hb.
  split.
  - intros i Hlt. specialize (Hi i). rewrite existsb_exists in Hi.
    destruct Hi as [[i' s] [Hin Heq]]; [apply in_seq; lia|].
    apply Nat.eqb_eq in Heq. simpl in Heq. subst. eauto.
  - intros q Hlt. specialize (Hq q). rewrite existsb_exists in Hq.
    destruct Hq as [[i s] [Hin Heq]]; [apply in_seq; lia|].
    apply Nat.eqb_eq in Heq. simpl in Heq. subst. eauto.
  - intros t Hin. specialize (Hb t Hin).
    rewrite !andb_true_iff in Hb. destruct Hb as [[H1 H2] H3].
    apply Nat.ltb_lt in H1. apply Nat.eqb_eq in H2. apply Nat.leb_le in H3. auto.
  - by apply distinct_NoDup.
  - by apply distinct_NoDup.
Qed.

Lemma or_term_testbit (c : bool) bytes (t : nat * nat) m :
  0 <= m < (if c then 64 else 32) ->
  Z.testbit (or_term c bytes t) m
  = Z.testbit (Z.shiftl (byte_at bytes t.1) (Z.of_nat t.2)) m.
Proof.
  intros Hm. unfold or_term, byte_at.
  destruct c; [apply wrap_unsigned_testbit | apply wrap_signed_testbit]; lia.
Qed.

Lemma or_terms_testbit_acc (c : bool) bytes L acc m :
  0 <= m < (if c then 64 else 32) ->
  Z.testbit (fold_left (fun acc term => Z.lor acc (or_term c bytes term)) L acc) m
  = Z.testbit acc m
    || existsb (fun t => Z.testbit (Z.shiftl (byte_at bytes t.1) (Z.of_nat t.2)) m) L.
Proof.
  intros Hm. revert acc. induction L as [|t L IH]; intros acc; simpl.
  - by rewrite orb_false_r.
  - rewrite IH, Z.lor_spec, or_term_testbit, orb_assoc by done. reflexivity.
Qed.

Lemma or_terms_testbit (c : bool) bytes L m :
  0 <= m < (if c then 64 else 32) ->
  Z.testbit (or_terms c bytes L) m
  = existsb (fun t => Z.testbit (Z.shiftl (byte_at bytes t.1) (Z.of_nat t.2)) m) L.
Proof.
  intros Hm. unfold or_terms. rewrite or_terms_testbit_acc by done.
  by rewrite Z.bits_0.
Qed.

Lemma shifted_byte_testbit b s m :
  is_byte b -> 0 <= s -> 0 <= m ->
  Z.testbit (Z.shiftl b s) m = true -> s <= m < s + 8.
Proof.
  intros Hb Hs Hm. rewrite Z.shiftl_spec by lia. intros Ht.
  destruct (Z.lt_ge_cases m s).
  - rewrite Z.testbit_neg_r in Ht by lia. discriminate.
  - destruct (Z.lt_ge_cases m (s + 8)); [lia|].
    rewrite byte_testbit_high in Ht; [discriminate|done|lia].
Qed.

(** Bits [s .. s+7] of the decoded integer are the byte paired with the
    shift [s]. *)
Lemma or_terms_pick (c : bool) n L bytes i s k :
  layout_spec n L ->
  (forall j, is_byte (byte_at bytes j)) ->
  In (i, s) L -> 0 <= k < 8 ->
  Z.of_nat s + k < (if c then 64 else 32) ->
  Z.testbit (or_terms c bytes L) (Z.of_nat s + k) = Z.testbit (byte_at bytes i) k.
Proof.
  intros HL Hb Hin Hk Hbound.
  rewrite or_terms_testbit by lia.
  apply eq_true_iff_eq. rewrite existsb_exists. split.
  - intros [[j s'] [Hin' Ht]]. simpl in Ht.
    assert (Z.of_nat s' <= Z.of_nat s + k < Z.of_nat s' + 8) as Hr
      by (apply (shifted_byte_testbit (byte_at bytes j)); [apply Hb|lia|lia|done]).
    destruct (ls_bound _ _ HL _ Hin) as (_ & Hs & _).
    destruct (ls_bound _ _ HL _ Hin') as (_ & Hs' & _). cbn [fst snd] in *.
    assert (s' = s) as ->.
    { apply Nat.Div0.div_exact in Hs, Hs'. lia. }
    rewrite (NoDup_snd_inj L i j s (ls_shift_once _ _ HL) Hin Hin').
    rewrite Z.shiftl_spec in Ht by lia. rewrite <- Ht. f_equal. lia.
  - intros Ht. exists (i, s). split; [done|]. simpl.
    rewrite Z.shiftl_spec by lia. rewrite <- Ht. f_equal. lia.
Qed.

Lemma byte_of_is_byte v s : is_byte (byte_of v s).
Proof.
  unfold byte_of, is_byte. change 255 with (Z.ones 8).
  rewrite Z.land_ones by lia. apply Z.mod_pos_bound. lia.
Qed.

Lemma byte_of_testbit v s k :
  0 <= k < 8 -> Z.testbit (byte_of v s) k = Z.testbit v (Z.of_nat s + k).
Proof.
  intros Hk. unfold byte_of. change 255 with (Z.ones 8).
  rewrite Z.land_ones by lia. rewrite Z.mod_pow2_bits_low by lia.
  rewrite Z.shiftr_spec by lia. f_equal. lia.
Qed.

Lemma encode_fold_length (f : nat * nat -> Z) L (bs : list Z) :
  List.length (fold_left (fun bytes t => <[t.1 := f t]> bytes) L bs) = List.length bs.
Proof.
  revert bs. induction L as [|t L IH]; intros bs; simpl; [done|].
  rewrite IH. apply length_insert.
Qed.

Lemma encode_fold_other (f : nat * nat -> Z) L (bs : list Z) i :
  ~ In i (map fst L) ->
  fold_left (fun bytes t => <[t.1 := f t]> bytes) L bs !! i = bs !! i.
Proof.
  revert bs. induction L as [|t L IH]; intros bs Hni; simpl; [done|].
  rewrite IH by (intros ?; apply Hni; by right).
  apply list_lookup_insert_ne. intros Heq. apply Hni. by left.
Qed.

Lemma encode_fold_lookup (f : nat * nat -> Z) L (bs : list Z) t :
  List.NoDup (map fst L) -> In t L -> (t.1 < List.length bs)%nat ->
  fold_left (fun bytes t => <[t.1 := f t]> bytes) L bs !! t.1 = Some (f t).
Proof.
  revert bs. induction L as [|t0 L IH]; intros bs Hnd Hin Hlt; simpl; [done|].
  inversion Hnd as [|? ? Hnot Hnd']; subst. destruct Hin as [->|Hin].
  - rewrite encode_fold_other by done. by apply list_lookup_insert_eq.
  - apply IH; [done..|]. by rewrite length_insert.
Qed.

Lemma encode_bytes_length n L v : List.length (encode_bytes n L v) = n.
Proof.
  unfold encode_bytes.
  rewrite (encode_fold_length (fun t => Z.land (Z.shiftr v (Z.of_nat t.2)) 255)).
  apply length_replicate.
Qed.

Lemma encode_bytes_lookup n L v i s :
  layout_spec n L -> In (i, s) L -> encode_bytes n L v !! i = Some (byte_of v s).
Proof.
  intros HL Hin. unfold encode_bytes.
  apply (encode_fold_lookup (fun t => byte_of v t.2) L (replicate n 0) (i, s)).
  - apply (ls_index_once _ _ HL).
  - done.
  - rewrite length_replicate. apply (ls_bound _ _ HL _ Hin).
Qed.

Lemma encode_bytes_byte_at n L v j :
  layout_spec n L -> is_byte (byte_at (encode_bytes n L v) j).
Proof.
  intros HL. unfold byte_at.
  destruct (Nat.lt_ge_cases j n) as [Hlt|Hge].
  - destruct (ls_index _ _ HL j Hlt) as [s Hin].
    rewrite (encode_bytes_lookup _ _ _ _ _ HL Hin). apply byte_of_is_byte.
  - rewrite lookup_ge_None_2 by (rewrite encode_bytes_length; lia).
    simpl. unfold is_byte. lia.
Qed.

Lemma assign_from_int_testbit t z m :
  is_integer t = true -> 0 <= m < int_width t ->
  Z.testbit (assign_from_int t z) m = Z.testbit z m.
Proof.
  destruct t; simpl; try discriminate; intros _ Hm.
  - by apply wrap_unsigned_testbit.
  - by apply wrap_signed_testbit.
Qed.

Lemma assign_from_int_low t z v :
  is_integer t = true -> 0 < int_width t -> in_range t v ->
  z mod 2 ^ int_width t = v mod 2 ^ int_width t ->
  assign_from_int t z = v.
Proof.
  destruct t; simpl; try discriminate; intros _ Hw Hv Heq.
  - unfold CInt.wrap_unsigned. rewrite Heq. apply Z.mod_small. lia.
  - rewrite (wrap_signed_congr _ _ _ Heq). by apply wrap_signed_small.
Qed.

(** Encoding the decoded integer gives the bytes back. *)
Lemma layout_encode_decode (c : bool) n L t bytes :
  layout_spec n L -> is_integer t = true ->
  int_width t = 8 * Z.of_nat n -> int_width t <= (if c then 64 else 32) ->
  List.length bytes = n -> Forall is_byte bytes ->
  encode_bytes n L (assign_from_int t (or_terms c bytes L)) = bytes.
Proof.
  intros HL Ht Hw Hc Hlen Hb.
  assert (forall j, is_byte (byte_at bytes j)) as Hb'.
  { intros j. unfold byte_at. destruct (bytes !! j) as [b|] eqn:Hj; simpl.
    - eapply Forall_forall in Hb; [done|]. apply list_elem_of_In.
      by eapply list_elem_of_lookup_2.
    - unfold is_byte. lia. }
  apply list_eq. intros i.
  destruct (Nat.lt_ge_cases i n) as [Hlt|Hge].
  - destruct (ls_index _ _ HL i Hlt) as [s Hin].
    rewrite (encode_bytes_lookup _ _ _ _ _ HL Hin).
    destruct (lookup_lt_is_Some_2 bytes i ltac:(lia)) as [b Hbi].
    rewrite Hbi. f_equal.
    pose proof (Hb' i) as Hbyte. unfold byte_at in Hbyte. rewrite Hbi in Hbyte.
    simpl in Hbyte.
    destruct (ls_bound _ _ HL _ Hin) as (_ & _ & Hs). simpl in Hs.
    apply Z.bits_inj'. intros k Hk.
    destruct (Z.lt_ge_cases k 8).
    + rewrite byte_of_testbit by lia.
      rewrite assign_from_int_testbit by (done || lia).
      rewrite (or_terms_pick c n L bytes i s k) by (done || lia).
      unfold byte_at. by rewrite Hbi.
    + rewrite (byte_testbit_high b) by (done || lia).
      apply byte_testbit_high; [apply byte_of_is_byte|lia].
  - rewrite !lookup_ge_None_2; [done|lia|rewrite encode_bytes_length; lia].
Qed.

(** Decoding the encoded bytes gives the value back. *)
Lemma layout_decode_encode (c : bool) n L t v :
  layout_spec n L -> is_integer t = true ->
  int_width t = 8 * Z.of_nat n -> int_width t <= (if c then 64 else 32) ->
  (0 < n)%nat -> in_range t v ->
  assign_from_int t (or_terms c (encode_bytes n L v) L) = v.
Proof.
  intros HL Ht Hw Hc Hn Hv.
  apply assign_from_int_low; [done|lia|done|].
  apply low_bits_mod; [lia|]. intros m Hm.
  set (q := Z.to_nat (m / 8)).
  assert (m = Z.of_nat (8 * q) + m mod 8) as Hmq.
  { unfold q. rewrite Nat2Z.inj_mul, Z2Nat.id by (apply Z.div_pos; lia).
    pose proof (Z.div_mod m 8 ltac:(lia)). lia. }
  assert (q < n)%nat as Hq.
  { unfold q. apply Nat2Z.inj_lt. rewrite Z2Nat.id by (apply Z.div_pos; lia).
    apply Z.div_lt_upper_bound; lia. }
  destruct (ls_shift _ _ HL q Hq) as [i Hin].
  pose proof (Z.mod_pos_bound m 8 ltac:(lia)) as Hk.
  rewrite Hmq at 1.
  rewrite (or_terms_pick c n L _ i (8 * q) (m mod 8) HL); [|
    intros j; by apply encode_bytes_byte_at | done | lia | lia].
  unfold byte_at. rewrite (encode_bytes_lookup _ _ _ _ _ HL Hin). simpl.
  rewrite byte_of_testbit by lia. f_equal. lia.
Qed.

(** The decode shifts have a value on the bytes a value encodes to: always
    in the plans with the cast, and in the plans without it unless the value
    has four bytes and its bit 31 is set. *)
Lemma encode_bytes_defined (c : bool) n L v :
  layout_spec n L -> 8 * Z.of_nat n <= (if c then 64 else 32) ->
  (8 * Z.of_nat n = 32 -> 0 <= v < 2 ^ 31) ->
  forallb (or_term_defined c (encode_bytes n L v)) L = true.
Proof.
  intros HL Hn Hv. apply forallb_forall. intros [i s] Hin.
  unfold or_term_defined. destruct c; [done|]. cbn [orb fst snd].
  rewrite (encode_bytes_lookup _ _ _ _ _ HL Hin). cbn [default from_option id].
  apply Z.ltb_lt.
  destruct (ls_bound _ _ HL _ Hin) as (_ & _ & Hs). cbn [fst snd] in Hs.
  pose proof (byte_of_is_byte v s) as Hb. unfold is_byte in Hb.
  destruct (Nat.le_gt_cases (s + 8) 31) as [Hlow|Hhigh].
  - apply (shiftl_bound _ 8 s); [simpl; lia | lia].
  - assert (s = 24%nat) as -> by lia.
    specialize (Hv ltac:(lia)).
    unfold byte_of. change 255 with (Z.ones 8).
    rewrite Z.land_ones, Z.shiftr_div_pow2, Z.shiftl_mul_pow2 by lia.
    change (Z.of_nat 24) with 24.
    assert (0 <= v / 2 ^ 24 < 128) as Hq.
    { split; [apply Z.div_pos; lia|apply Z.div_lt_upper_bound; lia]. }
    rewrite Z.mod_small by lia. lia.
Qed.

End Layout.

(** ** The scalar plans as layouts *)
Section Plans.

Import StructCodec.

Lemma fetch_loop_inv buf k i bytes :
  (i + k = List.length buf)%nat -> List.length bytes = List.length buf ->
  take i bytes = take i buf ->
  fetch_loop buf 0 k i bytes = inr buf.
Proof.
  revert i bytes. induction k as [|k IH]; intros i bytes Hik Hlen Htake; simpl.
  - rewrite Nat.add_0_r in Hik. subst i.
    rewrite <- Hlen in Htake at 1. rewrite !firstn_all in Htake. by subst.
  - unfold buf_get_u8.
    destruct (lookup_lt_is_Some_2 buf i ltac:(lia)) as [b Hb]. rewrite Hb. simpl.
    apply IH; [lia|by rewrite length_insert|].
    rewrite (take_S_r buf i b) by done.
    rewrite (take_S_r (<[i:=b]> bytes) i b)
      by (apply list_lookup_insert_eq; lia).
    by rewrite take_insert_ge, Htake by lia.
Qed.

Lemma fetch_loop_all buf :
  fetch_loop buf 0 (List.length buf) 0 (replicate (List.length buf) 0) = inr buf.
Proof. apply fetch_loop_inv; [done|apply length_replicate|done]. Qed.

Lemma store_loop_inv bytes k i buf :
  (i + k = List.length bytes)%nat -> List.length buf = List.length bytes ->
  take i buf = take i bytes ->
  store_loop bytes 0 k i buf = inr bytes.
Proof.
  revert i buf. induction k as [|k IH]; intros i buf Hik Hlen Htake; simpl.
  - rewrite Nat.add_0_r in Hik. subst i.
    rewrite <- Hlen in Htake at 1. rewrite !firstn_all in Htake. by subst.
  - unfold buf_set_u8.
    destruct (Nat.ltb_spec i (List.length buf)) as [_|?]; [|lia]. simpl.
    destruct (lookup_lt_is_Some_2 bytes i ltac:(lia)) as [b Hb]. rewrite Hb. simpl.
    apply IH; [lia|by rewrite length_insert|].
    rewrite (take_S_r bytes i b) by done.
    rewrite (take_S_r (<[i:=b]> buf) i b)
      by (apply list_lookup_insert_eq; lia).
    by rewrite take_insert_ge, Htake by lia.
Qed.

Lemma obj_get_insert (o : obj) k z : obj_get (<[k := z]> o) k = z.
Proof. unfold obj_get. by rewrite lookup_insert_eq. Qed.

Lemma decode_scalar_shape ft t n c L bytes :
  Py.dict_find codec_types ft = Some t ->
  get_decode_code ft (LField "x") = decode_shape (LField "x") n c L ->
  List.length bytes = n ->
  forallb (or_term_defined c bytes) L = true ->
  decode_scalar ft bytes = Some (assign_from_int t (or_terms c bytes L)).
Proof.
  intros Ht Hcode Hlen Hdef. unfold decode_scalar. rewrite Ht, Hcode. subst n.
  unfold decode_shape. cbn [exec_code exec_stmt st_buf st_offset st_bytes st_obj st_u].
  rewrite fetch_loop_all.
  cbn [exec_code exec_stmt st_buf st_offset st_bytes st_obj st_u]. rewrite Hdef.
  cbn [exec_code exec_stmt set_var st_buf st_offset st_bytes st_obj st_u lv_path].
  by rewrite obj_get_insert.
Qed.

Lemma shifts_defined_shape ft n c L bytes :
  get_decode_code ft (LField "x") = decode_shape (LField "x") n c L ->
  shifts_defined ft bytes = forallb (or_term_defined c bytes) L.
Proof.
  intros Hcode. unfold shifts_defined. rewrite Hcode. unfold decode_shape.
  cbn [forallb]. by rewrite andb_true_r.
Qed.

Lemma exec_set_bytes t (L : list (nat * nat)) rest o bytes u off buf v :
  is_integer t = true -> obj_get o [("x", 0%nat)] = v ->
  exec_code t 0 (map (fun t => SSetByte t.1 (OVar (LField "x")) t.2) L ++ rest)
            (mk_cstate o bytes u off buf)
  = exec_code t 0 rest
      (mk_cstate o
         (fold_left
            (fun bytes t => <[t.1 := Z.land (Z.shiftr v (Z.of_nat t.2)) 255]> bytes)
            L bytes) u off buf).
Proof.
  intros Ht Hv. revert bytes. induction L as [|t0 L IH]; intros bytes; [done|].
  cbn [map app exec_code exec_stmt fold_left st_obj st_bytes st_u st_offset st_buf lv_path].
  rewrite Hv. destruct t; try discriminate; apply IH.
Qed.

Lemma encode_scalar_shape ft t n L v :
  Py.dict_find codec_types ft = Some t -> is_integer t = true ->
  Py.dict_get type_sizes ft 0%nat = n ->
  get_encode_code ft (LField "x") = encode_shape (LField "x") n L ->
  encode_scalar ft v = Some (encode_bytes n L v).
Proof.
  intros Ht Hint Hn Hcode. unfold encode_scalar. rewrite Ht, Hcode, Hn.
  unfold encode_shape.
  cbn [exec_code exec_stmt st_buf st_offset st_bytes st_obj st_u].
  rewrite (exec_set_bytes t L _ _ _ _ _ _ v Hint)
    by (unfold obj_get; by rewrite lookup_singleton_eq).
  cbn [exec_code exec_stmt st_buf st_offset st_bytes st_obj st_u].
  fold (encode_bytes n L v).
  rewrite store_loop_inv;
    [done|by rewrite encode_bytes_length|
     by rewrite encode_bytes_length, length_replicate|done].
Qed.

End Plans.

(** ** Round trips of the integer types *)
Section IntegerRoundTrip.

Import StructCodec.

Ltac solve_int_plan ft :=
  let code := eval vm_compute in (get_decode_code ft (LField "x")) in
  match code with
  | [_; _; SAssignOr _ ?c ?L; SAdvance ?n] =>
      exists n, c, L; split;
      [reflexivity | reflexivity | lia | vm_compute; reflexivity
      | vm_compute; reflexivity | vm_compute; reflexivity | reflexivity
      | cbn; lia]
  end.

Lemma multi_byte_int_plan ft t :
  In (ft, t) codec_types -> is_integer t = true ->
  ft <> "codec_u8" -> ft <> "codec_i8" ->
  exists n c L, int_plan ft t n c L.
Proof.
  intros Hin Hint Hu8 Hi8. unfold codec_types in Hin. simpl in Hin.
  repeat (destruct Hin as [Hin|Hin];
          [inversion Hin; subst; clear Hin;
           first [discriminate Hint | congruence
                 | match goal with |- exists n c L, int_plan ?ft _ _ _ _ =>
                     solve_int_plan ft end]|]).
  destruct Hin.
Qed.

Lemma decode_u8 b : decode_scalar "codec_u8" [b] = Some b.
Proof.
  unfold decode_scalar.
  change (Py.dict_find codec_types "codec_u8") with (Some (uint_t 8)).
  change (get_decode_code "codec_u8" (LField "x")) with [SGetU8 (LField "x"); SAdvance 1].
  cbn [exec_code exec_stmt buf_get_u8 st_buf st_offset lookup list_lookup check_buf_err
       set_var st_obj st_bytes st_u lv_path].
  by rewrite obj_get_insert.
Qed.

Lemma decode_i8 b : decode_scalar "codec_i8" [b] = Some (CInt.wrap_signed 8 b).
Proof.
  unfold decode_scalar.
  change (Py.dict_find codec_types "codec_i8") with (Some (int_t 8)).
  change (get_decode_code "codec_i8" (LField "x")) with [SGetU8 (LField "x"); SAdvance 1].
  cbn [exec_code exec_stmt buf_get_u8 st_buf st_offset lookup list_lookup check_buf_err
       set_var st_obj st_bytes st_u lv_path].
  by rewrite obj_get_insert.
Qed.

Lemma encode_8 ft t v :
  (ft = "codec_u8" /\ t = uint_t 8) \/ (ft = "codec_i8" /\ t = int_t 8) ->
  encode_scalar ft v = Some [CInt.wrap_unsigned 8 v].
Proof.
  intros [[-> ->]|[-> ->]]; unfold encode_scalar.
  - change (Py.dict_find codec_types "codec_u8") with (Some (uint_t 8)).
    change (get_encode_code "codec_u8" (LField "x")) with [SSetU8 (LField "x"); SAdvance 1].
    change (Py.dict_get type_sizes "codec_u8" 0%nat) with 1%nat.
    cbn [exec_code exec_stmt buf_set_u8 st_buf st_offset check_buf_err replicate
         List.length Nat.ltb Nat.leb st_obj st_bytes st_u lv_path insert list_insert].
    unfold obj_get. by rewrite lookup_singleton_eq.
  - change (Py.dict_find codec_types "codec_i8") with (Some (int_t 8)).
    change (get_encode_code "codec_i8" (LField "x")) with [SSetU8 (LField "x"); SAdvance 1].
    change (Py.dict_get type_sizes "codec_i8" 0%nat) with 1%nat.
    cbn [exec_code exec_stmt buf_set_u8 st_buf st_offset check_buf_err replicate
         List.length Nat.ltb Nat.leb st_obj st_bytes st_u lv_path insert list_insert].
    unfold obj_get. by rewrite lookup_singleton_eq.
Qed.

(** For every integer type, encoding the integer decoded from a buffer of the
    size of the type reproduces the buffer, provided the shifts of the decode
    line have a value on it. *)
Theorem integer_encode_decode ft t bytes :
  In (ft, t) codec_types -> is_integer t = true ->
  List.length bytes = Py.dict_get type_sizes ft 0%nat -> Forall is_byte bytes ->
  shifts_defined ft bytes = true ->
  exists v, decode_scalar ft bytes = Some v /\ in_range t v
            /\ encode_scalar ft v = Some bytes.
Proof.
  intros Hin Hint Hlen Hb Hdef.
  destruct (String.eqb_spec ft "codec_u8") as [->|Hu8].
  { assert (t = uint_t 8) as ->.
    { simpl in Hin. repeat (destruct Hin as [Hin|Hin]; [by inversion Hin|]). done. }
    destruct bytes as [|b [|]]; try discriminate Hlen.
    apply Forall_inv in Hb. unfold is_byte in Hb.
    exists b. rewrite decode_u8, (encode_8 _ (uint_t 8)) by auto.
    rewrite wrap_unsigned_small by (simpl; lia). simpl. repeat split; (done || lia). }
  destruct (String.eqb_spec ft "codec_i8") as [->|Hi8].
  { assert (t = int_t 8) as ->.
    { simpl in Hin. repeat (destruct Hin as [Hin|Hin]; [by inversion Hin|]). done. }
    destruct bytes as [|b [|]]; try discriminate Hlen.
    apply Forall_inv in Hb. unfold is_byte in Hb.
    exists (CInt.wrap_signed 8 b).
    rewrite decode_i8, (encode_8 _ (int_t 8)) by auto.
    split; [done|]. split.
    - simpl. unfold CInt.wrap_signed.
      pose proof (Z.mod_pos_bound (b + 2 ^ (8 - 1)) (2 ^ 8) ltac:(lia)).
      change (2 ^ (8 - 1)) with 128 in *. change (2 ^ 8) with 256 in *. lia.
    - unfold CInt.wrap_unsigned. rewrite wrap_signed_mod by lia.
      rewrite Z.mod_small by (simpl; lia). done. }
  destruct (multi_byte_int_plan ft t Hin Hint Hu8 Hi8) as (n & c & L & P).
  rewrite (ip_size _ _ _ _ _ P) in Hlen.
  rewrite (shifts_defined_shape ft n c L bytes (ip_decode _ _ _ _ _ P)) in Hdef.
  exists (assign_from_int t (or_terms c bytes L)).
  rewrite (decode_scalar_shape ft t n c L bytes (ip_type _ _ _ _ _ P)
             (ip_decode _ _ _ _ _ P) Hlen Hdef).
  split; [done|]. split.
  - pose proof (ip_width _ _ _ _ _ P) as Hw. pose proof (ip_pos _ _ _ _ _ P).
    destruct t; try discriminate Hint; simpl in *.
    + apply Z.mod_pos_bound. apply Z.pow_pos_nonneg; lia.
    + unfold CInt.wrap_signed.
      pose proof (Z.mod_pos_bound (or_terms c bytes L + 2 ^ (w - 1)) (2 ^ w)
                    ltac:(apply Z.pow_pos_nonneg; lia)).
      rewrite (pow2_half w) in * by lia. lia.
  - rewrite (encode_scalar_shape ft t n L _ (ip_type _ _ _ _ _ P) Hint
               (ip_size _ _ _ _ _ P) (ip_encode _ _ _ _ _ P)).
    f_equal. apply layout_encode_decode;
      [apply layout_ok_spec, (ip_layout _ _ _ _ _ P) | done
      | apply (ip_width _ _ _ _ _ P) | apply (ip_bound _ _ _ _ _ P) | done | done].
Qed.

(** For every integer type, decoding the bytes a value of the type encodes to
    reproduces the value; for the types of four bytes, whose decode line
    shifts an [int] by 24 places, provided bit 31 of the value is clear. *)
Theorem integer_decode_encode ft t v :
  In (ft, t) codec_types -> is_integer t = true -> in_range t v ->
  (int_width t = 32 -> 0 <= v < 2 ^ 31) ->
  exists bytes, encode_scalar ft v = Some bytes
                /\ List.length bytes = Py.dict_get type_sizes ft 0%nat
                /\ decode_scalar ft bytes = Some v.
Proof.
  intros Hin Hint Hv Hv31.
  destruct (String.eqb_spec ft "codec_u8") as [->|Hu8].
  { assert (t = uint_t 8) as ->.
    { simpl in Hin. repeat (destruct Hin as [Hin|Hin]; [by inversion Hin|]). done. }
    simpl in Hv. exists [v]. rewrite (encode_8 _ (uint_t 8)) by auto.
    rewrite wrap_unsigned_small by done. by rewrite decode_u8. }
  destruct (String.eqb_spec ft "codec_i8") as [->|Hi8].
  { assert (t = int_t 8) as ->.
    { simpl in Hin. repeat (destruct Hin as [Hin|Hin]; [by inversion Hin|]). done. }
    simpl in Hv. exists [CInt.wrap_unsigned 8 v].
    rewrite (encode_8 _ (int_t 8)) by auto. rewrite decode_i8.
    repeat split. f_equal.
    rewrite (wrap_signed_congr 8 _ v).
    - apply wrap_signed_small; [lia|done].
    - unfold CInt.wrap_unsigned. apply Zmod_mod. }
  destruct (multi_byte_int_plan ft t Hin Hint Hu8 Hi8) as (n & c & L & P).
  exists (encode_bytes n L v).
  rewrite (encode_scalar_shape ft t n L _ (ip_type _ _ _ _ _ P) Hint
             (ip_size _ _ _ _ _ P) (ip_encode _ _ _ _ _ P)).
  rewrite encode_bytes_length, (ip_size _ _ _ _ _ P).
  repeat split.
  assert (forallb (or_term_defined c (encode_bytes n L v)) L = true) as Hdef.
  { apply encode_bytes_defined.
    - apply layout_ok_spec, (ip_layout _ _ _ _ _ P).
    - rewrite <- (ip_width _ _ _ _ _ P). apply (ip_bound _ _ _ _ _ P).
    - rewrite <- (ip_width _ _ _ _ _ P). apply Hv31. }
  rewrite (decode_scalar_shape ft t n c L _ (ip_type _ _ _ _ _ P)
             (ip_decode _ _ _ _ _ P) (encode_bytes_length _ _ _) Hdef).
  f_equal. apply layout_decode_encode;
    [apply layout_ok_spec, (ip_layout _ _ _ _ _ P) | done
    | apply (ip_width _ _ _ _ _ P) | apply (ip_bound _ _ _ _ _ P)
    | apply (ip_pos _ _ _ _ _ P) | done].
Qed.

(** The shifts of the decode line of a two-byte or an eight-byte type always
    have a value; those of a four-byte type do when the byte shifted by 24
    places is below 0x80. *)
Lemma shifts_defined_examples :
  shifts_defined "codec_u16_be" [0xFF; 0xFF] = true
  /\ shifts_defined "codec_u64_be" [0xFF; 0xFF; 0xFF; 0xFF; 0xFF; 0xFF; 0xFF; 0xFF] = true
  /\ shifts_defined "codec_u32_be" [0x7F; 0xFF; 0xFF; 0xFF] = true
  /\ shifts_defined "codec_u32_be" [0x80; 0; 0; 0] = false
  /\ decode_scalar "codec_u32_be" [0x80; 0; 0; 0] = None.
Proof. repeat split; by vm_compute. Qed.

End IntegerRoundTrip.

(** ** Bit-field accessors *)
Section BitFields.

Lemma convert_testbit s w z k :
  0 <= k < w -> Z.testbit (Pdl.convert s w z) k = Z.testbit z k.
Proof.
  intros Hk. unfold Pdl.convert.
  destruct s; [by apply wrap_signed_testbit | by apply wrap_unsigned_testbit].
Qed.

Lemma ity_bits_ge t : 32 <= Pdl.ity_bits t.
Proof. destruct t; simpl; lia. Qed.

Lemma ity_wrap_testbit t z k :
  0 <= k < 32 -> Z.testbit (Pdl.ity_wrap t z) k = Z.testbit z k.
Proof.
  intros Hk. unfold Pdl.ity_wrap. apply convert_testbit.
  pose proof (ity_bits_ge t). lia.
Qed.

Lemma ity_wrap_small t z : 0 <= z < 2 ^ 31 -> Pdl.ity_wrap t z = z.
Proof.
  intros Hz. unfold Pdl.ity_wrap, Pdl.convert.
  destruct t; simpl.
  - apply wrap_signed_small; simpl; lia.
  - apply wrap_unsigned_small; lia.
  - apply wrap_signed_small; simpl; lia.
  - apply wrap_unsigned_small; lia.
Qed.

Lemma ones_bound n : 0 <= n <= 31 -> 0 <= Z.ones n < 2 ^ 31.
Proof.
  intros Hn. rewrite Z.ones_equiv.
  assert (0 < 2 ^ n) by (apply Z.pow_pos_nonneg; lia).
  assert (2 ^ n <= 2 ^ 31) by (apply Z.pow_le_mono_r; lia). lia.
Qed.

Lemma fits_small t z : 0 <= z < 2 ^ 31 -> Pdl.fits t z = true.
Proof. intros Hz. unfold Pdl.fits. rewrite ity_wrap_small by done. apply Z.eqb_refl. Qed.

Lemma c_shl_some a (n : nat) :
  (n <= 31)%nat -> 0 <= Z.shiftl (Pdl.val a) (Z.of_nat n) < 2 ^ 31 ->
  Pdl.c_shl a (Pdl.c_lit (Z.of_nat n))
  = Some (Pdl.mk_cint (Pdl.ty a)
            (Pdl.ity_wrap (Pdl.ty a) (Z.shiftl (Pdl.val a) (Z.of_nat n)))).
Proof.
  intros Hn Hr. unfold Pdl.c_shl, Pdl.c_lit. cbn [Pdl.val Pdl.ty].
  pose proof (ity_bits_ge (Pdl.ty a)).
  destruct (Z.leb_spec 0 (Z.of_nat n)); [|lia].
  destruct (Z.ltb_spec (Z.of_nat n) (Pdl.ity_bits (Pdl.ty a))); [|lia].
  cbn [andb]. rewrite (ity_wrap_small _ _ Hr).
  destruct (Pdl.ity_signed (Pdl.ty a)); [|done].
  assert (0 <= Pdl.val a) as Ha by (apply (Z.shiftl_nonneg _ (Z.of_nat n)); lia).
  destruct (Z.leb_spec 0 (Pdl.val a)); [|lia].
  by rewrite (fits_small _ _ Hr).
Qed.

Lemma mask_expr_ones (len : nat) :
  (len <= 30)%nat -> Pdl.mask_expr len = Some (Pdl.mk_cint Pdl.I32 (Z.ones (Z.of_nat len))).
Proof.
  intros Hlen. unfold Pdl.mask_expr.
  assert (0 <= Z.shiftl 1 (Z.of_nat len) < 2 ^ 31) as Hone.
  { apply (shiftl_bound 1 1 len); [lia|lia]. }
  rewrite c_shl_some by (done || lia). cbn [mbind option_bind].
  unfold Pdl.c_sub, Pdl.c_lit. cbn [Pdl.val Pdl.ty].
  change (Pdl.common Pdl.I32 Pdl.I32) with Pdl.I32.
  change (Pdl.ity_signed Pdl.I32) with true. cbv iota.
  rewrite !(ity_wrap_small _ _ Hone). rewrite (ity_wrap_small Pdl.I32 1) by lia.
  rewrite Z.shiftl_1_l, Z.sub_1_r, <- Z.ones_equiv.
  by rewrite fits_small by (apply ones_bound; lia).
Qed.

Lemma c_and_mask_bound a (len : nat) :
  (len <= 30)%nat ->
  0 <= Pdl.val (Pdl.c_and a (Pdl.mk_cint Pdl.I32 (Z.ones (Z.of_nat len))))
    < 2 ^ Z.of_nat len.
Proof.
  intros Hlen. unfold Pdl.c_and. cbn [Pdl.val Pdl.ty].
  rewrite (ity_wrap_small _ (Z.ones _)) by (apply ones_bound; lia).
  rewrite Z.land_ones by lia. apply Z.mod_pos_bound, Z.pow_pos_nonneg; lia.
Qed.

Lemma promote_val s w z : Pdl.val (Pdl.promote s w z) = z.
Proof. unfold Pdl.promote. by repeat case_match. Qed.

Lemma c_and_testbit a b m :
  0 <= m < 32 ->
  Z.testbit (Pdl.val (Pdl.c_and a b)) m
  = Z.testbit (Pdl.val a) m && Z.testbit (Pdl.val b) m.
Proof.
  intros Hm. unfold Pdl.c_and. simpl. by rewrite Z.land_spec, !ity_wrap_testbit.
Qed.

Lemma c_and_testbit_any a b m :
  Z.testbit (Pdl.val (Pdl.c_and a b)) m
  = Z.testbit (Pdl.ity_wrap (Pdl.common (Pdl.ty a) (Pdl.ty b)) (Pdl.val a)) m
    && Z.testbit (Pdl.ity_wrap (Pdl.common (Pdl.ty a) (Pdl.ty b)) (Pdl.val b)) m.
Proof. unfold Pdl.c_and. simpl. apply Z.land_spec. Qed.

Lemma ity_wrap_small_testbit_ones t (len : nat) k :
  (len <= 31)%nat -> 0 <= k < Z.of_nat len ->
  Z.testbit (Pdl.ity_wrap t (Z.ones (Z.of_nat len))) k = true.
Proof.
  intros Hl Hk. rewrite ity_wrap_small by (apply ones_bound; lia).
  rewrite Z.testbit_ones_nonneg by lia. apply Z.ltb_lt. lia.
Qed.

Lemma c_or_testbit a b m :
  0 <= m < 32 ->
  Z.testbit (Pdl.val (Pdl.c_or a b)) m
  = Z.testbit (Pdl.val a) m || Z.testbit (Pdl.val b) m.
Proof.
  intros Hm. unfold Pdl.c_or. simpl. by rewrite Z.lor_spec, !ity_wrap_testbit.
Qed.

Lemma c_not_testbit a m :
  0 <= m < 32 ->
  Z.testbit (Pdl.val (Pdl.c_not a)) m = negb (Z.testbit (Pdl.val a) m).
Proof.
  intros Hm. unfold Pdl.c_not. simpl.
  rewrite ity_wrap_testbit by done. apply Z.lnot_spec. lia.
Qed.

Lemma c_shr_some a (n : nat) :
  (n <= 31)%nat ->
  Pdl.c_shr a (Pdl.c_lit (Z.of_nat n))
  = Some (Pdl.mk_cint (Pdl.ty a) (Z.shiftr (Pdl.val a) (Z.of_nat n))).
Proof.
  intros Hn. unfold Pdl.c_shr, Pdl.c_lit. simpl.
  pose proof (ity_bits_ge (Pdl.ty a)).
  destruct (Z.leb_spec 0 (Z.of_nat n)); [|lia].
  destruct (Z.ltb_spec (Z.of_nat n) (Pdl.ity_bits (Pdl.ty a))); [done|lia].
Qed.

Lemma value_type (len : nat) :
  (len <= 31)%nat ->
  exists vw, Py.dict_find Pdl.int_types (Pdl.get_bit_field_type len) = Some (false, vw)
             /\ Z.of_nat len <= vw <= 32.
Proof.
  intros Hlen. unfold Pdl.get_bit_field_type.
  destruct (Nat.leb_spec len 8); [exists 8; split; [done|lia]|].
  destruct (Nat.leb_spec len 16); [exists 16; split; [done|lia]|].
  destruct (Nat.leb_spec len 32); [exists 32; split; [done|lia]|lia].
Qed.

Lemma setter_eq cs cw name info v msg c vw :
  (Pdl.length info <= 30)%nat ->
  (Pdl.start_bit info + Pdl.length info <= 31)%nat ->
  Py.dict_find Pdl.int_types (Pdl.get_bit_field_type (Pdl.length info)) = Some (false, vw) ->
  msg !! Pdl.container info = Some c ->
  Pdl.setter cs cw name info v msg
  = Some (<[name := Pdl.convert false vw v]>
            (<[Pdl.container info :=
                 Pdl.set_bits cs cw vw (Pdl.start_bit info) (Pdl.length info) v c]> msg)).
Proof.
  intros Hl Hs Hvt Hc. unfold Pdl.setter. rewrite Hvt. cbn [mbind option_bind].
  rewrite mask_expr_ones by done. cbn [mbind option_bind]. rewrite Hc.
  cbn [mbind option_bind].
  rewrite (c_shl_some (Pdl.mk_cint Pdl.I32 _)); [|lia|].
  2:{ cbn [Pdl.val]. apply (shiftl_bound _ (Pdl.length info)); [|lia].
      rewrite Z.ones_equiv.
      assert (0 < 2 ^ Z.of_nat (Pdl.length info)) by (apply Z.pow_pos_nonneg; lia). lia. }
  cbn [mbind option_bind].
  rewrite lookup_insert_eq. cbn [mbind option_bind].
  rewrite (c_shl_some (Pdl.c_and _ _)); [|lia|].
  2:{ apply (shiftl_bound _ (Pdl.length info)); [|lia]. by apply c_and_mask_bound. }
  cbn [mbind option_bind].
  rewrite insert_insert_eq. reflexivity.
Qed.

Lemma set_bits_testbit cs cw vw (start len : nat) v c m :
  (start <= 31)%nat -> (len <= 31)%nat -> Z.of_nat len <= vw ->
  0 <= m < 32 -> m < cw ->
  Z.testbit (Pdl.set_bits cs cw vw start len v c) m
  = if (Z.of_nat start <=? m) && (m <? Z.of_nat start + Z.of_nat len)
    then Z.testbit v (m - Z.of_nat start)
    else Z.testbit c m.
Proof.
  intros Hs Hl Hvw Hm Hcw. unfold Pdl.set_bits.
  rewrite convert_testbit by lia.
  rewrite c_or_testbit by lia. rewrite promote_val.
  rewrite convert_testbit by lia.
  rewrite c_and_testbit by lia. rewrite promote_val.
  rewrite c_not_testbit by lia. cbn [Pdl.val].
  rewrite !ity_wrap_testbit by lia.
  rewrite !Z.shiftl_spec by lia.
  rewrite c_and_testbit_any, promote_val. cbn [Pdl.val].
  destruct (Z.leb_spec (Z.of_nat start) m) as [Hge|Hlt]; cbn [andb].
  - rewrite Z.testbit_ones_nonneg by lia.
    destruct (Z.ltb_spec (m - Z.of_nat start) (Z.of_nat len)) as [Hin|Hout].
    + destruct (Z.ltb_spec m (Z.of_nat start + Z.of_nat len)); [|lia].
      cbn [negb]. rewrite andb_false_r. cbn [orb].
      rewrite ity_wrap_testbit by lia. rewrite ity_wrap_small_testbit_ones by lia.
      rewrite andb_true_r. apply convert_testbit. lia.
    + destruct (Z.ltb_spec m (Z.of_nat start + Z.of_nat len)); [lia|].
      cbn [negb]. rewrite andb_true_r.
      rewrite (ity_wrap_small _ (Z.ones _)) by (apply ones_bound; lia).
      rewrite Z.testbit_ones_nonneg by lia.
      destruct (Z.ltb_spec (m - Z.of_nat start) (Z.of_nat len)); [lia|].
      by rewrite andb_false_r, orb_false_r.
  - rewrite !(Z.testbit_neg_r _ (m - Z.of_nat start)) by lia.
    cbn [negb]. by rewrite andb_true_r, orb_false_r.
Qed.

Lemma getter_eq cs cw info msg c vw :
  (Pdl.start_bit info <= 31)%nat -> (Pdl.length info <= 30)%nat ->
  Py.dict_find Pdl.int_types (Pdl.get_bit_field_type (Pdl.length info)) = Some (false, vw) ->
  Z.of_nat (Pdl.length info) <= vw ->
  msg !! Pdl.container info = Some c ->
  Pdl.getter cs cw info msg
  = Some (Pdl.ity_wrap (Pdl.ty (Pdl.promote cs cw c))
                       (Z.shiftr c (Z.of_nat (Pdl.start_bit info)))
          mod 2 ^ Z.of_nat (Pdl.length info)).
Proof.
  intros Hs Hl Hvt Hvw Hc. unfold Pdl.getter. rewrite Hvt. cbn [mbind option_bind].
  rewrite Hc. cbn [mbind option_bind].
  rewrite mask_expr_ones by done. cbn [mbind option_bind].
  rewrite c_shr_some by done. cbn [mbind option_bind]. f_equal.
  unfold Pdl.c_and. cbn [Pdl.val Pdl.ty]. rewrite promote_val.
  pose proof (ones_bound (Z.of_nat (Pdl.length info)) ltac:(lia)) as Hb.
  assert (Pdl.common (Pdl.ty (Pdl.promote cs cw c)) Pdl.I32
          = Pdl.ty (Pdl.promote cs cw c)) as ->.
  { unfold Pdl.promote. by repeat case_match. }
  rewrite (ity_wrap_small _ (Z.ones _)) by done.
  rewrite Z.land_ones by lia.
  unfold Pdl.convert, CInt.wrap_unsigned.
  apply Z.mod_small.
  pose proof (Z.mod_pos_bound
                (Pdl.ity_wrap (Pdl.ty (Pdl.promote cs cw c))
                              (Z.shiftr c (Z.of_nat (Pdl.start_bit info))))
                (2 ^ Z.of_nat (Pdl.length info))
                ltac:(apply Z.pow_pos_nonneg; lia)).
  assert (2 ^ Z.of_nat (Pdl.length info) <= 2 ^ vw) by (apply Z.pow_le_mono_r; lia).
  lia.
Qed.

End BitFields.

(** ** Claims about the bit-field accessors *)
Section BitFieldClaims.

Lemma getter_reads_container cs cw info (msg1 msg2 : gmap string Z) :
  msg1 !! Pdl.container info = msg2 !! Pdl.container info ->
  Pdl.getter cs cw info msg1 = Pdl.getter cs cw info msg2.
Proof. intros H. unfold Pdl.getter. by rewrite H. Qed.

Lemma set_then_get cs cw name info v (msg : gmap string Z) c :
  name <> Pdl.container info ->
  (Pdl.length info <= 30)%nat ->
  (Pdl.start_bit info + Pdl.length info <= 31)%nat ->
  Z.of_nat (Pdl.start_bit info + Pdl.length info) <= cw ->
  msg !! Pdl.container info = Some c ->
  exists msg', Pdl.setter cs cw name info v msg = Some msg'
               /\ Pdl.getter cs cw info msg' = Some (v mod 2 ^ Z.of_nat (Pdl.length info)).
Proof.
  intros Hne Hl H31 Hcw Hc.
  destruct (value_type (Pdl.length info) ltac:(lia)) as (vw & Hvt & Hvw).
  eexists. split; [by apply (setter_eq _ _ _ _ _ _ c vw)|].
  erewrite getter_eq; [|lia|done|done|lia|].
  2:{ rewrite lookup_insert_ne by done. apply lookup_insert_eq. }
  f_equal. apply low_bits_mod; [lia|]. intros k Hk.
  rewrite ity_wrap_testbit by lia.
  rewrite Z.shiftr_spec by lia.
  rewrite set_bits_testbit by lia.
  destruct (Z.leb_spec (Z.of_nat (Pdl.start_bit info)) (k + Z.of_nat (Pdl.start_bit info)));
    [|lia].
  destruct (Z.ltb_spec (k + Z.of_nat (Pdl.start_bit info))
              (Z.of_nat (Pdl.start_bit info) + Z.of_nat (Pdl.length info))); [|lia].
  simpl. f_equal. lia.
Qed.

End BitFieldClaims.

(** ** Claims about the byte layouts *)
Section LayoutClaims.

Import StructCodec.

(** The four-byte vectors of the types swapped big-endian: the low word is
    emitted low byte first. *)
Lemma be_bs_vector_4 :
  encode_scalar "codec_u32_be_bs" 0x12345678 = Some [0x78; 0x56; 0x12; 0x34].
Proof. vm_compute. reflexivity. Qed.

(** The eight-byte plan of the same class reverses the order of the 16-bit
    words and keeps every word big-endian. *)
Lemma be_bs_vector_8 :
  encode_scalar "codec_u64_be_bs" 0x0102030405060708
  = Some [0x07; 0x08; 0x05; 0x06; 0x03; 0x04; 0x01; 0x02].
Proof. vm_compute. reflexivity. Qed.

Lemma le_bs_vector_8 :
  encode_scalar "codec_u64_le_bs" 0x0102030405060708
  = Some [0x07; 0x08; 0x05; 0x06; 0x03; 0x04; 0x01; 0x02].
Proof. vm_compute. reflexivity. Qed.

(** C1, as amended: for each of the bases u32, i32 and f32, the value
    0x12345678 encodes to 12 34 56 78 under codec_*_be, to 78 56 34 12 under
    codec_*_le and to 56 78 12 34 under codec_*_le_bs. *)
Theorem encode_vectors_4 base :
  In base ["u32"; "i32"; "f32"] ->
  encode_scalar ("codec_" ++ base ++ "_be") 0x12345678
  = Some [0x12; 0x34; 0x56; 0x78]
  /\ encode_scalar ("codec_" ++ base ++ "_le") 0x12345678
     = Some [0x78; 0x56; 0x34; 0x12]
  /\ encode_scalar ("codec_" ++ base ++ "_le_bs") 0x12345678
     = Some [0x56; 0x78; 0x12; 0x34].
Proof.
  intros Hin. simpl in Hin.
  destruct Hin as [<-|[<-|[<-|[]]]]; by vm_compute.
Qed.

Lemma encode_vectors_4_witness :
  encode_scalar "codec_u32_be" 0x12345678 = Some [0x12; 0x34; 0x56; 0x78]
  /\ encode_scalar "codec_u32_le" 0x12345678 = Some [0x78; 0x56; 0x34; 0x12]
  /\ encode_scalar "codec_u32_le_bs" 0x12345678 = Some [0x56; 0x78; 0x12; 0x34].
Proof. apply (encode_vectors_4 "u32"). simpl. by left. Defined.

(** C1 as stated fails: under codec_u32_le_bs the value 0x12345678 encodes to
    56 78 12 34, not to 34 12 78 56. *)
Lemma encode_vectors_4_counterexample :
  encode_scalar "codec_u32_le_bs" 0x12345678 = Some [0x56; 0x78; 0x12; 0x34]
  /\ encode_scalar "codec_u32_le_bs" 0x12345678 <> Some [0x34; 0x12; 0x78; 0x56].
Proof. split; [by vm_compute|]. vm_compute. discriminate. Qed.

(** C2: the plans of codec_f32_be are not inverses.  The four bytes of 1.0f
    decode to the float 1065353216.0 (pattern 0x4E7E0000), which encodes to
    other bytes; and the pattern of 1.0f does not survive encoding followed by
    decoding. *)
Theorem float_round_trip_fails :
  decode_scalar "codec_f32_be" [0x3F; 0x80; 0x00; 0x00] = Some 0x4E7E0000
  /\ encode_scalar "codec_f32_be" 0x4E7E0000 = Some [0x4E; 0x7E; 0x00; 0x00]
  /\ encode_scalar "codec_f32_be" 0x3F800000 = Some [0x3F; 0x80; 0x00; 0x00]
  /\ decode_scalar "codec_f32_be" [0x3F; 0x80; 0x00; 0x00] <> Some 0x3F800000.
Proof.
  split; [by vm_compute|]. split; [by vm_compute|]. split; [by vm_compute|].
  vm_compute. discriminate.
Qed.

(** The decode line of a floating type assigns the integer to the float
    variable, which converts its value; the union that follows reads the
    variable back and changes nothing. *)
Lemma float_decode_plan ft t n bytes :
  In (ft, t, n) [ ("codec_f32_be", float_t, 4%nat); ("codec_f32_be_bs", float_t, 4%nat);
                  ("codec_f32_le", float_t, 4%nat); ("codec_f32_le_bs", float_t, 4%nat);
                  ("codec_f64_be", double_t, 8%nat); ("codec_f64_be_bs", double_t, 8%nat);
                  ("codec_f64_le", double_t, 8%nat); ("codec_f64_le_bs", double_t, 8%nat) ] ->
  List.length bytes = n ->
  shifts_defined ft bytes = true ->
  exists c L,
    get_decode_code ft (LField "x")
    = [SDeclBytes n; SFetch n; SAssignOr (LField "x") c L;
       SUnionLoadI (LField "x") (int_width t); SAssignUnionF (LField "x"); SAdvance n]
    /\ decode_scalar ft bytes = Some (assign_from_int t (or_terms c bytes L)).
Proof.
  intros Hin. simpl in Hin.
  repeat (destruct Hin as [Hin|Hin];
          [inversion Hin; subst ft t n; clear Hin; intros Hlen Hdef;
           unfold shifts_defined in Hdef;
           match goal with
           | |- exists c L, get_decode_code ?ft _ = _ /\ _ =>
               let code := eval vm_compute in (get_decode_code ft (LField "x")) in
               match code with
               | [_; _; SAssignOr _ ?c ?L; _; _; _] =>
                   exists c, L; split; [by vm_compute|];
                   unfold decode_scalar;
                   change (get_decode_code ft (LField "x")) with code in Hdef |- *;
                   assert (forallb (or_term_defined c bytes) L = true) as Hdef'
                     by (cbn [forallb andb] in Hdef; rewrite andb_true_r in Hdef;
                         exact Hdef);
                   clear Hdef
               end
           end|]); try destruct Hin.
  all: match goal with
       | |- context [Py.dict_find codec_types ?ft] =>
           let t := eval vm_compute in (Py.dict_find codec_types ft) in
           change (Py.dict_find codec_types ft) with t
       end.
  all: cbn [exec_code exec_stmt st_buf st_offset st_bytes st_obj st_u].
  all: pose proof (fetch_loop_all bytes) as Hfetch; rewrite Hlen in Hfetch;
       rewrite Hfetch.
  all: cbn [exec_code exec_stmt st_buf st_offset st_bytes st_obj st_u].
  all: rewrite Hdef'.
  all: cbn [exec_code exec_stmt set_var st_buf st_offset st_bytes st_obj st_u lv_path
            int_width].
  all: by rewrite !obj_get_insert.
Qed.

(** C3: decoding a float or a double converts the integer numerically.  The
    bytes 00 00 00 01 decode under codec_f32_be to the float 1.0 (pattern
    0x3F800000) and not to the float of pattern 0x00000001; likewise for
    codec_f64_be. *)
Theorem float_decode_converts :
  decode_scalar "codec_f32_be" [0; 0; 0; 1] = Some (Ieee.float_of_Z 1)
  /\ Ieee.float_of_Z 1 = 0x3F800000
  /\ decode_scalar "codec_f64_be" [0; 0; 0; 0; 0; 0; 0; 1] = Some (Ieee.double_of_Z 1)
  /\ Ieee.double_of_Z 1 = 0x3FF0000000000000.
Proof. repeat split; by vm_compute. Qed.

Lemma exec_set_bytes_union t (L : list (nat * nat)) rest o bytes u off buf :
  exec_code t 0 (map (fun t => SSetByte t.1 OUnionI t.2) L ++ rest)
            (mk_cstate o bytes u off buf)
  = exec_code t 0 rest
      (mk_cstate o
         (fold_left
            (fun bytes t => <[t.1 := Z.land (Z.shiftr u (Z.of_nat t.2)) 255]> bytes)
            L bytes) u off buf).
Proof.
  revert bytes. induction L as [|t0 L IH]; intros bytes; [done|].
  cbn [map app exec_code exec_stmt fold_left st_obj st_bytes st_u st_offset st_buf].
  apply IH.
Qed.

Lemma encode_scalar_float_shape ft t n L v :
  Py.dict_find codec_types ft = Some t -> is_integer t = false ->
  Py.dict_get type_sizes ft 0%nat = n ->
  get_encode_code ft (LField "x")
  = ([SDeclBytes n; SUnionStoreF (LField "x") (int_width t)]
     ++ map (fun t => SSetByte t.1 OUnionI t.2) L ++ [SStore n; SAdvance n])%list ->
  encode_scalar ft v = Some (encode_bytes n L v).
Proof.
  intros Ht Hfl Hn Hcode. unfold encode_scalar. rewrite Ht, Hcode, Hn.
  cbn [app exec_code].
  assert (exec_stmt t 0 (SDeclBytes n)
            (mk_cstate {[ [("x", 0%nat)] := v ]} [] 0 0 (replicate n 0))
          = Next (mk_cstate {[ [("x", 0%nat)] := v ]} (replicate n 0) 0 0 (replicate n 0)))
    as -> by done.
  assert (exec_stmt t 0 (SUnionStoreF (LField "x") (int_width t))
            (mk_cstate {[ [("x", 0%nat)] := v ]} (replicate n 0) 0 0 (replicate n 0))
          = Next (mk_cstate {[ [("x", 0%nat)] := v ]} (replicate n 0) v 0 (replicate n 0)))
    as ->.
  { destruct t; try discriminate Hfl;
      cbn [exec_stmt int_width st_obj st_bytes st_u st_offset st_buf lv_path];
      unfold obj_get; by rewrite lookup_singleton_eq. }
  rewrite exec_set_bytes_union.
  cbn [exec_code exec_stmt st_buf st_offset st_bytes st_obj st_u].
  fold (encode_bytes n L v).
  rewrite store_loop_inv;
    [done|by rewrite encode_bytes_length|
     by rewrite encode_bytes_length, length_replicate|done].
Qed.

(** Encoding a floating type, by contrast, goes through the union: the bytes
    stored are those of the bit pattern, in the layout of the type. *)
Lemma float_encode_plan ft t n v :
  In (ft, t, n) [ ("codec_f32_be", float_t, 4%nat); ("codec_f32_be_bs", float_t, 4%nat);
                  ("codec_f32_le", float_t, 4%nat); ("codec_f32_le_bs", float_t, 4%nat);
                  ("codec_f64_be", double_t, 8%nat); ("codec_f64_be_bs", double_t, 8%nat);
                  ("codec_f64_le", double_t, 8%nat); ("codec_f64_le_bs", double_t, 8%nat) ] ->
  exists L,
    layout_ok n L = true /\ encode_scalar ft v = Some (encode_bytes n L v).
Proof.
  intros Hin. simpl in Hin.
  repeat (destruct Hin as [Hin|Hin];
          [inversion Hin; subst ft t n; clear Hin;
           match goal with
           | |- exists L, _ /\ encode_scalar ?ft _ = _ =>
               let code := eval vm_compute in (get_decode_code ft (LField "x")) in
               match code with
               | [_; _; SAssignOr _ _ ?L; _; _; _] =>
                   exists L; split; [by vm_compute|];
                   eapply encode_scalar_float_shape;
                   [by vm_compute | done | by vm_compute | by vm_compute]
               end
           end|]).
  destruct Hin.
Qed.

End LayoutClaims.

(** ** Claims about the emitted record decode *)
Section RecordDecode.

Import StructCodec.

(** C4: on a one-byte input, the decode function of [three_bytes] fails on its
    second field with CODEC_ERR_OUT_OF_BOUNDS and leaves the output unset,
    but the block it allocated for the record is still live on return: no
    dispose and no free has run. *)
Theorem scalar_failure_leaks array_len hook_decode :
  exists r,
    decode_fn [three_bytes] array_len hook_decode 2 "rec" true true (Some [7])
              (init_mstate 1) = Some r
    /\ r_err r = CODEC_ERR_OUT_OF_BOUNDS
    /\ r_value r = None
    /\ m_live (r_state r) !! 0%nat = Some {[ [("a", 0%nat)] := 7 ]}
    /\ m_trace (r_state r) = [].
Proof. eexists. split; [by vm_compute|]. repeat split. Qed.

(** The sibling path: when the decode of a pointer field fails, the emitted
    code disposes of the record first; the block is released, the error is
    forwarded and the output is unset. *)
Lemma pointer_failure_releases array_len hook_decode input b e :
  hook_decode "rec" "p" (b :: input) = e -> is_ok e = false ->
  exists r,
    decode_fn [with_pointer] array_len hook_decode 2 "rec" true true (Some (b :: input))
              (init_mstate 1) = Some r
    /\ r_err r = e
    /\ r_value r = None
    /\ m_live (r_state r) = ∅
    /\ m_trace (r_state r)
       = [EvHookDecode "rec" "p" (PBlock 0); EvHookDispose "rec" "p" (PBlock 0); EvFree 0].
Proof.
  intros He Hok. eexists. split.
  - cbn. rewrite He, Hok. cbn. reflexivity.
  - by repeat split.
Qed.

End RecordDecode.

(** ** Claims about the PDL generator *)
Section PdlClaims.

Lemma process_loop_messages defs ms cs n :
  (Pdl.process_loop defs ms cs n).1.1
  = (ms ++ imap (fun k defn => Pdl.generate_message (n + k) defn)
                (List.filter Pdl.is_message defs))%list.
Proof.
  revert ms cs n. induction defs as [|defn defs IH]; intros ms cs n; simpl.
  - by rewrite app_nil_r.
  - unfold Pdl.is_message at 1.
    destruct (String.eqb (Pdl.def_type defn) "message") eqn:Hm.
    + rewrite IH. rewrite <- app_assoc. simpl. f_equal.
      rewrite Nat.add_0_r. f_equal.
      apply imap_ext. intros k d _. simpl. f_equal. lia.
    + destruct (String.eqb (Pdl.def_type defn) "constant"); apply IH.
Qed.

Lemma process_messages ns defs :
  Pdl.messages (Pdl.process ns defs)
  = imap (fun k defn => Pdl.generate_message (S k) defn) (List.filter Pdl.is_message defs).
Proof.
  unfold Pdl.process.
  pose proof (process_loop_messages defs [] [] 1) as H.
  destruct (Pdl.process_loop defs [] [] 1) as [[ms cs] n]. simpl in *.
  by subst.
Qed.

(** C9: the k-th message definition of the unit, in source order and counting
    from 1, becomes the k-th generated message and carries the ordinal k;
    the enumeration of the header lists them in that order. *)
Theorem message_ordinals ns defs filename :
  map (fun m => (Pdl.gm_name m, Pdl.message_type_id m))
      (Pdl.messages (Pdl.process ns defs))
  = imap (fun k defn => (Pdl.def_name defn, S k)) (List.filter Pdl.is_message defs)
  /\ exists before after,
       Pdl.generate_header_lines ns (Pdl.process ns defs) filename
       = (before
          ++ imap (fun k defn => "    " ++ Py.upper (Pdl.def_name defn)
                                 ++ "_MESSAGE_TYPE = " ++ pretty (S k) ++ ",")%string
                  (List.filter Pdl.is_message defs)
          ++ after)%list.
Proof.
  rewrite process_messages. split.
  - generalize (List.filter Pdl.is_message defs) as l. intros l.
    change (map ?f (imap ?g l)) with (f <$> imap g l). rewrite fmap_imap.
    by apply imap_ext.
  - unfold Pdl.generate_header_lines. rewrite process_messages.
    eexists _, _. apply (f_equal2 app); [reflexivity|].
    apply (f_equal2 app); [|reflexivity].
    generalize (List.filter Pdl.is_message defs) as l. intros l.
    change (map ?f (imap ?g l)) with (f <$> imap g l). rewrite fmap_imap.
    by apply imap_ext.
Qed.

Lemma message_generated ns defs defn :
  In defn defs -> Pdl.def_type defn = "message" ->
  exists k, In (Pdl.generate_message k defn) (Pdl.messages (Pdl.process ns defs)).
Proof.
  intros Hin Hm. rewrite process_messages.
  assert (In defn (List.filter Pdl.is_message defs)) as Hf.
  { apply filter_In. split; [done|]. unfold Pdl.is_message. rewrite Hm. done. }
  apply list_elem_of_In, list_elem_of_lookup in Hf as [k Hk].
  exists (S k). apply list_elem_of_In, list_elem_of_lookup. exists k.
  by rewrite list_lookup_imap, Hk.
Qed.

Lemma generated_field_in k defn fields fd gf :
  Pdl.attributes defn = Pdl.TMessage fields -> In fd fields ->
  Pdl.generate_field fd = Some gf ->
  In gf (Pdl.gm_fields (Pdl.generate_message k defn)).
Proof.
  intros Ha Hin Hg. unfold Pdl.generate_message. rewrite Ha. simpl.
  apply list_elem_of_In, list_elem_of_omap. exists fd.
  split; [by apply list_elem_of_In|done].
Qed.

Lemma header_has_message_lines ns data filename message line :
  In message (Pdl.messages data) -> In line (Pdl.message_lines message) ->
  In line (Pdl.generate_header_lines ns data filename).
Proof.
  intros Hm Hl. unfold Pdl.generate_header_lines.
  rewrite !in_app_iff. right. right. right. right. left.
  apply in_concat. exists (Pdl.message_lines message). split; [|done].
  by apply in_map.
Qed.

Lemma message_has_member_line message field :
  In field (Pdl.gm_fields message) ->
  In ("    " ++ Pdl.c_type field ++ " " ++ Pdl.gf_name field ++ ";")
     (Pdl.message_lines message).
Proof.
  intros Hf. unfold Pdl.message_lines. rewrite !in_app_iff.
  right. left.
  apply (in_map (fun field => "    " ++ Pdl.c_type field ++ " " ++ Pdl.gf_name field ++ ";")).
  done.
Qed.

Lemma message_has_accessor_lines message field line :
  In field (Pdl.gm_fields message) -> Pdl.is_bit_field field = true ->
  In line (Pdl.bit_field_accessor_lines message field) ->
  In line (Pdl.message_lines message).
Proof.
  intros Hf Hb Hl. unfold Pdl.message_lines. rewrite !in_app_iff.
  right. right. right. right.
  assert (In field (List.filter Pdl.is_bit_field (Pdl.gm_fields message))) as Hin
    by (by apply filter_In).
  destruct (List.filter Pdl.is_bit_field (Pdl.gm_fields message)) as [|f0 fs] eqn:Hfs;
    [destruct Hin|].
  rewrite in_app_iff. right. apply in_concat.
  exists (Pdl.bit_field_accessor_lines message field). split; [|done].
  by apply in_map.
Qed.

Lemma dict_get_not_found {A} (d : list (string * A)) k x :
  Py.dict_find d k = None -> Py.dict_get d k x = x.
Proof.
  induction d as [|[k' v] d IH]; simpl; [done|].
  destruct (String.eqb k k'); [discriminate|done].
Qed.

(** Behind the parser no reference is checked either: given definitions in
    which a message field's type reference names no definition, [process]
    and [generate_header] raise nothing.  The field is generated with the C
    type [get_c_type] gives the name -- the name followed by _t unless it is
    one of the ten base types -- and the header declares the member with
    it. *)
Theorem unknown_type_ref_emitted ns filename defs defn fields name ref :
  In defn defs -> Pdl.def_type defn = "message" ->
  Pdl.attributes defn = Pdl.TMessage fields ->
  In (Pdl.FTypeRef name ref) fields ->
  ~ In ref (map Pdl.def_name defs) ->
  (Py.dict_find Pdl.type_map ref = None -> Pdl.get_c_type ref = ref ++ "_t")
  /\ exists message,
       In message (Pdl.messages (Pdl.process ns defs))
       /\ Pdl.gm_name message = Pdl.def_name defn
       /\ In (Pdl.mk_GeneratedField name (Pdl.get_c_type ref) false false None)
             (Pdl.gm_fields message)
       /\ In ("    " ++ Pdl.get_c_type ref ++ " " ++ name ++ ";")
             (Pdl.generate_header_lines ns (Pdl.process ns defs) filename).
Proof.
  intros Hin Hm Ha Hf _. split.
  { intros Hnone. unfold Pdl.get_c_type. by apply dict_get_not_found. }
  destruct (message_generated ns defs defn Hin Hm) as [k Hk].
  exists (Pdl.generate_message k defn).
  assert (In (Pdl.mk_GeneratedField name (Pdl.get_c_type ref) false false None)
             (Pdl.gm_fields (Pdl.generate_message k defn))) as Hgf
    by (by eapply generated_field_in).
  repeat split; [done|done|].
  eapply header_has_message_lines; [done|].
  apply (message_has_member_line _ _ Hgf).
Qed.

(** Behind the parser no range check is made on a bit-field either: whatever
    its start bit and length, [process] generates the bit-field of a message
    with its source copied, and the header [generate_header] returns contains
    its accessor pair. *)
Theorem bit_field_emitted_unchecked ns filename defs defn fields name source :
  In defn defs -> Pdl.def_type defn = "message" ->
  Pdl.attributes defn = Pdl.TMessage fields ->
  In (Pdl.FBitField name source) fields ->
  exists message field,
    In message (Pdl.messages (Pdl.process ns defs))
    /\ In field (Pdl.gm_fields message)
    /\ Pdl.gf_name field = name
    /\ Pdl.bit_field_info field = Some source
    /\ Pdl.bit_field_accessor_lines message field <> []
    /\ forall line, In line (Pdl.bit_field_accessor_lines message field) ->
                    In line (Pdl.generate_header_lines ns (Pdl.process ns defs) filename).
Proof.
  intros Hin Hm Ha Hf.
  destruct (message_generated ns defs defn Hin Hm) as [k Hk].
  exists (Pdl.generate_message k defn).
  set (field := Pdl.mk_GeneratedField name
                  (Pdl.get_bit_field_type (Pdl.length source)) false true (Some source)).
  assert (In field (Pdl.gm_fields (Pdl.generate_message k defn))) as Hgf
    by (by eapply generated_field_in).
  exists field. split; [done|]. split; [done|]. split; [done|]. split; [done|].
  split; [done|].
  intros line Hl. eapply header_has_message_lines; [done|].
  by eapply message_has_accessor_lines.
Qed.

End PdlClaims.

(** ** Claims about the field parser *)
Section Parser.

Import StructCodec.

Lemma split_no_sep sep s : Py.has_char sep s = false -> Py.split sep s = [s].
Proof.
  induction s as [|c s IH]; simpl; [done|].
  intros H. apply orb_false_iff in H as [Hc Hs].
  rewrite Hc, IH by done. done.
Qed.

Lemma split_not_nil sep s : Py.split sep s <> [].
Proof.
  destruct s as [|c s]; simpl; [done|].
  destruct (Ascii.eqb c sep); [done|]. by destruct (Py.split sep s).
Qed.

Lemma split_app_sep sep body seg :
  Py.has_char sep seg = false ->
  Py.split sep (body ++ String sep seg) = (Py.split sep body ++ [seg])%list.
Proof.
  intros Hseg. induction body as [|c body IH]; simpl.
  - rewrite Ascii.eqb_refl. by rewrite split_no_sep.
  - destruct (Ascii.eqb c sep); [by rewrite IH|].
    rewrite IH. pose proof (split_not_nil sep body).
    by destruct (Py.split sep body).
Qed.

Lemma lstrip_head s :
  Py.lstrip s = EmptyString
  \/ exists c r, Py.lstrip s = String c r /\ Py.is_space c = false.
Proof.
  induction s as [|c s IH]; simpl; [by left|].
  destruct (Py.is_space c) eqn:Hc; [done|]. right. eauto.
Qed.

Lemma rstrip_head c r :
  Py.is_space c = false -> exists r', Py.rstrip (String c r) = String c r'.
Proof.
  intros Hc. simpl. destruct (Py.rstrip r); [rewrite Hc|]; eauto.
Qed.

Lemma rstrip_idemp s : Py.rstrip (Py.rstrip s) = Py.rstrip s.
Proof.
  induction s as [|c s IH]; simpl; [done|].
  destruct (Py.rstrip s) as [|c' r'] eqn:Hr.
  - destruct (Py.is_space c) eqn:Hc; simpl; [done|]. by rewrite Hc.
  - change (Py.rstrip (String c (String c' r'))) with
      (match Py.rstrip (String c' r') with
       | EmptyString => if Py.is_space c then EmptyString else String c EmptyString
       | rest' => String c rest'
       end).
    by rewrite IH.
Qed.

Lemma strip_idemp s : Py.strip (Py.strip s) = Py.strip s.
Proof.
  unfold Py.strip. destruct (lstrip_head s) as [->|(c & r & -> & Hc)]; [done|].
  destruct (rstrip_head c r Hc) as [r' Hr]. rewrite Hr.
  simpl Py.lstrip. rewrite Hc. rewrite <- Hr. apply rstrip_idemp.
Qed.

Lemma no_match line : unmatched line -> Regex.re_match field_pattern line = None.
Proof.
  unfold unmatched, Regex.re_match, field_pattern.
  destruct line as [|c rest]; intros H.
  - reflexivity.
  - cbn [Regex.match_re Regex.word_at Regex.next_char]. rewrite H. reflexivity.
Qed.

Lemma parse_field_line_strip line :
  unmatched (Py.strip line) -> parse_field_line (Py.strip line) = None.
Proof.
  intros H. unfold parse_field_line. rewrite strip_idemp. by rewrite no_match.
Qed.

(** The text of a struct with three one-byte members parses to the fields of
    [three_bytes]. *)
Lemma three_bytes_parsed :
  parse_struct_fields " codec_u8 a; codec_u8 b; codec_u8 c; " = fields three_bytes.
Proof. by vm_compute. Qed.

(** A member of struct type is read as a member of type struct named after
    the struct: the first alternative of the pattern wins. *)
Lemma struct_member_parsed :
  parse_struct_fields "struct inner x;" = [ mk_Field "struct" "inner" None false ].
Proof. by vm_compute. Qed.

End Parser.

(** ** The claims on concrete units, and the bit-field claims *)
Section Settled.

Lemma unknown_type_ref_emitted_witness :
  (Py.dict_find Pdl.type_map "nosuch" = None -> Pdl.get_c_type "nosuch" = "nosuch" ++ "_t")
  /\ exists message,
       In message (Pdl.messages (Pdl.process "ns" Pdl.example_unit))
       /\ Pdl.gm_name message = "hdr"
       /\ In (Pdl.mk_GeneratedField "x" (Pdl.get_c_type "nosuch") false false None)
             (Pdl.gm_fields message)
       /\ In ("    " ++ Pdl.get_c_type "nosuch" ++ " " ++ "x" ++ ";") Pdl.example_header.
Proof.
  apply (unknown_type_ref_emitted "ns" "file" Pdl.example_unit
           (Pdl.definition "hdr" (Pdl.TMessage Pdl.example_fields)) Pdl.example_fields
           "x" "nosuch").
  - simpl. auto.
  - reflexivity.
  - reflexivity.
  - simpl. auto.
  - simpl. intros [H|[H|[H|[H|[]]]]]; discriminate H.
Defined.

(** On the definitions of the unit above, which refer to the undefined type
    nosuch, [process] generates the message with its ordinal and the header
    declares the member. *)
Lemma unknown_type_counterexample :
  ~ In "nosuch" (map Pdl.def_name Pdl.example_unit)
  /\ map (fun m => (Pdl.gm_name m, Pdl.message_type_id m))
         (Pdl.messages (Pdl.process "ns" Pdl.example_unit))
     = [("hdr", 1%nat); ("ack", 2%nat)]
  /\ Py.in_list "    nosuch_t x;" Pdl.example_header = true
  /\ Pdl.compile_unit "ns" "file" Pdl.example_unit = Py.join_lines Pdl.example_header.
Proof.
  split; [|split; [by vm_compute|split; [by vm_compute|reflexivity]]].
  simpl. intros [H|[H|[H|[H|[]]]]]; discriminate H.
Qed.

Lemma bit_field_emitted_unchecked_witness :
  exists message field,
    In message (Pdl.messages (Pdl.process "ns" Pdl.example_unit))
    /\ In field (Pdl.gm_fields message)
    /\ Pdl.gf_name field = "f"
    /\ Pdl.bit_field_info field = Some (Pdl.mk_bit_source "flags" 6 3)
    /\ Pdl.bit_field_accessor_lines message field <> []
    /\ forall line, In line (Pdl.bit_field_accessor_lines message field) ->
                    In line Pdl.example_header.
Proof.
  apply (bit_field_emitted_unchecked "ns" "file" Pdl.example_unit
           (Pdl.definition "hdr" (Pdl.TMessage Pdl.example_fields)) Pdl.example_fields
           "f" (Pdl.mk_bit_source "flags" 6 3)).
  - simpl. auto.
  - reflexivity.
  - reflexivity.
  - simpl. auto.
Defined.

(** The bit-field f of the unit above takes three bits from bit 6 of a member
    of eight bits; on these definitions the header holds its getter and its
    setter. *)
Lemma bit_field_range_counterexample :
  (exists message,
      In message (Pdl.messages (Pdl.process "ns" Pdl.example_unit))
      /\ Pdl.member_int_type message "flags" = Some (false, 8))
  /\ 8 < 6 + 3
  /\ Py.in_list "    return (msg->flags >> 6) & ((1 << 3) - 1);" Pdl.example_header = true
  /\ Py.in_list "    msg->flags |= (value & ((1 << 3) - 1)) << 6;" Pdl.example_header = true.
Proof.
  split; [|split; [lia|split; by vm_compute]].
  eexists. split; [vm_compute; left; reflexivity|]. by vm_compute.
Qed.


(** C5, as amended: for a bit-field kept in another member, of at most 30
    bits and ending within the container and within the low 31 bits, setting
    and then getting returns the low [length] bits of the value, whatever the
    container held.  In a container of eight bits with start bit 2 and
    length 3, setting 7 leaves 0b00011100 in the container and setting 9
    reads back as 1. *)
Theorem bit_field_set_get :
  (forall cs cw name info v (msg : gmap string Z) c,
      name <> Pdl.container info ->
      (Pdl.length info <= 30)%nat ->
      (Pdl.start_bit info + Pdl.length info <= 31)%nat ->
      Z.of_nat (Pdl.start_bit info + Pdl.length info) <= cw ->
      msg !! Pdl.container info = Some c ->
      exists msg',
        Pdl.setter cs cw name info v msg = Some msg'
        /\ Pdl.getter cs cw info msg' = Some (v mod 2 ^ Z.of_nat (Pdl.length info)))
  /\ Pdl.setter false 8 "f" Pdl.flags_2_3 7 {[ "flags" := 0 ]}
     = Some {[ "flags" := 28; "f" := 7 ]}
  /\ (Pdl.setter false 8 "f" Pdl.flags_2_3 9 {[ "flags" := 0 ]}
        ≫= Pdl.getter false 8 Pdl.flags_2_3) = Some 1.
Proof.
  split; [|split; by vm_compute].
  intros cs cw name info v msg c Hne Hl H31 Hcw Hc.
  by apply (set_then_get cs cw name info v msg c).
Qed.

Lemma bit_field_set_get_witness :
  exists msg',
    Pdl.setter false 8 "f" Pdl.flags_2_3 9 {[ "flags" := 255 ]} = Some msg'
    /\ Pdl.getter false 8 Pdl.flags_2_3 msg' = Some (9 mod 2 ^ Z.of_nat 3).
Proof.
  apply (proj1 bit_field_set_get false 8 "f" Pdl.flags_2_3 9 {[ "flags" := 255 ]} 255).
  - discriminate.
  - simpl. lia.
  - simpl. lia.
  - simpl. lia.
  - reflexivity.
Defined.

(** C5 as stated fails: with start bit 6 and length 3 in a container of eight
    bits, setting 7 reads back as 3.  And a field that does lie within its
    container, four bits from bit 40 of a container of 64 bits, has a setter
    that shifts a 32-bit int by 40 places, which has no value. *)
Lemma bit_field_set_get_counterexample :
  (Pdl.setter false 8 "f" Pdl.flags_6_3 7 {[ "flags" := 0 ]}
     ≫= Pdl.getter false 8 Pdl.flags_6_3) = Some 3
  /\ 3 <> 7 mod 2 ^ 3
  /\ Pdl.setter false 64 "f" Pdl.flags_40_4 5 {[ "flags" := 0 ]} = None.
Proof. split; [by vm_compute|]. split; by vm_compute. Qed.

(** C10, as amended: for a bit-field kept in another member, of at most 30
    bits and ending within the low 31 bits, the setter changes the container
    and the member named after the bit-field and nothing else; that member
    receives the value unmasked; the getter depends on the container alone;
    and whenever the value has a bit set at or above [length], the getter
    returns something below 2^length, hence not the cached value.  When the
    field ends within the container, what the getter returns is the value
    masked. *)
Theorem setter_caches_unmasked cs cw name info v (msg : gmap string Z) c vw :
  name <> Pdl.container info ->
  (Pdl.length info <= 30)%nat ->
  (Pdl.start_bit info + Pdl.length info <= 31)%nat ->
  Py.dict_find Pdl.int_types (Pdl.get_bit_field_type (Pdl.length info)) = Some (false, vw) ->
  0 <= v < 2 ^ vw ->
  msg !! Pdl.container info = Some c ->
  exists msg' c',
    Pdl.setter cs cw name info v msg = Some msg'
    /\ msg' !! name = Some v
    /\ msg' !! Pdl.container info = Some c'
    /\ (forall k, k <> name -> k <> Pdl.container info -> msg' !! k = msg !! k)
    /\ (forall other : gmap string Z,
           other !! Pdl.container info = Some c' ->
           Pdl.getter cs cw info other = Pdl.getter cs cw info msg')
    /\ (2 ^ Z.of_nat (Pdl.length info) <= v ->
        exists g, Pdl.getter cs cw info msg' = Some g
                  /\ 0 <= g < 2 ^ Z.of_nat (Pdl.length info) /\ g <> v)
    /\ (Z.of_nat (Pdl.start_bit info + Pdl.length info) <= cw ->
        Pdl.getter cs cw info msg' = Some (v mod 2 ^ Z.of_nat (Pdl.length info))).
Proof.
  intros Hne Hl H31 Hvt Hv Hc.
  pose proof (setter_eq cs cw name info v msg c vw Hl H31 Hvt Hc) as Hset.
  assert (Pdl.convert false vw v = v) as Hconv
    by (unfold Pdl.convert; by apply wrap_unsigned_small).
  rewrite Hconv in Hset.
  destruct (value_type (Pdl.length info) ltac:(lia)) as (vw' & Hvt' & Hvw).
  assert (vw' = vw) as -> by congruence.
  assert (Pdl.start_bit info <= 31)%nat as Hs by lia.
  set (c' := Pdl.set_bits cs cw vw (Pdl.start_bit info) (Pdl.length info) v c) in *.
  set (msg' := <[name := v]> (<[Pdl.container info := c']> msg)) in *.
  assert (msg' !! Pdl.container info = Some c') as Hc'.
  { unfold msg'. rewrite lookup_insert_ne by done. apply lookup_insert_eq. }
  exists msg', c'. split; [done|]. split; [apply lookup_insert_eq|]. split; [done|].
  split.
  { intros k Hk1 Hk2. unfold msg'. by rewrite !lookup_insert_ne. }
  split.
  { intros other Ho. apply getter_reads_container. by rewrite Ho, Hc'. }
  split.
  - intros Hbig. eexists.
    split; [apply (getter_eq cs cw info msg' c' vw Hs Hl Hvt (proj1 Hvw) Hc')|].
    match goal with |- 0 <= ?x mod ?m < _ /\ _ =>
      pose proof (Z.mod_pos_bound x m ltac:(apply Z.pow_pos_nonneg; lia)) end.
    split; [done|lia].
  - intros Hcw.
    destruct (set_then_get cs cw name info v msg c Hne Hl H31 Hcw Hc)
      as (msg'' & Hset' & Hget).
    rewrite Hset in Hset'. by inversion Hset'; subst.
Qed.

Lemma setter_caches_unmasked_witness :
  exists msg' c',
    Pdl.setter false 8 "f" Pdl.flags_2_3 9 {[ "flags" := 0; "other" := 5 ]} = Some msg'
    /\ msg' !! "f" = Some 9
    /\ msg' !! "flags" = Some c'
    /\ (forall k, k <> "f" -> k <> "flags" ->
                  msg' !! k = ({[ "flags" := 0; "other" := 5 ]} : gmap string Z) !! k)
    /\ (forall other : gmap string Z,
           other !! "flags" = Some c' ->
           Pdl.getter false 8 Pdl.flags_2_3 other = Pdl.getter false 8 Pdl.flags_2_3 msg')
    /\ (2 ^ Z.of_nat 3 <= 9 ->
        exists g, Pdl.getter false 8 Pdl.flags_2_3 msg' = Some g
                  /\ 0 <= g < 2 ^ Z.of_nat 3 /\ g <> 9)
    /\ (Z.of_nat (2 + 3) <= 8 ->
        Pdl.getter false 8 Pdl.flags_2_3 msg' = Some (9 mod 2 ^ Z.of_nat 3)).
Proof.
  apply (setter_caches_unmasked false 8 "f" Pdl.flags_2_3 9
           {[ "flags" := 0; "other" := 5 ]} 0 8).
  - discriminate.
  - simpl. lia.
  - simpl. lia.
  - reflexivity.
  - lia.
  - reflexivity.
Defined.

(** C10 as stated fails: with start bit 6 and length 3 in a container of
    eight bits, after setting 15 the cached member holds 15 and the getter
    returns 3, which is not 15 masked to three bits. *)
Lemma setter_caches_unmasked_counterexample :
  exists msg',
    Pdl.setter false 8 "f" Pdl.flags_6_3 15 {[ "flags" := 0 ]} = Some msg'
    /\ msg' !! "f" = Some 15
    /\ Pdl.getter false 8 Pdl.flags_6_3 msg' = Some 3
    /\ 3 <> 15 mod 2 ^ 3.
Proof. eexists. split; [by vm_compute|]. repeat split; by vm_compute. Qed.

End Settled.

(** ** The scalar blocks at an offset *)
Section ScalarBlocks.

Import StructCodec.

Lemma fetch_loop_window buf offset n k i bytes :
  (i + k = n)%nat -> List.length bytes = n -> (offset + n <= List.length buf)%nat ->
  take i bytes = take i (take n (drop offset buf)) ->
  fetch_loop buf offset k i bytes = inr (take n (drop offset buf)).
Proof.
  intros Hik Hlen Hbuf.
  assert (List.length (take n (drop offset buf)) = n) as Hw
    by (rewrite length_take, length_drop; lia).
  assert (forall j, (j < n)%nat -> take n (drop offset buf) !! j = buf !! (offset + j)%nat)
    as Hlook.
  { intros j Hj. rewrite lookup_take_lt by lia. by rewrite lookup_drop. }
  revert Hw Hlook. generalize (take n (drop offset buf)) as w. intros w Hw Hlook.
  revert i bytes Hik Hlen. induction k as [|k IH]; intros i bytes Hik Hlen Htake; simpl.
  - rewrite Nat.add_0_r in Hik. subst i.
    rewrite <- Hlen in Htake at 1. rewrite <- Hw in Htake.
    rewrite !firstn_all in Htake. by subst.
  - unfold buf_get_u8.
    destruct (lookup_lt_is_Some_2 buf (offset + i) ltac:(lia)) as [b Hb]. rewrite Hb. simpl.
    assert (w !! i = Some b) as Hwi by (rewrite Hlook by lia; done).
    apply IH; [lia|by rewrite length_insert|].
    rewrite (take_S_r w i b) by done.
    rewrite (take_S_r (<[i:=b]> bytes) i b)
      by (apply list_lookup_insert_eq; lia).
    by rewrite take_insert_ge, Htake by lia.
Qed.

Lemma fetch_loop_short buf offset k i bytes :
  (0 < k)%nat -> (List.length buf < offset + i + k)%nat ->
  fetch_loop buf offset k i bytes = inl CODEC_ERR_OUT_OF_BOUNDS.
Proof.
  revert i bytes. induction k as [|k IH]; intros i bytes Hk Hlen; [lia|]. simpl.
  unfold buf_get_u8.
  destruct (buf !! (offset + i)%nat) as [b|] eqn:Hb; [|done]. simpl.
  apply lookup_lt_Some in Hb. apply IH; lia.
Qed.

Lemma store_loop_window bytes offset n k i buf buf0 :
  (i + k = n)%nat -> List.length bytes = n -> (offset + n <= List.length buf0)%nat ->
  buf = (take offset buf0 ++ take i bytes ++ drop (offset + i) buf0)%list ->
  store_loop bytes offset k i buf
  = inr (take offset buf0 ++ bytes ++ drop (offset + n) buf0)%list.
Proof.
  revert i buf. induction k as [|k IH]; intros i buf Hik Hlen Hbuf Hinv; simpl.
  - rewrite Nat.add_0_r in Hik. subst i. rewrite <- Hlen in Hinv at 1.
    rewrite firstn_all in Hinv. by subst.
  - unfold buf_set_u8.
    assert (List.length buf = List.length buf0) as Hl.
    { subst buf. rewrite !length_app, !length_take, length_drop. lia. }
    destruct (Nat.ltb_spec (offset + i) (List.length buf)) as [_|?]; [|lia]. simpl.
    destruct (lookup_lt_is_Some_2 bytes i ltac:(lia)) as [b Hb]. rewrite Hb. simpl.
    apply IH; [lia|done|done|].
    subst buf. rewrite (take_S_r bytes i b) by done.
    assert (List.length (take offset buf0) = offset) as Ho by (rewrite length_take; lia).
    rewrite insert_app_r_alt by lia. rewrite Ho.
    replace (offset + i - offset)%nat with i by lia.
    rewrite insert_app_r_alt by (rewrite length_take; lia).
    rewrite length_take. replace (i - i `min` List.length bytes)%nat with 0%nat by lia.
    destruct (drop (offset + i) buf0) as [|x rest] eqn:Hd.
    { apply (f_equal List.length) in Hd. rewrite length_drop in Hd. simpl in Hd. lia. }
    simpl. rewrite <- app_assoc. simpl. do 3 f_equal.
    replace (offset + S i)%nat with (S (offset + i)) by lia.
    change (S (offset + i)) with (1 + (offset + i))%nat.
    rewrite Nat.add_comm. rewrite <- drop_drop. by rewrite Hd.
Qed.

Lemma store_loop_short bytes offset k i buf :
  (0 < k)%nat -> (List.length buf < offset + i + k)%nat ->
  store_loop bytes offset k i buf = inl CODEC_ERR_OUT_OF_BOUNDS.
Proof.
  revert i buf. induction k as [|k IH]; intros i buf Hk Hlen; [lia|]. simpl.
  unfold buf_set_u8.
  destruct (Nat.ltb_spec (offset + i) (List.length buf)) as [Hlt|Hge]; [|done]. simpl.
  apply IH; [lia|rewrite length_insert; lia].
Qed.

End ScalarBlocks.

Section ScalarBlockTheorems.

Import StructCodec.

Lemma fetch_loop_exact w n :
  List.length w = n -> fetch_loop w 0 n 0 (replicate n 0) = inr w.
Proof.
  intros Hn.
  rewrite (fetch_loop_window w 0 n n 0 (replicate n 0));
    [|lia|apply length_replicate|lia|done].
  rewrite drop_0. f_equal. apply take_ge. lia.
Qed.

Lemma obj_get_singleton k z : obj_get {[ k := z ]} k = z.
Proof. unfold obj_get. by rewrite lookup_singleton_eq. Qed.

Ltac each_codec_type Hin :=
  unfold codec_types in Hin; simpl in Hin;
  repeat (destruct Hin as [Hin|Hin]; [inversion Hin; subst; clear Hin|]);
  try destruct Hin.

Ltac eval_size :=
  match goal with
  | |- context [Py.dict_get type_sizes ?ft 0%nat] =>
      let n := eval vm_compute in (Py.dict_get type_sizes ft 0%nat) in
      change (Py.dict_get type_sizes ft 0%nat) with n
  end.

Lemma decode_block_short ft t var i o bytes u offset buf :
  In (ft, t) codec_types ->
  (List.length buf < offset + Py.dict_get type_sizes ft 0%nat)%nat ->
  exec_code t i (get_decode_code ft var) (mk_cstate o bytes u offset buf)
  = Return CODEC_ERR_OUT_OF_BOUNDS.
Proof.
  intros Hin. each_codec_type Hin.
  all: eval_size; intros Hlen.
  all: match goal with
       | |- context [get_decode_code ?ft ?x] =>
           let code := eval vm_compute in (get_decode_code ft x) in
           change (get_decode_code ft x) with code
       end.
  all: cbn [exec_code exec_stmt st_buf st_offset st_bytes st_obj st_u].
  all: try (rewrite fetch_loop_short by lia; reflexivity).
  all: unfold buf_get_u8; rewrite lookup_ge_None_2 by lia; reflexivity.
Qed.

Lemma decode_block_window ft t var i o bytes u offset buf v :
  In (ft, t) codec_types ->
  (offset + Py.dict_get type_sizes ft 0%nat <= List.length buf)%nat ->
  decode_scalar ft (take (Py.dict_get type_sizes ft 0%nat) (drop offset buf)) = Some v ->
  exists bytes' u',
    exec_code t i (get_decode_code ft var) (mk_cstate o bytes u offset buf)
    = Next (mk_cstate (<[lv_path i var := v]> o) bytes' u'
                      (offset + Py.dict_get type_sizes ft 0%nat) buf).
Proof.
  intros Hin. each_codec_type Hin.
  all: repeat eval_size; intros Hlen Hdec; unfold decode_scalar in Hdec.
  all: match type of Hdec with
       | context [Py.dict_find codec_types ?ft] =>
           let t := eval vm_compute in (Py.dict_find codec_types ft) in
           change (Py.dict_find codec_types ft) with t in Hdec;
           let code := eval vm_compute in (get_decode_code ft (LField "x")) in
           change (get_decode_code ft (LField "x")) with code in Hdec;
           let code' := eval vm_compute in (get_decode_code ft var) in
           change (get_decode_code ft var) with code'
       end.
  all: cbn [exec_code exec_stmt st_buf st_offset st_bytes st_obj st_u] in Hdec |- *.
  (* the one-byte types *)
  all: try (unfold buf_get_u8 in Hdec |- *;
            destruct (lookup_lt_is_Some_2 buf offset ltac:(lia)) as [b Hb];
            rewrite Hb;
            assert (take 1 (drop offset buf) !! 0%nat = Some b) as Hw
              by (rewrite lookup_take_lt by lia; rewrite lookup_drop;
                  by rewrite Nat.add_0_r);
            rewrite Hw in Hdec;
            cbn [check_buf_err exec_code exec_stmt set_var lv_path
                 st_buf st_offset st_bytes st_obj st_u] in Hdec |- *;
            rewrite obj_get_insert in Hdec; injection Hdec as Hv; rewrite <- Hv;
            eexists _, _; reflexivity).
  (* the multi-byte types *)
  all: match goal with
       | |- context [fetch_loop ?b ?off ?n 0 _] =>
           rewrite (fetch_loop_window b off n n 0)
             by (first [lia | apply length_replicate | done]);
           rewrite (fetch_loop_exact (take n (drop off b)) n) in Hdec
             by (rewrite length_take, length_drop; lia)
       end.
  all: cbn [exec_code exec_stmt st_buf st_offset st_bytes st_obj st_u] in Hdec |- *.
  all: match goal with
       | |- context [forallb ?f ?L] => destruct (forallb f L); [|discriminate Hdec]
       end.
  all: cbn [exec_code exec_stmt set_var lv_path
            st_buf st_offset st_bytes st_obj st_u] in Hdec |- *.
  all: rewrite ?obj_get_insert in Hdec; rewrite ?obj_get_insert.
  all: rewrite ?insert_insert_eq in Hdec; rewrite ?insert_insert_eq.
  all: rewrite ?obj_get_insert in Hdec.
  all: apply (inj Some) in Hdec.
  all: rewrite <- Hdec.
  all: eexists _, _.
  all: reflexivity.
Qed.

(** X1: a scalar decode block that finds fewer bytes than the size of its
    type left in the buffer returns CODEC_ERR_OUT_OF_BOUNDS, for every codec
    type, variable and offset. *)
Theorem decode_block_out_of_bounds ft t var i o bytes u offset buf :
  In (ft, t) codec_types ->
  (List.length buf < offset + Py.dict_get type_sizes ft 0%nat)%nat ->
  exec_code t i (get_decode_code ft var) (mk_cstate o bytes u offset buf)
  = Return CODEC_ERR_OUT_OF_BOUNDS.
Proof. apply decode_block_short. Qed.

Lemma decode_block_out_of_bounds_witness :
  exec_code (uint_t 16) 0 (get_decode_code "codec_u16_be" (LField "x"))
            (mk_cstate ∅ [] 0 2 [9; 18; 52])
  = Return CODEC_ERR_OUT_OF_BOUNDS.
Proof.
  apply (decode_block_out_of_bounds "codec_u16_be" (uint_t 16)).
  - repeat (first [left; reflexivity | right]).
  - simpl. lia.
Defined.

Lemma decode_scalar_defined ft t w :
  In (ft, t) codec_types ->
  List.length w = Py.dict_get type_sizes ft 0%nat ->
  shifts_defined ft w = true ->
  exists v, decode_scalar ft w = Some v.
Proof.
  intros Hin. each_codec_type Hin.
  all: match goal with
       | |- context [Py.dict_get type_sizes ?ft 0%nat] =>
           let n := eval vm_compute in (Py.dict_get type_sizes ft 0%nat) in
           change (Py.dict_get type_sizes ft 0%nat) with n
       end.
  all: intros Hlen; unfold shifts_defined, decode_scalar.
  all: match goal with
       | |- context [Py.dict_find codec_types ?ft] =>
           let t := eval vm_compute in (Py.dict_find codec_types ft) in
           change (Py.dict_find codec_types ft) with t;
           let code := eval vm_compute in (get_decode_code ft (LField "x")) in
           change (get_decode_code ft (LField "x")) with code
       end.
  all: cbn [exec_code exec_stmt st_buf st_offset st_bytes st_obj st_u].
  (* the one-byte types *)
  all: try (destruct w as [|b [|]]; try discriminate Hlen; intros _;
            cbn [buf_get_u8 lookup list_lookup check_buf_err exec_code exec_stmt set_var
                 st_buf st_offset st_bytes st_obj st_u lv_path];
            eexists; reflexivity).
  (* the multi-byte types *)
  all: intros Hdef; cbn [forallb andb] in Hdef.
  all: apply andb_true_iff in Hdef as [Hdef _].
  all: rewrite fetch_loop_exact by done.
  all: cbn [forallb exec_code exec_stmt st_buf st_offset st_bytes st_obj st_u].
  all: rewrite Hdef.
  all: cbn [exec_code exec_stmt set_var lv_path st_buf st_offset st_bytes st_obj st_u].
  all: eexists; reflexivity.
Qed.

(** X2: a scalar decode block run at an offset where the buffer holds the
    bytes of its type, and on which the shifts of its decode line have a
    value, stores in its variable what that window of the buffer decodes to
    on its own, moves the offset past the window and leaves the buffer and
    every other variable as they were. *)
Theorem decode_block_at_offset ft t var i o bytes u offset buf :
  In (ft, t) codec_types ->
  (offset + Py.dict_get type_sizes ft 0%nat <= List.length buf)%nat ->
  shifts_defined ft (take (Py.dict_get type_sizes ft 0%nat) (drop offset buf)) = true ->
  exists v bytes' u',
    decode_scalar ft (take (Py.dict_get type_sizes ft 0%nat) (drop offset buf)) = Some v
    /\ exec_code t i (get_decode_code ft var) (mk_cstate o bytes u offset buf)
       = Next (mk_cstate (<[lv_path i var := v]> o) bytes' u'
                         (offset + Py.dict_get type_sizes ft 0%nat) buf).
Proof.
  intros Hin Hlen Hdef.
  destruct (decode_scalar_defined ft t
              (take (Py.dict_get type_sizes ft 0%nat) (drop offset buf)) Hin) as [v Hv];
    [rewrite length_take, length_drop; lia|done|].
  destruct (decode_block_window ft t var i o bytes u offset buf v Hin Hlen Hv)
    as (bytes' & u' & Hrun).
  by exists v, bytes', u'.
Qed.

Lemma decode_block_at_offset_witness :
  exists v bytes' u',
    decode_scalar "codec_u32_be"
      (take (Py.dict_get type_sizes "codec_u32_be" 0%nat) (drop 1 [9; 18; 52; 86; 120]))
    = Some v
    /\ exec_code (uint_t 32) 3 (get_decode_code "codec_u32_be" (LElem "x"))
                 (mk_cstate ∅ [] 0 1 [9; 18; 52; 86; 120])
       = Next (mk_cstate (<[lv_path 3 (LElem "x") := v]> ∅) bytes' u'
                         (1 + Py.dict_get type_sizes "codec_u32_be" 0%nat)
                         [9; 18; 52; 86; 120]).
Proof.
  apply (decode_block_at_offset "codec_u32_be" (uint_t 32)).
  - repeat (first [left; reflexivity | right]).
  - simpl. lia.
  - vm_compute. reflexivity.
Defined.

End ScalarBlockTheorems.

Section ScalarEncodeBlocks.

Import StructCodec.

Ltac each_codec_type Hin :=
  unfold codec_types in Hin; simpl in Hin;
  repeat (destruct Hin as [Hin|Hin]; [inversion Hin; subst; clear Hin|]);
  try destruct Hin.

Ltac eval_size :=
  match goal with
  | |- context [Py.dict_get type_sizes ?ft 0%nat] =>
      let n := eval vm_compute in (Py.dict_get type_sizes ft 0%nat) in
      change (Py.dict_get type_sizes ft 0%nat) with n
  end.

Lemma exec_set_bytes_at t i src (L : list (nat * nat)) rest o bytes u off buf v :
  match src with
  | OVar var => is_integer t = true /\ obj_get o (lv_path i var) = v
  | OUnionI => u = v
  end ->
  exec_code t i (map (fun t => SSetByte t.1 src t.2) L ++ rest)
            (mk_cstate o bytes u off buf)
  = exec_code t i rest
      (mk_cstate o
         (fold_left
            (fun bytes t => <[t.1 := Z.land (Z.shiftr v (Z.of_nat t.2)) 255]> bytes)
            L bytes) u off buf).
Proof.
  intros Hsrc. revert bytes. induction L as [|t0 L IH]; intros bytes; [done|].
  cbn [map app exec_code exec_stmt fold_left st_obj st_bytes st_u st_offset st_buf].
  destruct src as [var|].
  - destruct Hsrc as [Ht Hv]. rewrite Hv. destruct t; try discriminate; apply IH.
  - subst u. apply IH.
Qed.

Lemma encode_tail n (B : list Z) t i o u offset buf :
  List.length B = n -> (offset + n <= List.length buf)%nat ->
  exec_code t i [SStore n; SAdvance n] (mk_cstate o B u offset buf)
  = Next (mk_cstate o B u (offset + n)
            (take offset buf ++ B ++ drop (offset + n) buf)%list).
Proof.
  intros HB Hlen.
  cbn [exec_code exec_stmt st_buf st_offset st_bytes st_obj st_u].
  rewrite (store_loop_window B offset n n 0 buf buf)
    by (first [lia | done | by rewrite take_0, Nat.add_0_r; simpl; rewrite take_drop]).
  reflexivity.
Qed.

Lemma encode_tail_short n (B : list Z) t i o u offset buf :
  (0 < n)%nat -> (List.length buf < offset + n)%nat ->
  exec_code t i [SStore n; SAdvance n] (mk_cstate o B u offset buf)
  = Return CODEC_ERR_OUT_OF_BOUNDS.
Proof.
  intros Hn Hlen.
  cbn [exec_code exec_stmt st_buf st_offset st_bytes st_obj st_u].
  by rewrite store_loop_short by lia.
Qed.

Lemma int_block_run t i var n L o bytes u offset buf :
  is_integer t = true -> (offset + n <= List.length buf)%nat ->
  exists bytes',
    exec_code t i (encode_shape var n L) (mk_cstate o bytes u offset buf)
    = Next (mk_cstate o bytes' u (offset + n)
              (take offset buf ++ encode_bytes n L (obj_get o (lv_path i var))
               ++ drop (offset + n) buf)%list).
Proof.
  intros Ht Hlen. unfold encode_shape. eexists.
  cbn [exec_code exec_stmt st_buf st_offset st_bytes st_obj st_u].
  rewrite (exec_set_bytes_at t i (OVar var) L _ _ _ _ _ _ (obj_get o (lv_path i var)))
    by done.
  fold (encode_bytes n L (obj_get o (lv_path i var))).
  by rewrite encode_tail by (first [apply encode_bytes_length | done]).
Qed.

Lemma float_block_run t i var n L o bytes u offset buf :
  is_integer t = false -> (offset + n <= List.length buf)%nat ->
  exists bytes' u',
    exec_code t i (float_encode_shape var (int_width t) n L) (mk_cstate o bytes u offset buf)
    = Next (mk_cstate o bytes' u' (offset + n)
              (take offset buf ++ encode_bytes n L (obj_get o (lv_path i var))
               ++ drop (offset + n) buf)%list).
Proof.
  intros Ht Hlen. unfold float_encode_shape. eexists _, _.
  cbn [app exec_code].
  assert (exec_stmt t i (SDeclBytes n) (mk_cstate o bytes u offset buf)
          = Next (mk_cstate o (replicate n 0) u offset buf)) as -> by done.
  assert (exec_stmt t i (SUnionStoreF var (int_width t))
            (mk_cstate o (replicate n 0) u offset buf)
          = Next (mk_cstate o (replicate n 0) (obj_get o (lv_path i var)) offset buf))
    as ->.
  { destruct t; try discriminate Ht; reflexivity. }
  rewrite (exec_set_bytes_at t i OUnionI L _ _ _ _ _ _ (obj_get o (lv_path i var)))
    by done.
  fold (encode_bytes n L (obj_get o (lv_path i var))).
  by rewrite encode_tail by (first [apply encode_bytes_length | done]).
Qed.

Lemma int_block_short t i var n L o bytes u offset buf :
  is_integer t = true -> (0 < n)%nat -> (List.length buf < offset + n)%nat ->
  exec_code t i (encode_shape var n L) (mk_cstate o bytes u offset buf)
  = Return CODEC_ERR_OUT_OF_BOUNDS.
Proof.
  intros Ht Hn Hlen. unfold encode_shape.
  cbn [exec_code exec_stmt st_buf st_offset st_bytes st_obj st_u].
  rewrite (exec_set_bytes_at t i (OVar var) L _ _ _ _ _ _ (obj_get o (lv_path i var)))
    by done.
  by apply encode_tail_short.
Qed.

Lemma float_block_short t i var n L o bytes u offset buf :
  is_integer t = false -> (0 < n)%nat -> (List.length buf < offset + n)%nat ->
  exec_code t i (float_encode_shape var (int_width t) n L) (mk_cstate o bytes u offset buf)
  = Return CODEC_ERR_OUT_OF_BOUNDS.
Proof.
  intros Ht Hn Hlen. unfold float_encode_shape.
  cbn [app exec_code].
  assert (exec_stmt t i (SDeclBytes n) (mk_cstate o bytes u offset buf)
          = Next (mk_cstate o (replicate n 0) u offset buf)) as -> by done.
  assert (exec_stmt t i (SUnionStoreF var (int_width t))
            (mk_cstate o (replicate n 0) u offset buf)
          = Next (mk_cstate o (replicate n 0) (obj_get o (lv_path i var)) offset buf))
    as ->.
  { destruct t; try discriminate Ht; reflexivity. }
  rewrite (exec_set_bytes_at t i OUnionI L _ _ _ _ _ _ (obj_get o (lv_path i var)))
    by done.
  by apply encode_tail_short.
Qed.

(** The encode block of every multi-byte type has one of the two shapes, with
    the layout of its decode line. *)
Lemma encode_block_shape ft t var :
  In (ft, t) codec_types -> ft <> "codec_u8" -> ft <> "codec_i8" ->
  exists n L,
    Py.dict_get type_sizes ft 0%nat = n /\ (0 < n)%nat
    /\ int_width t = 8 * Z.of_nat n
    /\ layout_ok n L = true
    /\ (forall v, encode_scalar ft v = Some (encode_bytes n L v))
    /\ get_encode_code ft var
       = if is_integer t then encode_shape var n L
         else float_encode_shape var (int_width t) n L.
Proof.
  intros Hin Hu8 Hi8. each_codec_type Hin; try congruence.
  all: match goal with
       | |- exists n L, Py.dict_get type_sizes ?ft _ = _ /\ _ =>
           let code := eval vm_compute in (get_decode_code ft (LField "x")) in
           let n := eval vm_compute in (Py.dict_get type_sizes ft 0%nat) in
           match code with
           | context [SAssignOr _ _ ?L] =>
               exists n, L; split; [reflexivity|]; split; [lia|];
               split; [reflexivity|];
               split; [vm_compute; reflexivity|]; split; [|vm_compute; reflexivity];
               intros v;
               first [ eapply encode_scalar_shape;
                       [vm_compute; reflexivity | reflexivity | vm_compute; reflexivity
                       | vm_compute; reflexivity]
                     | eapply encode_scalar_float_shape;
                       [vm_compute; reflexivity | reflexivity | vm_compute; reflexivity
                       | vm_compute; reflexivity] ]
           end
       end.
Qed.

Lemma encode_one_byte ft t var i o bytes u offset buf :
  (ft = "codec_u8" /\ t = uint_t 8) \/ (ft = "codec_i8" /\ t = int_t 8) ->
  exec_code t i (get_encode_code ft var) (mk_cstate o bytes u offset buf)
  = if (offset <? List.length buf)%nat then
      Next (mk_cstate o bytes u (offset + 1)
              (<[offset := CInt.wrap_unsigned 8 (obj_get o (lv_path i var))]> buf))
    else Return CODEC_ERR_OUT_OF_BOUNDS.
Proof.
  intros [[-> ->]|[-> ->]].
  - change (get_encode_code "codec_u8" var) with [SSetU8 var; SAdvance 1].
    cbn [exec_code exec_stmt st_buf st_offset st_bytes st_obj st_u]. unfold buf_set_u8.
    by destruct (offset <? List.length buf)%nat.
  - change (get_encode_code "codec_i8" var) with [SSetU8 var; SAdvance 1].
    cbn [exec_code exec_stmt st_buf st_offset st_bytes st_obj st_u]. unfold buf_set_u8.
    by destruct (offset <? List.length buf)%nat.
Qed.

Lemma one_byte_type ft t :
  In (ft, t) codec_types -> ft = "codec_u8" \/ ft = "codec_i8" ->
  (ft = "codec_u8" /\ t = uint_t 8) \/ (ft = "codec_i8" /\ t = int_t 8).
Proof.
  intros Hin H. each_codec_type Hin; destruct H as [H|H]; try discriminate H; auto.
Qed.

Lemma encode_block_short ft t var i o bytes u offset buf :
  In (ft, t) codec_types ->
  (List.length buf < offset + Py.dict_get type_sizes ft 0%nat)%nat ->
  exec_code t i (get_encode_code ft var) (mk_cstate o bytes u offset buf)
  = Return CODEC_ERR_OUT_OF_BOUNDS.
Proof.
  intros Hin Hlen.
  destruct (String.eqb_spec ft "codec_u8") as [Hu8|Hu8];
    [|destruct (String.eqb_spec ft "codec_i8") as [Hi8|Hi8]].
  1, 2: rewrite (encode_one_byte ft t) by (apply one_byte_type; auto);
        subst ft; change (Py.dict_get type_sizes _ 0%nat) with 1%nat in Hlen;
        destruct (Nat.ltb_spec offset (List.length buf)); [lia|done].
  destruct (encode_block_shape ft t var Hin Hu8 Hi8) as (n & L & Hn & Hpos & _ & _ & _ & ->).
  rewrite Hn in Hlen.
  destruct (is_integer t) eqn:Ht;
    [by apply int_block_short | by apply float_block_short].
Qed.

Lemma encode_block_window ft t var i o bytes u offset buf :
  In (ft, t) codec_types ->
  (offset + Py.dict_get type_sizes ft 0%nat <= List.length buf)%nat ->
  exists bs bytes' u',
    encode_scalar ft (obj_get o (lv_path i var)) = Some bs
    /\ List.length bs = Py.dict_get type_sizes ft 0%nat
    /\ exec_code t i (get_encode_code ft var) (mk_cstate o bytes u offset buf)
       = Next (mk_cstate o bytes' u' (offset + Py.dict_get type_sizes ft 0%nat)
                 (take offset buf ++ bs
                  ++ drop (offset + Py.dict_get type_sizes ft 0%nat) buf)%list).
Proof.
  intros Hin Hlen.
  destruct (String.eqb_spec ft "codec_u8") as [Hu8|Hu8];
    [|destruct (String.eqb_spec ft "codec_i8") as [Hi8|Hi8]].
  1, 2: rewrite (encode_one_byte ft t) by (apply one_byte_type; auto);
        rewrite (encode_8 ft t) by (apply one_byte_type; auto);
        subst ft; change (Py.dict_get type_sizes _ 0%nat) with 1%nat in Hlen |- *;
        destruct (Nat.ltb_spec offset (List.length buf)); [|lia];
        eexists _, _, _; split; [reflexivity|]; split; [reflexivity|];
        do 2 f_equal; rewrite insert_take_drop by lia;
        cbn [app]; do 3 f_equal; lia.
  destruct (encode_block_shape ft t var Hin Hu8 Hi8)
    as (n & L & Hn & Hpos & _ & _ & Henc & ->).
  rewrite Hn in Hlen |- *. rewrite Henc.
  destruct (is_integer t) eqn:Ht.
  - destruct (int_block_run t i var n L o bytes u offset buf Ht Hlen) as [bytes' Hrun].
    exists (encode_bytes n L (obj_get o (lv_path i var))), bytes', u.
    split; [done|]. split; [apply encode_bytes_length|done].
  - destruct (float_block_run t i var n L o bytes u offset buf Ht Hlen)
      as (bytes' & u' & Hrun).
    exists (encode_bytes n L (obj_get o (lv_path i var))), bytes', u'.
    split; [done|]. split; [apply encode_bytes_length|done].
Qed.

Lemma encode_scalar_inj ft t v1 v2 :
  In (ft, t) codec_types -> in_range t v1 -> in_range t v2 ->
  encode_scalar ft v1 = encode_scalar ft v2 -> v1 = v2.
Proof.
  intros Hin Hv1 Hv2 Heq.
  destruct (String.eqb_spec ft "codec_u8") as [Hu8|Hu8];
    [|destruct (String.eqb_spec ft "codec_i8") as [Hi8|Hi8]].
  1, 2: rewrite !(encode_8 ft t) in Heq by (apply one_byte_type; auto);
        injection Heq as Heq;
        destruct (one_byte_type ft t Hin ltac:(auto)) as [[_ ->]|[_ ->]];
        cbn [in_range] in Hv1, Hv2; unfold CInt.wrap_unsigned in Heq.
  1-4: change (2 ^ (8 - 1)) with 128 in *; change (2 ^ 8) with 256 in *;
       pose proof (Z.div_mod v1 256 ltac:(lia));
       pose proof (Z.div_mod v2 256 ltac:(lia));
       pose proof (Z.mod_pos_bound v1 256 ltac:(lia));
       pose proof (Z.mod_pos_bound v2 256 ltac:(lia)); lia.
  destruct (encode_block_shape ft t (LField "x") Hin Hu8 Hi8)
      as (n & L & Hn & Hpos & Hw & HL & Henc & _).
  { rewrite !Henc in Heq. injection Heq as Heq.
    apply layout_ok_spec in HL.
    set (t' := if is_integer t then t else uint_t (8 * Z.of_nat n)).
    assert (is_integer t' = true) as Ht' by (unfold t'; by destruct t).
    assert (int_width t' = 8 * Z.of_nat n) as Hw' by (unfold t'; by destruct t).
    assert (int_width t' <= 64) as Hb.
    { rewrite Hw', <- Hw. clear -Hin. unfold codec_types in Hin. simpl in Hin.
      repeat (destruct Hin as [Hin|Hin]; [inversion Hin; simpl; lia|]). destruct Hin. }
    assert (forall v, in_range t v -> in_range t' v) as Hr.
    { intros v. unfold t'. destruct t; simpl in *; try done; rewrite <- Hw; done. }
    rewrite <- (layout_decode_encode true n L t' v1) by auto.
    rewrite <- (layout_decode_encode true n L t' v2) by auto.
    by rewrite Heq. }
Qed.

(** X3: a scalar encode block that finds fewer bytes than the size of its
    type left in the output buffer returns CODEC_ERR_OUT_OF_BOUNDS, for every
    codec type, variable and offset. *)
Theorem encode_block_out_of_bounds ft t var i o bytes u offset buf :
  In (ft, t) codec_types ->
  (List.length buf < offset + Py.dict_get type_sizes ft 0%nat)%nat ->
  exec_code t i (get_encode_code ft var) (mk_cstate o bytes u offset buf)
  = Return CODEC_ERR_OUT_OF_BOUNDS.
Proof. apply encode_block_short. Qed.

Lemma encode_block_out_of_bounds_witness :
  exec_code float_t 0 (get_encode_code "codec_f32_be" (LField "x"))
            (mk_cstate {[ [("x", 0%nat)] := 1065353216 ]} [] 0 1 [0; 0; 0; 0])
  = Return CODEC_ERR_OUT_OF_BOUNDS.
Proof.
  apply (encode_block_out_of_bounds "codec_f32_be" float_t).
  - repeat (first [left; reflexivity | right]).
  - simpl. lia.
Defined.

(** X4: a scalar encode block run at an offset with room for its type writes
    over the window of the output buffer at the offset the bytes its variable
    encodes to on its own, and nothing else: the bytes before and after the
    window and the struct are unchanged, and the offset moves past the
    window. *)
Theorem encode_block_at_offset ft t var i o bytes u offset buf :
  In (ft, t) codec_types ->
  (offset + Py.dict_get type_sizes ft 0%nat <= List.length buf)%nat ->
  exists bs bytes' u',
    encode_scalar ft (obj_get o (lv_path i var)) = Some bs
    /\ List.length bs = Py.dict_get type_sizes ft 0%nat
    /\ exec_code t i (get_encode_code ft var) (mk_cstate o bytes u offset buf)
       = Next (mk_cstate o bytes' u' (offset + Py.dict_get type_sizes ft 0%nat)
                 (take offset buf ++ bs
                  ++ drop (offset + Py.dict_get type_sizes ft 0%nat) buf)%list).
Proof. apply encode_block_window. Qed.

Lemma encode_block_at_offset_witness :
  exists bs bytes' u',
    encode_scalar "codec_u16_be"
                  (obj_get {[ [("x", 0%nat)] := 4660 ]} (lv_path 0 (LField "x"))) = Some bs
    /\ List.length bs = Py.dict_get type_sizes "codec_u16_be" 0%nat
    /\ exec_code (uint_t 16) 0 (get_encode_code "codec_u16_be" (LField "x"))
                 (mk_cstate {[ [("x", 0%nat)] := 4660 ]} [] 0 1 [9; 9; 9; 9])
       = Next (mk_cstate {[ [("x", 0%nat)] := 4660 ]} bytes' u'
                 (1 + Py.dict_get type_sizes "codec_u16_be" 0%nat)
                 (take 1 [9; 9; 9; 9] ++ bs
                  ++ drop (1 + Py.dict_get type_sizes "codec_u16_be" 0%nat)
                          [9; 9; 9; 9])%list).
Proof.
  apply (encode_block_at_offset "codec_u16_be" (uint_t 16)).
  - repeat (first [left; reflexivity | right]).
  - simpl. lia.
Defined.

(** X5: two different values of a codec type never encode to the same
    bytes. *)
Theorem distinct_values_distinct_bytes ft t v1 v2 :
  In (ft, t) codec_types -> in_range t v1 -> in_range t v2 -> v1 <> v2 ->
  encode_scalar ft v1 <> encode_scalar ft v2.
Proof. intros Hin H1 H2 Hne Heq. apply Hne. by apply (encode_scalar_inj ft t). Qed.

Lemma distinct_values_distinct_bytes_witness :
  encode_scalar "codec_i16_le" (-1) <> encode_scalar "codec_i16_le" 1.
Proof.
  apply (distinct_values_distinct_bytes "codec_i16_le" (int_t 16)).
  - repeat (first [left; reflexivity | right]).
  - simpl. lia.
  - simpl. lia.
  - lia.
Defined.

(** X6: for every integer type, decoding the bytes a value of the type
    encodes to gives the value back; for the types of four bytes, whose
    decode line shifts an [int] by 24 places, provided bit 31 of the value
    is clear. *)
Theorem integer_value_round_trip ft t v :
  In (ft, t) codec_types -> is_integer t = true -> in_range t v ->
  (int_width t = 32 -> 0 <= v < 2 ^ 31) ->
  exists bytes, encode_scalar ft v = Some bytes
                /\ List.length bytes = Py.dict_get type_sizes ft 0%nat
                /\ decode_scalar ft bytes = Some v.
Proof. apply integer_decode_encode. Qed.

Lemma integer_value_round_trip_witness :
  exists bytes, encode_scalar "codec_u32_be" 305419896 = Some bytes
                /\ List.length bytes = Py.dict_get type_sizes "codec_u32_be" 0%nat
                /\ decode_scalar "codec_u32_be" bytes = Some 305419896.
Proof.
  apply (integer_value_round_trip "codec_u32_be" (uint_t 32)).
  - repeat (first [left; reflexivity | right]).
  - reflexivity.
  - simpl. lia.
  - intros _. lia.
Defined.

(** X7: for every integer type, encoding the integer decoded from a buffer of
    the size of the type gives the buffer back, provided the shifts of the
    decode line have a value on it. *)
Theorem integer_bytes_round_trip ft t bytes :
  In (ft, t) codec_types -> is_integer t = true ->
  List.length bytes = Py.dict_get type_sizes ft 0%nat -> Forall is_byte bytes ->
  shifts_defined ft bytes = true ->
  exists v, decode_scalar ft bytes = Some v /\ in_range t v
            /\ encode_scalar ft v = Some bytes.
Proof. apply integer_encode_decode. Qed.

Lemma integer_bytes_round_trip_witness :
  exists v, decode_scalar "codec_i16_le" [254; 255] = Some v /\ in_range (int_t 16) v
            /\ encode_scalar "codec_i16_le" v = Some [254; 255].
Proof.
  apply (integer_bytes_round_trip "codec_i16_le" (int_t 16)).
  - repeat (first [left; reflexivity | right]).
  - reflexivity.
  - reflexivity.
  - repeat constructor; unfold is_byte; lia.
  - reflexivity.
Defined.

End ScalarEncodeBlocks.

(** ** The decode function of a struct of scalar fields *)
Section StructDecode.

Import StructCodec.

Lemma dict_find_In {A} (d : list (string * A)) k v :
  Py.dict_find d k = Some v -> In (k, v) d.
Proof.
  induction d as [|[k' v'] d IH]; simpl; [done|].
  destruct (String.eqb_spec k k') as [->|Hne]; [intros [= ->]; by left|].
  intros H. right. by apply IH.
Qed.

Lemma codec_type_find ft t : In (ft, t) codec_types -> Py.dict_find codec_types ft = Some t.
Proof.
  intros Hin. unfold codec_types in Hin. simpl in Hin.
  repeat (destruct Hin as [Hin|Hin]; [by inversion Hin|]). destruct Hin.
Qed.

Lemma codec_type_props ft t var :
  In (ft, t) codec_types ->
  Py.startswith "struct " ft = false
  /\ (0 < Py.dict_get type_sizes ft 0%nat)%nat
  /\ exists c cs, get_decode_code ft var = c :: cs.
Proof.
  intros Hin. unfold codec_types in Hin. simpl in Hin.
  repeat (destruct Hin as [Hin|Hin];
          [inversion Hin; subst; split; [reflexivity|];
           split; [vm_compute; lia|];
           match goal with
           | |- exists c cs, get_decode_code ?ft ?x = _ =>
               let code := eval vm_compute in (get_decode_code ft x) in
               change (get_decode_code ft x) with code; eauto
           end|]).
  destruct Hin.
Qed.

Lemma decode_scalar_length ft t w v :
  In (ft, t) codec_types -> decode_scalar ft w = Some v ->
  (Py.dict_get type_sizes ft 0%nat <= List.length w)%nat.
Proof.
  intros Hin Hdec.
  destruct (Nat.le_gt_cases (Py.dict_get type_sizes ft 0%nat) (List.length w)); [done|].
  unfold decode_scalar in Hdec. rewrite (codec_type_find ft t Hin) in Hdec.
  rewrite (decode_block_short ft t) in Hdec by (done || lia). done.
Qed.

(** The machine after [malloc], with the new block holding [o]. *)
Local Abbreviation with_obj m o :=
  (mk_mstate (<[m_next m := o]> (m_live m)) (S (m_next m)) (Nat.pred (m_avail m))
             (m_remaining m) (m_trace m)).

Lemma scalar_field_spec f :
  scalar_field f = true ->
  is_pointer f = false /\ Py.truthy (array_size f) = false
  /\ exists t, In (field_type f, t) codec_types.
Proof.
  unfold scalar_field. intros H.
  apply andb_true_iff in H as [H Ht]. apply andb_true_iff in H as [Hp Ha].
  apply negb_true_iff in Hp, Ha. split; [done|]. split; [done|].
  destruct (Py.dict_find codec_types (field_type f)) as [t|] eqn:E; [|done].
  exists t. by apply dict_find_In.
Qed.

Lemma insert_obj (b : nat) (o o' : obj) (live : gmap nat obj) :
  <[b := o']> (<[b := o]> live) = <[b := o']> live.
Proof. apply insert_insert_eq. Qed.

Lemma struct_size_cons f fs :
  struct_size (f :: fs)
  = (Py.dict_get type_sizes (field_type f) 0%nat + struct_size fs)%nat.
Proof. reflexivity. Qed.

Lemma struct_size_nil : struct_size [] = 0%nat.
Proof. reflexivity. Qed.

Lemma run_fields_ok fs input offset o offset' o' :
  run_fields fs input offset o = Some (FieldsOk offset' o') ->
  (offset <= List.length input)%nat ->
  (offset' <= List.length input)%nat /\ offset' = (offset + struct_size fs)%nat.
Proof.
  revert offset o. induction fs as [|f fs IH]; intros offset o Hr Hle.
  - simpl in Hr. injection Hr as <- <-. rewrite struct_size_nil. lia.
  - cbn [run_fields] in Hr.
    destruct (Nat.ltb_spec (List.length input)
                (offset + Py.dict_get type_sizes (field_type f) 0%nat)); [done|].
    destruct (decode_scalar (field_type f) _) as [v|]; [|done].
    destruct (IH _ _ Hr ltac:(lia)) as [H1 H2]. split; [done|].
    rewrite struct_size_cons. lia.
Qed.

Lemma decode_fn_scalar structs array_len hook_decode fuel s input m r :
  find_struct structs (struct_name s) = Some s ->
  forallb scalar_field (fields s) = true ->
  (0 < m_avail m)%nat ->
  run_fields (fields s) input 0 ∅ = Some r ->
  decode_fn structs array_len hook_decode (S fuel) (struct_name s) true true (Some input) m
  = Some match r with
         | FieldsOk offset o =>
             mk_dres CODEC_OK (Some (PBlock (m_next m)))
                     (set_remaining (drop offset input) (with_obj m o))
         | FieldsShort o =>
             mk_dres CODEC_ERR_OUT_OF_BOUNDS None (with_obj m o)
         end.
Proof.
  intros Hfind Hsc Hav Hrun. cbn [decode_fn]. rewrite Hfind. cbn [negb orb].
  unfold malloc. destruct (m_avail m) as [|k] eqn:Hk; [lia|]. cbn [Nat.pred].
  match goal with |- context [run_steps ?F (fields s) _] => set (step := F) end.
  set (b := m_next m) in *.
  assert (forall fs offset o,
             forallb scalar_field fs = true ->
             run_fields fs input offset o = Some r ->
             run_steps step fs
               (offset, mk_mstate (<[b := o]> (m_live m)) (S b) k (m_remaining m) (m_trace m))
             = Some match r with
                    | FieldsOk offset' o' =>
                        Go (offset', mk_mstate (<[b := o']> (m_live m)) (S b) k
                                               (m_remaining m) (m_trace m))
                    | FieldsShort o' =>
                        Ret CODEC_ERR_OUT_OF_BOUNDS
                            (mk_mstate (<[b := o']> (m_live m)) (S b) k
                                       (m_remaining m) (m_trace m))
                    end) as Hsteps.
  { induction fs as [|f fs IH]; intros offset o Hfs Hr.
    - simpl in Hr. injection Hr as <-. reflexivity.
    - cbn [forallb] in Hfs. apply andb_true_iff in Hfs as [Hf Hfs].
      destruct (scalar_field_spec f Hf) as (Hp & Ha & t & Hin).
      destruct (codec_type_props (field_type f) t (LField (name f)) Hin)
        as (Hst & Hpos & c & cs & Hcode).
      cbn [run_fields] in Hr. cbn [run_steps].
      assert (step f (offset, mk_mstate (<[b := o]> (m_live m)) (S b) k
                                        (m_remaining m) (m_trace m))
              = match exec_code t 0 (get_decode_code (field_type f) (LField (name f)))
                        (mk_cstate o [] 0 offset input) with
                | Next st' =>
                    Some (Go (st_offset st',
                              mk_mstate (<[b := st_obj st']> (m_live m)) (S b) k
                                        (m_remaining m) (m_trace m)))
                | Return e =>
                    Some (Ret e (mk_mstate (<[b := o]> (m_live m)) (S b) k
                                           (m_remaining m) (m_trace m)))
                | Stuck => None
                end) as ->.
      { unfold step. rewrite Hp, Ha, Hst. rewrite Hcode.
        rewrite (codec_type_find _ _ Hin).
        unfold content, set_content. cbn [m_live m_next m_avail m_remaining m_trace].
        rewrite lookup_insert_eq. cbn [default from_option id].
        destruct (exec_code t 0 (c :: cs) _) as [st'| |]; [|done|done].
        by rewrite insert_obj. }
      destruct (Nat.ltb_spec (List.length input)
                  (offset + Py.dict_get type_sizes (field_type f) 0%nat)) as [Hshort|Hlong].
      + injection Hr as <-.
        by rewrite (decode_block_short _ t) by done.
      + destruct (decode_scalar (field_type f) _) as [v|] eqn:Hdec; [|done].
        destruct (decode_block_window (field_type f) t (LField (name f)) 0 o [] 0
                    offset input v Hin Hlong Hdec) as (bytes' & u' & ->).
        cbn [st_offset st_obj lv_path]. by apply IH. }
  rewrite (Hsteps (fields s) 0%nat ∅ Hsc Hrun).
  destruct r as [offset o|o]; [|reflexivity].
  unfold buf_from_buf.
  destruct (run_fields_ok (fields s) input 0 ∅ offset o Hrun ltac:(lia)) as [Hle _].
  destruct (Nat.leb_spec offset (List.length input)); [|lia].
  reflexivity.
Qed.

Lemma decode_fields_run fs input offset o o' :
  forallb scalar_field fs = true ->
  decode_fields fs input offset o = Some o' ->
  run_fields fs input offset o = Some (FieldsOk (offset + struct_size fs) o').
Proof.
  revert offset o. induction fs as [|f fs IH]; intros offset o Hfs Hd.
  - cbn [decode_fields run_fields] in *. injection Hd as <-.
    rewrite struct_size_nil. do 2 f_equal. lia.
  - cbn [forallb] in Hfs. apply andb_true_iff in Hfs as [Hf Hfs].
    destruct (scalar_field_spec f Hf) as (_ & _ & t & Hin).
    cbn [decode_fields run_fields] in *.
    destruct (decode_scalar (field_type f) _) as [v|] eqn:Hdec; [|done].
    pose proof (decode_scalar_length _ t _ _ Hin Hdec) as Hlen.
    destruct (codec_type_props _ t (LField "x") Hin) as (_ & Hpos & _).
    rewrite length_take, length_drop in Hlen.
    destruct (Nat.ltb_spec (List.length input)
                (offset + Py.dict_get type_sizes (field_type f) 0%nat)); [lia|].
    rewrite (IH _ _ Hfs Hd). rewrite struct_size_cons. do 2 f_equal. lia.
Qed.

Lemma decode_fn_fields structs array_len hook_decode fuel s input m o :
  find_struct structs (struct_name s) = Some s ->
  forallb scalar_field (fields s) = true ->
  (0 < m_avail m)%nat ->
  decode_fields (fields s) input 0 ∅ = Some o ->
  decode_fn structs array_len hook_decode (S fuel) (struct_name s) true true (Some input) m
  = Some (mk_dres CODEC_OK (Some (PBlock (m_next m)))
            (mk_mstate (<[m_next m := o]> (m_live m)) (S (m_next m))
                       (Nat.pred (m_avail m))
                       (Some (drop (struct_size (fields s)) input)) (m_trace m))).
Proof.
  intros Hfind Hsc Hav Hd.
  by rewrite (decode_fn_scalar structs array_len hook_decode fuel s input m _
                Hfind Hsc Hav (decode_fields_run _ _ _ _ _ Hsc Hd)).
Qed.

Lemma run_fields_short pre f post input offset o o' :
  forallb scalar_field pre = true ->
  decode_fields pre input offset o = Some o' ->
  (List.length input
   < offset + struct_size pre + Py.dict_get type_sizes (field_type f) 0%nat)%nat ->
  run_fields (pre ++ f :: post) input offset o = Some (FieldsShort o').
Proof.
  revert offset o. induction pre as [|g pre IH]; intros offset o Hfs Hd Hlen.
  - simpl in Hd. injection Hd as <-. cbn [app run_fields].
    rewrite struct_size_nil in Hlen.
    destruct (Nat.ltb_spec (List.length input)
                (offset + Py.dict_get type_sizes (field_type f) 0%nat)); [done|lia].
  - cbn [forallb] in Hfs. apply andb_true_iff in Hfs as [Hg Hfs].
    destruct (scalar_field_spec g Hg) as (_ & _ & t & Hin).
    cbn [app decode_fields run_fields] in *.
    destruct (decode_scalar (field_type g) _) as [v|] eqn:Hdec; [|done].
    pose proof (decode_scalar_length _ t _ _ Hin Hdec) as Hl.
    destruct (codec_type_props _ t (LField "x") Hin) as (_ & Hpos & _).
    rewrite length_take, length_drop in Hl.
    destruct (Nat.ltb_spec (List.length input)
                (offset + Py.dict_get type_sizes (field_type g) 0%nat)); [lia|].
    apply IH; [done|done|]. rewrite struct_size_cons in Hlen. lia.
Qed.

Lemma decode_fn_short structs array_len hook_decode fuel s input m pre f post o :
  find_struct structs (struct_name s) = Some s ->
  fields s = (pre ++ f :: post)%list ->
  forallb scalar_field (fields s) = true ->
  (0 < m_avail m)%nat ->
  decode_fields pre input 0 ∅ = Some o ->
  (List.length input
   < struct_size pre + Py.dict_get type_sizes (field_type f) 0%nat)%nat ->
  decode_fn structs array_len hook_decode (S fuel) (struct_name s) true true (Some input) m
  = Some (mk_dres CODEC_ERR_OUT_OF_BOUNDS None
            (mk_mstate (<[m_next m := o]> (m_live m)) (S (m_next m))
                       (Nat.pred (m_avail m)) (m_remaining m) (m_trace m))).
Proof.
  intros Hfind Hfs Hsc Hav Hd Hlen.
  assert (forallb scalar_field pre = true) as Hpre.
  { rewrite Hfs, forallb_app in Hsc. by apply andb_true_iff in Hsc as [? _]. }
  rewrite (decode_fn_scalar structs array_len hook_decode fuel s input m
             (FieldsShort o) Hfind Hsc Hav); [done|].
  rewrite Hfs. by apply run_fields_short.
Qed.

Lemma decode_fields_defined (fs : list Field) (input : list Z) (offset : nat) (o : obj) :
  forallb scalar_field fs = true ->
  (offset + struct_size fs <= List.length input)%nat ->
  shifts_defined_fields fs input offset = true ->
  exists o', decode_fields fs input offset o = Some o'.
Proof.
  revert offset o. induction fs as [|f fs IH]; intros offset o Hfs Hlen Hdef.
  - by exists o.
  - cbn [forallb] in Hfs. apply andb_true_iff in Hfs as [Hf Hfs].
    destruct (scalar_field_spec f Hf) as (_ & _ & t & Hin).
    rewrite struct_size_cons in Hlen.
    cbn [shifts_defined_fields] in Hdef. apply andb_true_iff in Hdef as [Hd Hdef].
    destruct (decode_scalar_defined (field_type f) t
                (take (Py.dict_get type_sizes (field_type f) 0%nat) (drop offset input))
                Hin) as [v Hv]; [rewrite length_take, length_drop; lia|done|].
    cbn [decode_fields]. rewrite Hv. apply IH; [done|lia|done].
Qed.

(** X8: when the input ends inside a field of a struct of scalar fields, and
    the shifts of the decode lines of the fields before it have a value, the
    decode function returns CODEC_ERR_OUT_OF_BOUNDS and leaves the output
    unset, and the block it allocated stays live, holding the fields read so
    far: nothing is disposed of or freed, and remaining_input_buf is not
    set. *)
Theorem decode_struct_short structs array_len hook_decode fuel s input m pre f post :
  find_struct structs (struct_name s) = Some s ->
  fields s = (pre ++ f :: post)%list ->
  forallb scalar_field (fields s) = true ->
  (0 < m_avail m)%nat ->
  (struct_size pre <= List.length input)%nat ->
  (List.length input
   < struct_size pre + Py.dict_get type_sizes (field_type f) 0%nat)%nat ->
  shifts_defined_fields pre input 0 = true ->
  exists o,
    decode_fields pre input 0 ∅ = Some o
    /\ decode_fn structs array_len hook_decode (S fuel) (struct_name s) true true
                 (Some input) m
       = Some (mk_dres CODEC_ERR_OUT_OF_BOUNDS None
                 (mk_mstate (<[m_next m := o]> (m_live m)) (S (m_next m))
                            (Nat.pred (m_avail m)) (m_remaining m) (m_trace m))).
Proof.
  intros Hfind Hfs Hsc Hav Hle Hlen Hdef.
  assert (forallb scalar_field pre = true) as Hpre.
  { rewrite Hfs, forallb_app in Hsc. by apply andb_true_iff in Hsc as [? _]. }
  destruct (decode_fields_defined pre input 0 ∅ Hpre Hle Hdef) as [o Ho].
  exists o. split; [done|].
  by apply (decode_fn_short structs array_len hook_decode fuel s input m pre f post o).
Qed.

Lemma decode_struct_short_witness :
  exists o,
    decode_fields [mk_Field "codec_u16_be" "id" None false;
                   mk_Field "codec_u8" "kind" None false] [18; 52; 7; 4; 3] 0 ∅ = Some o
    /\ decode_fn [mixed] (fun _ => 0%nat) (fun _ _ _ => CODEC_OK) 1 (struct_name mixed)
                 true true (Some [18; 52; 7; 4; 3]) (init_mstate 1)
       = Some (mk_dres CODEC_ERR_OUT_OF_BOUNDS None
                 (mk_mstate (<[m_next (init_mstate 1) := o]> (m_live (init_mstate 1)))
                            (S (m_next (init_mstate 1)))
                            (Nat.pred (m_avail (init_mstate 1)))
                            (m_remaining (init_mstate 1)) (m_trace (init_mstate 1)))).
Proof.
  apply (decode_struct_short [mixed] (fun _ => 0%nat) (fun _ _ _ => CODEC_OK) 0 mixed
           [18; 52; 7; 4; 3] (init_mstate 1)
           [mk_Field "codec_u16_be" "id" None false; mk_Field "codec_u8" "kind" None false]
           (mk_Field "codec_u32_le" "len" None false) []).
  - reflexivity.
  - reflexivity.
  - reflexivity.
  - simpl. lia.
  - vm_compute. lia.
  - vm_compute. lia.
  - reflexivity.
Defined.

(** X9: on an input that holds every field, and on which the shifts of the
    decode lines have a value, the decode function of a struct of scalar
    fields returns CODEC_OK, hands out one new block holding each field as
    read from its window of the input, the windows following one another
    from the start, and leaves in remaining_input_buf the input beyond the
    size of the struct. *)
Theorem decode_struct_ok structs array_len hook_decode fuel s input m :
  find_struct structs (struct_name s) = Some s ->
  forallb scalar_field (fields s) = true ->
  (0 < m_avail m)%nat ->
  (struct_size (fields s) <= List.length input)%nat ->
  shifts_defined_fields (fields s) input 0 = true ->
  exists o,
    decode_fields (fields s) input 0 ∅ = Some o
    /\ decode_fn structs array_len hook_decode (S fuel) (struct_name s) true true
                 (Some input) m
       = Some (mk_dres CODEC_OK (Some (PBlock (m_next m)))
                 (mk_mstate (<[m_next m := o]> (m_live m)) (S (m_next m))
                            (Nat.pred (m_avail m))
                            (Some (drop (struct_size (fields s)) input)) (m_trace m))).
Proof.
  intros Hfind Hsc Hav Hlen Hdef.
  destruct (decode_fields_defined (fields s) input 0 ∅ Hsc Hlen Hdef) as [o Ho].
  exists o. split; [done|]. by apply decode_fn_fields.
Qed.

Lemma decode_struct_ok_witness :
  exists o,
    decode_fields (fields mixed) [18; 52; 7; 4; 3; 2; 1; 170] 0 ∅ = Some o
    /\ decode_fn [mixed] (fun _ => 0%nat) (fun _ _ _ => CODEC_OK) 1 (struct_name mixed)
                 true true (Some [18; 52; 7; 4; 3; 2; 1; 170]) (init_mstate 1)
       = Some (mk_dres CODEC_OK (Some (PBlock (m_next (init_mstate 1))))
                 (mk_mstate (<[m_next (init_mstate 1) := o]> (m_live (init_mstate 1)))
                            (S (m_next (init_mstate 1)))
                            (Nat.pred (m_avail (init_mstate 1)))
                            (Some (drop (struct_size (fields mixed))
                                        [18; 52; 7; 4; 3; 2; 1; 170]))
                            (m_trace (init_mstate 1)))).
Proof.
  apply (decode_struct_ok [mixed] (fun _ => 0%nat) (fun _ _ _ => CODEC_OK) 0 mixed).
  - reflexivity.
  - reflexivity.
  - simpl. lia.
  - vm_compute. lia.
  - reflexivity.
Defined.

End StructDecode.

(** ** The encode function of a struct of scalar fields *)
Section StructEncode.

Import StructCodec.

Lemma encode_props ft t var :
  In (ft, t) codec_types -> exists c cs, get_encode_code ft var = c :: cs.
Proof.
  intros Hin. unfold codec_types in Hin. simpl in Hin.
  repeat (destruct Hin as [Hin|Hin];
          [inversion Hin; subst;
           match goal with
           | |- exists c cs, get_encode_code ?ft ?x = _ =>
               let code := eval vm_compute in (get_encode_code ft x) in
               change (get_encode_code ft x) with code; eauto
           end|]).
  destruct Hin.
Qed.

Lemma encode_fields_cons f fs o :
  encode_fields (f :: fs) o
  = match encode_scalar (field_type f) (obj_get o [(name f, 0%nat)]),
          encode_fields fs o with
    | Some bs, Some rest => Some (bs ++ rest)%list
    | _, _ => None
    end.
Proof. reflexivity. Qed.

(** What a run of scalar fields does to the running offset and the output
    buffer. *)
Lemma encode_fn_scalar structs array_len hook_encode fuel s output o r :
  find_struct structs (struct_name s) = Some s ->
  forallb scalar_field (fields s) = true ->
  (forall step : Field -> nat * list Z -> option (codec_err + nat * list Z),
      (forall f t offset out,
          scalar_field f = true -> In (field_type f, t) codec_types ->
          step f (offset, out)
          = match exec_code t 0 (get_encode_code (field_type f) (LField (name f)))
                    (mk_cstate o [] 0 offset out) with
            | Next st' => Some (inr (st_offset st', st_buf st'))
            | Return e => Some (inl e)
            | Stuck => None
            end) ->
      try_steps step (fields s) (0%nat, output) = Some r) ->
  encode_fn structs array_len hook_encode (S fuel) (struct_name s) true (Some output) (Some o)
  = match r with
    | inl e => Some (EncErr e)
    | inr (offset, out) =>
        let '(buf_err, rest) := buf_from_buf out offset in
        match check_buf_err buf_err with
        | Some e => Some (EncErr e)
        | None => Some (EncOk out rest)
        end
    end.
Proof.
  intros Hfind Hsc Hrun. cbn [encode_fn]. rewrite Hfind. cbn [negb].
  match goal with |- context [try_steps ?F (fields s) _] => set (step := F) end.
  rewrite (Hrun step); [by destruct r as [e|[offset out]]|].
  intros f t offset out Hf Hin.
  destruct (scalar_field_spec f Hf) as (Hp & Ha & _).
  destruct (codec_type_props (field_type f) t (LField (name f)) Hin) as (Hst & _ & _).
  destruct (encode_props (field_type f) t (LField (name f)) Hin) as (c & cs & Hcode).
  unfold step. rewrite Hp, Ha, Hst, Hcode, (codec_type_find _ _ Hin). reflexivity.
Qed.

Lemma encode_fields_scalar fs o :
  forallb scalar_field fs = true ->
  exists bs, encode_fields fs o = Some bs /\ List.length bs = struct_size fs.
Proof.
  induction fs as [|f fs IH]; intros Hfs; [by exists []|].
  cbn [forallb] in Hfs. apply andb_true_iff in Hfs as [Hf Hfs].
  destruct (scalar_field_spec f Hf) as (_ & _ & t & Hin).
  destruct (IH Hfs) as (bs & Hbs & Hbl).
  destruct (encode_block_window (field_type f) t (LField (name f)) 0 o [] 0 0
              (replicate (Py.dict_get type_sizes (field_type f) 0%nat) 0) Hin)
    as (b & _ & _ & Hb & Hbl' & _).
  { by rewrite length_replicate. }
  cbn [lv_path] in Hb. exists (b ++ bs)%list.
  rewrite encode_fields_cons, Hb, Hbs. split; [done|].
  rewrite length_app, struct_size_cons. lia.
Qed.

Lemma scalar_steps_ok (o : obj)
      (step : Field -> nat * list Z -> option (codec_err + nat * list Z)) :
  (forall f t offset out,
      scalar_field f = true -> In (field_type f, t) codec_types ->
      step f (offset, out)
      = match exec_code t 0 (get_encode_code (field_type f) (LField (name f)))
                (mk_cstate o [] 0 offset out) with
        | Next st' => Some (inr (st_offset st', st_buf st'))
        | Return e => Some (inl e)
        | Stuck => None
        end) ->
  forall fs acc rest bs,
    forallb scalar_field fs = true ->
    (struct_size fs <= List.length rest)%nat ->
    encode_fields fs o = Some bs ->
    try_steps step fs (List.length acc, (acc ++ rest)%list)
    = Some (inr ((List.length acc + struct_size fs)%nat,
                 (acc ++ bs ++ drop (struct_size fs) rest)%list)).
Proof.
  intros Hstep. induction fs as [|f fs IH]; intros acc rest bs Hfs Hlen Hbs.
  - cbn [encode_fields] in Hbs. injection Hbs as <-. cbn [try_steps].
    rewrite struct_size_nil, Nat.add_0_r, drop_0. reflexivity.
  - cbn [forallb] in Hfs. apply andb_true_iff in Hfs as [Hf Hfs].
    destruct (scalar_field_spec f Hf) as (_ & _ & t & Hin).
    rewrite struct_size_cons in Hlen |- *.
    set (n := Py.dict_get type_sizes (field_type f) 0%nat) in *.
    destruct (encode_block_window (field_type f) t (LField (name f)) 0 o [] 0
                (List.length acc) (acc ++ rest)%list Hin) as (b & bytes' & u' & Hb & Hbl & Hrun).
    { rewrite length_app. fold n. lia. }
    fold n in Hbl, Hrun. cbn [lv_path] in Hb.
    rewrite encode_fields_cons, Hb in Hbs.
    destruct (encode_fields fs o) as [bs'|] eqn:Hbs'; [|done]. injection Hbs as <-.
    cbn [try_steps]. rewrite (Hstep f t _ _ Hf Hin), Hrun. cbn [st_offset st_buf].
    rewrite take_app_length, drop_app_add' by done.
    pose proof (IH (acc ++ b)%list (drop n rest) bs' Hfs) as Htry.
    rewrite length_app, Hbl, length_drop in Htry.
    replace (acc ++ b ++ drop n rest)%list with ((acc ++ b) ++ drop n rest)%list
      by (by rewrite <- app_assoc).
    rewrite Htry by (done || lia). rewrite drop_drop, Nat.add_assoc. do 3 f_equal.
    by rewrite <- !app_assoc.
Qed.

Lemma scalar_steps_short (o : obj)
      (step : Field -> nat * list Z -> option (codec_err + nat * list Z)) :
  (forall f t offset out,
      scalar_field f = true -> In (field_type f, t) codec_types ->
      step f (offset, out)
      = match exec_code t 0 (get_encode_code (field_type f) (LField (name f)))
                (mk_cstate o [] 0 offset out) with
        | Next st' => Some (inr (st_offset st', st_buf st'))
        | Return e => Some (inl e)
        | Stuck => None
        end) ->
  forall fs offset out,
    forallb scalar_field fs = true ->
    (offset <= List.length out)%nat ->
    (List.length out < offset + struct_size fs)%nat ->
    try_steps step fs (offset, out) = Some (inl CODEC_ERR_OUT_OF_BOUNDS).
Proof.
  intros Hstep. induction fs as [|f fs IH]; intros offset out Hfs Hle Hlen.
  - rewrite struct_size_nil in Hlen. lia.
  - cbn [forallb] in Hfs. apply andb_true_iff in Hfs as [Hf Hfs].
    destruct (scalar_field_spec f Hf) as (_ & _ & t & Hin).
    rewrite struct_size_cons in Hlen.
    set (n := Py.dict_get type_sizes (field_type f) 0%nat) in *.
    cbn [try_steps]. rewrite (Hstep f t _ _ Hf Hin).
    destruct (Nat.le_gt_cases (offset + n) (List.length out)) as [Hfit|Hshort].
    + destruct (encode_block_window (field_type f) t (LField (name f)) 0 o [] 0
                  offset out Hin Hfit) as (b & bytes' & u' & _ & Hbl & ->).
      fold n in Hbl |- *. cbn [st_offset st_buf].
      apply IH; [done| |]; rewrite !length_app, length_take, length_drop, Hbl; lia.
    + by rewrite (encode_block_short (field_type f) t) by done.
Qed.

Lemma encode_fn_fields structs array_len hook_encode fuel s output o :
  find_struct structs (struct_name s) = Some s ->
  forallb scalar_field (fields s) = true ->
  (struct_size (fields s) <= List.length output)%nat ->
  exists bs,
    encode_fields (fields s) o = Some bs
    /\ List.length bs = struct_size (fields s)
    /\ encode_fn structs array_len hook_encode (S fuel) (struct_name s) true
                 (Some output) (Some o)
       = Some (EncOk (bs ++ drop (struct_size (fields s)) output)
                     (drop (struct_size (fields s)) output)).
Proof.
  intros Hfind Hsc Hlen.
  destruct (encode_fields_scalar (fields s) o Hsc) as (bs & Hbs & Hbl).
  exists bs. split; [done|]. split; [done|].
  rewrite (encode_fn_scalar structs array_len hook_encode fuel s output o
             (inr (struct_size (fields s),
                   (bs ++ drop (struct_size (fields s)) output)%list)) Hfind Hsc).
  - unfold buf_from_buf. rewrite length_app, length_drop, Hbl.
    destruct (Nat.leb_spec (struct_size (fields s))
                (struct_size (fields s) + (List.length output - struct_size (fields s))));
      [|lia].
    cbn [check_buf_err]. rewrite <- Hbl. by rewrite drop_app_length.
  - intros step Hstep.
    exact (scalar_steps_ok o step Hstep (fields s) [] output bs Hsc Hlen Hbs).
Qed.

(** X10: given an output buffer shorter than the fields of a struct of scalar
    fields take together, the encode function returns
    CODEC_ERR_OUT_OF_BOUNDS. *)
Theorem encode_struct_short structs array_len hook_encode fuel s output o :
  find_struct structs (struct_name s) = Some s ->
  forallb scalar_field (fields s) = true ->
  (List.length output < struct_size (fields s))%nat ->
  encode_fn structs array_len hook_encode (S fuel) (struct_name s) true
            (Some output) (Some o)
  = Some (EncErr CODEC_ERR_OUT_OF_BOUNDS).
Proof.
  intros Hfind Hsc Hlen.
  rewrite (encode_fn_scalar structs array_len hook_encode fuel s output o
             (inl CODEC_ERR_OUT_OF_BOUNDS) Hfind Hsc); [done|].
  intros step Hstep. apply (scalar_steps_short o step Hstep); [done|lia|lia].
Qed.

Lemma encode_struct_short_witness :
  encode_fn [mixed] (fun _ => 0%nat) (fun _ _ _ out => (CODEC_OK, out)) 1
            (struct_name mixed) true (Some [0; 0; 0; 0; 0]) (Some mixed_value)
  = Some (EncErr CODEC_ERR_OUT_OF_BOUNDS).
Proof.
  apply (encode_struct_short [mixed] (fun _ => 0%nat) (fun _ _ _ out => (CODEC_OK, out))
           0 mixed).
  - reflexivity.
  - reflexivity.
  - vm_compute. lia.
Defined.

(** X11: with room for every field, the encode function of a struct of scalar
    fields returns CODEC_OK, writes the bytes of the fields one after the
    other over the start of the output buffer and nothing else, and leaves
    in remaining_output_buf the output beyond the size of the struct. *)
Theorem encode_struct_ok structs array_len hook_encode fuel s output o :
  find_struct structs (struct_name s) = Some s ->
  forallb scalar_field (fields s) = true ->
  (struct_size (fields s) <= List.length output)%nat ->
  exists bs,
    encode_fields (fields s) o = Some bs
    /\ List.length bs = struct_size (fields s)
    /\ encode_fn structs array_len hook_encode (S fuel) (struct_name s) true
                 (Some output) (Some o)
       = Some (EncOk (bs ++ drop (struct_size (fields s)) output)
                     (drop (struct_size (fields s)) output)).
Proof. apply encode_fn_fields. Qed.

Lemma encode_struct_ok_witness :
  exists bs,
    encode_fields (fields mixed) mixed_value = Some bs
    /\ List.length bs = struct_size (fields mixed)
    /\ encode_fn [mixed] (fun _ => 0%nat) (fun _ _ _ out => (CODEC_OK, out)) 1
                 (struct_name mixed) true (Some [9; 9; 9; 9; 9; 9; 9; 9])
                 (Some mixed_value)
       = Some (EncOk (bs ++ drop (struct_size (fields mixed)) [9; 9; 9; 9; 9; 9; 9; 9])
                     (drop (struct_size (fields mixed)) [9; 9; 9; 9; 9; 9; 9; 9])).
Proof.
  apply (encode_struct_ok [mixed] (fun _ => 0%nat) (fun _ _ _ out => (CODEC_OK, out))
           0 mixed).
  - reflexivity.
  - reflexivity.
  - vm_compute. lia.
Defined.

End StructEncode.

Section StructRoundTrip.

Import StructCodec.

Lemma decode_encoded_fields (o : obj) fs :
  Forall (int_field_ok o) fs ->
  forall acc bs rest (o0 : obj),
    encode_fields fs o = Some bs ->
    exists o' : obj,
      decode_fields fs (acc ++ bs ++ rest) (List.length acc) o0 = Some o'
      /\ (forall f, In f fs -> o' !! [(name f, 0%nat)] = Some (obj_get o [(name f, 0%nat)]))
      /\ (forall k, (forall f, In f fs -> [(name f, 0%nat)] <> k) -> o' !! k = o0 !! k).
Proof.
  induction fs as [|f fs IH]; intros Hok acc bs rest o0 Hbs.
  - exists o0. split; [done|]. split; [by intros f []|done].
  - apply Forall_cons_1 in Hok as [(t & Hin & Hint & Hr & H31) Hok].
    rewrite encode_fields_cons in Hbs.
    destruct (integer_decode_encode (field_type f) t _ Hin Hint Hr H31)
      as (b & Hb & Hbl & Hdec).
    rewrite Hb in Hbs. destruct (encode_fields fs o) as [bs'|] eqn:Hbs'; [|done].
    injection Hbs as <-.
    destruct (IH Hok (acc ++ b)%list bs' rest
                (<[ [(name f, 0%nat)] := obj_get o [(name f, 0%nat)] ]> o0) eq_refl)
      as (o' & Hd & Hin' & Hframe).
    exists o'. cbn [decode_fields].
    assert (take (Py.dict_get type_sizes (field_type f) 0%nat)
                 (drop (List.length acc) (acc ++ (b ++ bs') ++ rest)) = b) as ->.
    { rewrite drop_app_length, <- app_assoc, <- Hbl. apply take_app_length. }
    rewrite Hdec. rewrite length_app, Hbl in Hd.
    replace (acc ++ (b ++ bs') ++ rest)%list with ((acc ++ b) ++ bs' ++ rest)%list
      by (by rewrite <- !app_assoc).
    split; [done|]. split.
    + intros g [<-|Hg]; [|by apply Hin'].
      destruct (decide (Exists (fun g => [(name g, 0%nat)] = [(name f, 0%nat)]) fs))
        as [Hex|Hnex].
      * apply Exists_exists in Hex as (g & Hg & Heq).
        rewrite <- Heq. by apply Hin'.
      * rewrite Hframe; [by rewrite lookup_insert_eq|].
        intros g Hg Heq. apply Hnex, Exists_exists. exists g.
        by split.
    + intros k Hk. rewrite Hframe by (intros g Hg; apply Hk; by right).
      apply lookup_insert_ne. apply Hk. by left.
Qed.

(** X12: for a struct of integer fields whose values are in the range of
    their types (and, for the types of four bytes, have bit 31 clear), the
    decode function run on what the encode function wrote returns CODEC_OK
    with a block holding the value of every field, and both functions leave
    the same bytes unconsumed. *)
Theorem struct_encode_then_decode (structs : list Struct) (array_len : string -> nat)
        (hook_encode : string -> string -> obj -> list Z -> codec_err * list Z)
        (hook_decode : string -> string -> list Z -> codec_err)
        (fuel : nat) (s : Struct) (output : list Z) (o : obj) (m : mstate) :
  find_struct structs (struct_name s) = Some s ->
  forallb scalar_field (fields s) = true ->
  Forall (int_field_ok o) (fields s) ->
  (struct_size (fields s) <= List.length output)%nat ->
  (0 < m_avail m)%nat ->
  exists out rest (o' : obj),
    encode_fn structs array_len hook_encode (S fuel) (struct_name s) true
              (Some output) (Some o)
    = Some (EncOk out rest)
    /\ decode_fn structs array_len hook_decode (S fuel) (struct_name s) true true
                 (Some out) m
       = Some (mk_dres CODEC_OK (Some (PBlock (m_next m)))
                 (mk_mstate (<[m_next m := o']> (m_live m)) (S (m_next m))
                            (Nat.pred (m_avail m)) (Some rest) (m_trace m)))
    /\ forall f, In f (fields s) ->
                 obj_get o' [(name f, 0%nat)] = obj_get o [(name f, 0%nat)].
Proof.
  intros Hfind Hsc Hok Hlen Hav.
  destruct (encode_fn_fields structs array_len hook_encode fuel s output o Hfind Hsc Hlen)
    as (bs & Hbs & Hbl & Henc).
  destruct (decode_encoded_fields o (fields s) Hok [] bs
              (drop (struct_size (fields s)) output) ∅ Hbs) as (o' & Hd & Hval & _).
  cbn [app List.length] in Hd.
  exists (bs ++ drop (struct_size (fields s)) output)%list,
         (drop (struct_size (fields s)) output), o'.
  split; [done|]. split.
  - rewrite (decode_fn_fields structs array_len hook_decode fuel s _ m o' Hfind Hsc Hav Hd).
    do 3 f_equal. rewrite <- Hbl. by rewrite drop_app_length.
  - intros f Hf. unfold obj_get at 1. by rewrite (Hval f Hf).
Qed.

Lemma struct_encode_then_decode_witness :
  exists out rest (o' : obj),
    encode_fn [mixed] (fun _ => 0%nat) (fun _ _ _ out => (CODEC_OK, out)) 1
              (struct_name mixed) true (Some [9; 9; 9; 9; 9; 9; 9; 9]) (Some mixed_value)
    = Some (EncOk out rest)
    /\ decode_fn [mixed] (fun _ => 0%nat) (fun _ _ _ => CODEC_OK) 1 (struct_name mixed)
                 true true (Some out) (init_mstate 1)
       = Some (mk_dres CODEC_OK (Some (PBlock (m_next (init_mstate 1))))
                 (mk_mstate (<[m_next (init_mstate 1) := o']> (m_live (init_mstate 1)))
                            (S (m_next (init_mstate 1)))
                            (Nat.pred (m_avail (init_mstate 1))) (Some rest)
                            (m_trace (init_mstate 1))))
    /\ forall f, In f (fields mixed) ->
                 obj_get o' [(name f, 0%nat)] = obj_get mixed_value [(name f, 0%nat)].
Proof.
  apply (struct_encode_then_decode [mixed] (fun _ => 0%nat)
           (fun _ _ _ out => (CODEC_OK, out)) (fun _ _ _ => CODEC_OK) 0 mixed).
  - reflexivity.
  - reflexivity.
  - repeat constructor.
    + exists (uint_t 16). split; [repeat (first [left; reflexivity | right])|]. split; [reflexivity|].
      split; [vm_compute; split; [discriminate|reflexivity]|]. intros H. discriminate H.
    + exists (uint_t 8). split; [repeat (first [left; reflexivity | right])|]. split; [reflexivity|].
      split; [vm_compute; split; [discriminate|reflexivity]|]. intros H. discriminate H.
    + exists (uint_t 32). split; [repeat (first [left; reflexivity | right])|]. split; [reflexivity|].
      split; [vm_compute; split; [discriminate|reflexivity]|].
      intros _. vm_compute. split; [discriminate|reflexivity].
  - vm_compute. lia.
  - simpl. lia.
Defined.

End StructRoundTrip.

(** ** The dispose function *)
Section Dispose.

Import StructCodec.

Lemma foldM_hooks sname p (step : Field -> mstate -> option mstate) fs m :
  (forall f m, In f fs ->
     step f m = if is_pointer f
                then Some (log_event (EvHookDispose sname (name f) p) m)
                else Some m) ->
  foldM step fs m
  = Some (mk_mstate (m_live m) (m_next m) (m_avail m) (m_remaining m)
            (m_trace m ++ map (fun f => EvHookDispose sname (name f) p)
                              (List.filter is_pointer fs))).
Proof.
  revert m. induction fs as [|f fs IH]; intros m Hstep.
  - simpl. rewrite app_nil_r. by destruct m.
  - cbn [foldM List.filter]. rewrite Hstep by (by left).
    destruct (is_pointer f).
    + rewrite IH by (intros; apply Hstep; by right).
      cbn [log_event m_live m_next m_avail m_remaining m_trace map].
      by rewrite <- app_assoc.
    + apply IH. intros; apply Hstep; by right.
Qed.

(** X13: for a struct without embedded structs, the dispose function calls
    the user's dispose hook of every pointer field, in declaration order,
    and then frees the struct once; it does nothing else. *)
Theorem dispose_hooks_then_free structs array_len fuel s p m :
  find_struct structs (struct_name s) = Some s ->
  (forall f, In f (fields s) ->
     is_pointer f = true \/ Py.startswith "struct " (field_type f) = false) ->
  dispose_fn structs array_len (S fuel) (struct_name s) (Some p) m
  = Some (free p
            (mk_mstate (m_live m) (m_next m) (m_avail m) (m_remaining m)
               (m_trace m ++ map (fun f => EvHookDispose (struct_name s) (name f) p)
                                 (List.filter is_pointer (fields s))))).
Proof.
  intros Hfind Hfields. cbn [dispose_fn]. rewrite Hfind.
  rewrite (foldM_hooks (struct_name s) p); [done|].
  intros f m' Hin. destruct (is_pointer f) eqn:Hp; [done|].
  destruct (Hfields f Hin) as [Hp'|Hs]; [congruence|].
  rewrite Hs. by rewrite andb_false_r.
Qed.

Lemma dispose_hooks_then_free_witness :
  dispose_fn [with_pointer] (fun _ => 0%nat) 1 (struct_name with_pointer)
             (Some (PBlock 0)) (mk_mstate {[ 0%nat := ∅ ]} 1 0 None [])
  = Some (free (PBlock 0)
            (mk_mstate (m_live (mk_mstate {[ 0%nat := ∅ ]} 1 0 None []))
               (m_next (mk_mstate {[ 0%nat := ∅ ]} 1 0 None []))
               (m_avail (mk_mstate {[ 0%nat := ∅ ]} 1 0 None []))
               (m_remaining (mk_mstate {[ 0%nat := ∅ ]} 1 0 None []))
               (m_trace (mk_mstate {[ 0%nat := ∅ ]} 1 0 None [])
                ++ map (fun f => EvHookDispose (struct_name with_pointer) (name f) (PBlock 0))
                       (List.filter is_pointer (fields with_pointer))))).
Proof.
  apply (dispose_hooks_then_free [with_pointer] (fun _ => 0%nat) 0 with_pointer).
  - reflexivity.
  - intros f [<-|[<-|[<-|[]]]]; [right|left|right]; reflexivity.
Defined.

End Dispose.

(** ** Bit-fields sharing a container *)
Section BitFieldFrame.

Lemma testbit_above x k m : 0 <= x < 2 ^ k -> 0 <= k <= m -> Z.testbit x m = false.
Proof.
  intros Hx Hk. destruct (Z.eq_dec x 0) as [->|Hne]; [apply Z.bits_0|].
  apply Z.bits_above_log2; [lia|].
  assert (Z.log2 x < k) by (apply Z.log2_lt_pow2; lia). lia.
Qed.

Lemma ity_wrap_testbit_wide t z k :
  0 <= k < Pdl.ity_bits t -> Z.testbit (Pdl.ity_wrap t z) k = Z.testbit z k.
Proof. intros Hk. unfold Pdl.ity_wrap. by apply convert_testbit. Qed.

Lemma int_type_cases cs cw :
  In (cs, cw) (map snd Pdl.int_types) -> cw = 8 \/ cw = 16 \/ cw = 32 \/ cw = 64.
Proof.
  simpl. intros H.
  repeat (destruct H as [H|H]; [inversion H; lia|]). destruct H.
Qed.

(** Bits 32 to 63 of a 64-bit container survive the two assignments. *)
Lemma set_bits_testbit_high cs vw (start len : nat) v c m :
  (len <= 30)%nat -> (start + len <= 31)%nat -> Z.of_nat len <= vw <= 32 ->
  32 <= m < 64 ->
  Z.testbit (Pdl.set_bits cs 64 vw start len v c) m = Z.testbit c m.
Proof.
  intros Hl Hs Hvw Hm. unfold Pdl.set_bits.
  set (mask := Pdl.mk_cint Pdl.I32 (Z.ones (Z.of_nat len))).
  set (vm := Pdl.c_and (Pdl.promote false vw (Pdl.convert false vw v)) mask).
  assert (0 <= Z.shiftl (Z.ones (Z.of_nat len)) (Z.of_nat start) < 2 ^ 31) as Hclear.
  { apply (shiftl_bound _ len); [|lia]. rewrite Z.ones_equiv.
    assert (0 < 2 ^ Z.of_nat len) by (apply Z.pow_pos_nonneg; lia). lia. }
  assert (0 <= Z.shiftl (Pdl.val vm) (Z.of_nat start) < 2 ^ 31) as Hbits.
  { apply (shiftl_bound _ len); [|lia]. by apply c_and_mask_bound. }
  assert (Pdl.ity_bits (Pdl.common (Pdl.ty (Pdl.promote cs 64 c)) Pdl.I32) = 64) as Hty1.
  { unfold Pdl.promote. simpl. by destruct cs. }
  rewrite convert_testbit by lia.
  unfold Pdl.c_or at 1. cbn [Pdl.val Pdl.ty].
  assert (forall x, Pdl.ty (Pdl.promote cs 64 x) = if cs then Pdl.I64 else Pdl.U64) as Hp.
  { intros x. unfold Pdl.promote. simpl. done. }
  assert (Pdl.ty vm = Pdl.I32 \/ Pdl.ty vm = Pdl.U32) as Hvm.
  { unfold vm, Pdl.c_and, mask, Pdl.promote. cbn [Pdl.ty].
    destruct (Z.ltb_spec vw 32); [by left|].
    destruct (Z.eqb_spec vw 32); [by right|lia]. }
  assert (Pdl.ity_bits
            (Pdl.common (Pdl.ty (Pdl.promote cs 64
               (Pdl.convert cs 64
                  (Pdl.val (Pdl.c_and (Pdl.promote cs 64 c)
                     (Pdl.c_not (Pdl.mk_cint Pdl.I32
                        (Pdl.ity_wrap Pdl.I32
                           (Z.shiftl (Z.ones (Z.of_nat len)) (Z.of_nat start))))))))))
               (Pdl.ty vm)) = 64) as Hty2.
  { rewrite Hp. destruct Hvm as [-> | ->]; by destruct cs. }
  rewrite Z.lor_spec. rewrite !ity_wrap_testbit_wide by (rewrite Hty2; lia).
  rewrite promote_val. rewrite convert_testbit by lia.
  rewrite (testbit_above (Pdl.ity_wrap (Pdl.ty vm) _) 31 m);
    [|rewrite ity_wrap_small by done; done|lia].
  rewrite orb_false_r.
  unfold Pdl.c_and at 1. cbn [Pdl.val Pdl.ty Pdl.c_not].
  rewrite Z.land_spec. rewrite !ity_wrap_testbit_wide by (rewrite Hty1; lia).
  rewrite promote_val.
  rewrite (ity_wrap_small Pdl.I32 (Z.shiftl _ _)) by done.
  assert (Pdl.ity_wrap Pdl.I32 (Z.lnot (Z.shiftl (Z.ones (Z.of_nat len)) (Z.of_nat start)))
          = Z.lnot (Z.shiftl (Z.ones (Z.of_nat len)) (Z.of_nat start))) as ->.
  { unfold Pdl.ity_wrap, Pdl.convert. simpl Pdl.ity_signed. cbv iota.
    apply wrap_signed_small; [simpl; lia|]. simpl Pdl.ity_bits.
    change (2 ^ (32 - 1)) with (2 ^ 31).
    revert Hclear. generalize (Z.shiftl (Z.ones (Z.of_nat len)) (Z.of_nat start)).
    intros x Hx. unfold Z.lnot. change (2 ^ 31) with 2147483648 in *.
    rewrite <- Z.sub_1_r. clear -Hx. lia. }
  rewrite Z.lnot_spec by lia.
  rewrite (testbit_above (Z.shiftl (Z.ones (Z.of_nat len)) (Z.of_nat start)) 31 m)
    by (done || lia).
  apply andb_true_r.
Qed.

Lemma set_bits_testbit_any cs cw vw (start len : nat) v c m :
  In (cs, cw) (map snd Pdl.int_types) ->
  (len <= 30)%nat -> (start + len <= 31)%nat -> Z.of_nat len <= vw <= 32 ->
  0 <= m < cw ->
  Z.testbit (Pdl.set_bits cs cw vw start len v c) m
  = if (Z.of_nat start <=? m) && (m <? Z.of_nat start + Z.of_nat len)
    then Z.testbit v (m - Z.of_nat start)
    else Z.testbit c m.
Proof.
  intros Hty Hl Hs Hvw Hm.
  destruct (Z.lt_ge_cases m 32) as [Hlow|Hhigh].
  - apply set_bits_testbit; lia.
  - assert (cw = 64) as -> by (destruct (int_type_cases cs cw Hty) as [|[|[|]]]; lia).
    rewrite set_bits_testbit_high by lia.
    destruct (Z.leb_spec (Z.of_nat start) m); [|lia].
    destruct (Z.ltb_spec m (Z.of_nat start + Z.of_nat len)); [lia|done].
Qed.

(** X14: the setter of a bit-field changes no bit of the container outside
    the field. *)
Theorem setter_keeps_other_bits cs cw name info v (msg : gmap string Z) c m :
  In (cs, cw) (map snd Pdl.int_types) ->
  (Pdl.length info <= 30)%nat ->
  (Pdl.start_bit info + Pdl.length info <= 31)%nat ->
  name <> Pdl.container info ->
  msg !! Pdl.container info = Some c ->
  0 <= m < cw ->
  m < Z.of_nat (Pdl.start_bit info)
  \/ Z.of_nat (Pdl.start_bit info + Pdl.length info) <= m ->
  exists msg' c',
    Pdl.setter cs cw name info v msg = Some msg'
    /\ msg' !! Pdl.container info = Some c'
    /\ Z.testbit c' m = Z.testbit c m.
Proof.
  intros Hty Hl Hs Hne Hc Hm Hout.
  destruct (value_type (Pdl.length info) ltac:(lia)) as (vw & Hvt & Hvw).
  eexists _, _. split; [by apply (setter_eq _ _ _ _ _ _ c vw)|].
  split; [rewrite lookup_insert_ne by done; apply lookup_insert_eq|].
  rewrite (set_bits_testbit_any cs cw vw) by (done || lia).
  destruct (Z.leb_spec (Z.of_nat (Pdl.start_bit info)) m); [|done].
  destruct (Z.ltb_spec m (Z.of_nat (Pdl.start_bit info) + Z.of_nat (Pdl.length info)));
    [lia|done].
Qed.

Lemma setter_keeps_other_bits_witness :
  exists msg' c',
    Pdl.setter false 8 "mode" Pdl.flags_2_3 5 {[ "flags" := 255 ]} = Some msg'
    /\ msg' !! Pdl.container Pdl.flags_2_3 = Some c'
    /\ Z.testbit c' 6 = Z.testbit 255 6.
Proof.
  apply (setter_keeps_other_bits false 8 "mode" Pdl.flags_2_3 5 {[ "flags" := 255 ]} 255 6).
  - repeat (first [left; reflexivity | right]).
  - simpl. lia.
  - simpl. lia.
  - discriminate.
  - reflexivity.
  - lia.
  - right. simpl. lia.
Defined.

Lemma mask_expr_none (len : nat) : (30 < len)%nat -> Pdl.mask_expr len = None.
Proof.
  intros Hlen. unfold Pdl.mask_expr, Pdl.c_shl, Pdl.c_lit. cbn [Pdl.val Pdl.ty Pdl.ity_bits
    Pdl.ity_signed].
  destruct (Z.ltb_spec (Z.of_nat len) 32) as [Hlt|Hge]; [|by rewrite andb_false_r].
  assert (len = 31%nat) as -> by lia. reflexivity.
Qed.

Lemma promote_ty s w z z' : Pdl.ty (Pdl.promote s w z) = Pdl.ty (Pdl.promote s w z').
Proof. unfold Pdl.promote. by repeat case_match. Qed.

Lemma promote_bits cs cw z :
  In (cs, cw) (map snd Pdl.int_types) -> cw <= Pdl.ity_bits (Pdl.ty (Pdl.promote cs cw z)).
Proof.
  intros H. simpl in H.
  repeat (destruct H as [H|H]; [inversion H; subst; vm_compute; discriminate|]).
  destruct H.
Qed.

Lemma getter_agree cs cw info (msg msg' : gmap string Z) c c' :
  msg !! Pdl.container info = Some c -> msg' !! Pdl.container info = Some c' ->
  ((Pdl.length info <= 30)%nat ->
   Z.of_nat (Pdl.start_bit info) < Pdl.ity_bits (Pdl.ty (Pdl.promote cs cw c)) ->
   forall k, 0 <= k < Z.of_nat (Pdl.length info) ->
     Z.testbit (Pdl.ity_wrap (Pdl.ty (Pdl.promote cs cw c))
                  (Z.shiftr c' (Z.of_nat (Pdl.start_bit info)))) k
     = Z.testbit (Pdl.ity_wrap (Pdl.ty (Pdl.promote cs cw c))
                    (Z.shiftr c (Z.of_nat (Pdl.start_bit info)))) k) ->
  Pdl.getter cs cw info msg' = Pdl.getter cs cw info msg.
Proof.
  intros Hc Hc' Hbits. unfold Pdl.getter.
  destruct (Py.dict_find Pdl.int_types (Pdl.get_bit_field_type (Pdl.length info)))
    as [[rs rw]|]; [|done].
  cbn [mbind option_bind]. rewrite Hc, Hc'. cbn [mbind option_bind].
  destruct (le_lt_dec (Pdl.length info) 30) as [Hl|Hl];
    [|by rewrite mask_expr_none by lia].
  rewrite mask_expr_ones by done. cbn [mbind option_bind].
  unfold Pdl.c_shr, Pdl.c_lit. cbn [Pdl.val Pdl.ty].
  rewrite (promote_ty cs cw c' c), !promote_val.
  destruct (Z.leb_spec 0 (Z.of_nat (Pdl.start_bit info))); [|lia].
  destruct (Z.ltb_spec (Z.of_nat (Pdl.start_bit info))
              (Pdl.ity_bits (Pdl.ty (Pdl.promote cs cw c)))) as [Hs|Hs]; [|done].
  cbn [andb mbind option_bind]. do 2 f_equal.
  unfold Pdl.c_and. cbn [Pdl.val Pdl.ty].
  assert (Pdl.common (Pdl.ty (Pdl.promote cs cw c)) Pdl.I32
          = Pdl.ty (Pdl.promote cs cw c)) as ->.
  { unfold Pdl.promote. by repeat case_match. }
  rewrite (ity_wrap_small _ (Z.ones _)) by (apply ones_bound; lia).
  rewrite !Z.land_ones by lia.
  apply Z.bits_inj'. intros k Hk.
  destruct (Z.lt_ge_cases k (Z.of_nat (Pdl.length info))).
  - rewrite !Z.mod_pow2_bits_low by lia. apply Hbits; [done|done|lia].
  - by rewrite !Z.mod_pow2_bits_high by lia.
Qed.

(** X15: setting one bit-field (of at most 30 bits and ending at or below
    bit 31, where the shifts of the setter have a value) does not change
    what the getter of another bit-field returns that lies inside the same
    container and does not overlap the first. *)
Theorem bit_fields_independent cs cw name a b v (msg : gmap string Z) c :
  In (cs, cw) (map snd Pdl.int_types) ->
  Pdl.container a = Pdl.container b ->
  name <> Pdl.container a ->
  (Pdl.length a <= 30)%nat -> (Pdl.start_bit a + Pdl.length a <= 31)%nat ->
  Z.of_nat (Pdl.start_bit b + Pdl.length b) <= cw ->
  (Pdl.start_bit a + Pdl.length a <= Pdl.start_bit b
   \/ Pdl.start_bit b + Pdl.length b <= Pdl.start_bit a)%nat ->
  msg !! Pdl.container a = Some c ->
  exists msg',
    Pdl.setter cs cw name a v msg = Some msg'
    /\ Pdl.getter cs cw b msg' = Pdl.getter cs cw b msg.
Proof.
  intros Hty Hcont Hne Hla Hsa Hcw Hdisj Hc.
  destruct (value_type (Pdl.length a) ltac:(lia)) as (vw & Hvt & Hvw).
  eexists. split; [by apply (setter_eq _ _ _ _ _ _ c vw)|].
  apply (getter_agree cs cw b msg _ c
           (Pdl.set_bits cs cw vw (Pdl.start_bit a) (Pdl.length a) v c)).
  - by rewrite <- Hcont.
  - rewrite <- Hcont. rewrite lookup_insert_ne by done. apply lookup_insert_eq.
  - intros Hlb Hsb k Hk.
    pose proof (promote_bits cs cw c Hty) as Hbits.
    rewrite !ity_wrap_testbit_wide by lia. rewrite !Z.shiftr_spec by lia.
    rewrite (set_bits_testbit_any cs cw vw) by (done || lia).
    destruct (Z.leb_spec (Z.of_nat (Pdl.start_bit a)) (k + Z.of_nat (Pdl.start_bit b)));
      [|done].
    destruct (Z.ltb_spec (k + Z.of_nat (Pdl.start_bit b))
                (Z.of_nat (Pdl.start_bit a) + Z.of_nat (Pdl.length a))); [lia|done].
Qed.

Lemma bit_fields_independent_witness :
  exists msg',
    Pdl.setter false 64 "mode" (Pdl.mk_bit_source "flags" 8 4) 5
               {[ "flags" := 18446744073709551615 ]} = Some msg'
    /\ Pdl.getter false 64 Pdl.flags_40_4 msg'
       = Pdl.getter false 64 Pdl.flags_40_4 {[ "flags" := 18446744073709551615 ]}.
Proof.
  apply (bit_fields_independent false 64 "mode" (Pdl.mk_bit_source "flags" 8 4)
           Pdl.flags_40_4 5 {[ "flags" := 18446744073709551615 ]} 18446744073709551615).
  - repeat (first [left; reflexivity | right]).
  - reflexivity.
  - discriminate.
  - simpl. lia.
  - simpl. lia.
  - simpl. lia.
  - left. simpl. lia.
  - reflexivity.
Defined.

End BitFieldFrame.

(** ** Constants and other definitions of a unit *)
Section PdlProcess.

Lemma process_loop_constants defs ms cs n :
  (Pdl.process_loop defs ms cs n).1.2
  = (cs ++ map Pdl.generate_constant (List.filter Pdl.is_constant defs))%list.
Proof.
  revert ms cs n. induction defs as [|defn defs IH]; intros ms cs n; simpl.
  - by rewrite app_nil_r.
  - unfold Pdl.is_constant at 1.
    destruct (String.eqb_spec (Pdl.def_type defn) "message") as [Hm|Hm].
    + rewrite Hm. simpl. apply IH.
    + destruct (String.eqb (Pdl.def_type defn) "constant").
      * rewrite IH. by rewrite <- app_assoc.
      * apply IH.
Qed.

Lemma process_constants ns defs :
  Pdl.constants (Pdl.process ns defs)
  = map Pdl.generate_constant (List.filter Pdl.is_constant defs).
Proof.
  unfold Pdl.process.
  pose proof (process_loop_constants defs [] [] 1) as H.
  destruct (Pdl.process_loop defs [] [] 1) as [[ms cs] n]. simpl in *.
  by subst.
Qed.

Lemma regroup_lines {T} (a e d r : list T) c1 c2 c3 :
  (a ++ e ++ [c1; c2; c3] ++ d ++ r = (a ++ e ++ [c1; c2]) ++ [c3] ++ d ++ r)%list.
Proof. by rewrite <- !app_assoc. Qed.

(** X16: the constants of a unit are generated in definition order, one per
    constant definition, whatever lies between them, and the header lists
    their #define lines in that order right after the Constants comment. *)
Theorem constants_in_order ns defs filename :
  Pdl.constants (Pdl.process ns defs)
  = map Pdl.generate_constant (List.filter Pdl.is_constant defs)
  /\ exists before after,
       Pdl.generate_header_lines ns (Pdl.process ns defs) filename
       = (before ++ ["/* Constants */"]
          ++ map (fun defn =>
                    let const := Pdl.generate_constant defn in
                    "#define " ++ Pdl.const_name const ++ " ((" ++ Pdl.const_type const
                    ++ ")" ++ pretty (Pdl.const_value const) ++ ")")%string
                 (List.filter Pdl.is_constant defs)
          ++ after)%list.
Proof.
  split; [apply process_constants|].
  unfold Pdl.generate_header_lines. rewrite process_constants.
  rewrite (map_map Pdl.generate_constant).
  eexists _, _. apply regroup_lines.
Qed.

Lemma process_loop_filter defs ms cs n :
  Pdl.process_loop (List.filter (fun d => Pdl.is_message d || Pdl.is_constant d) defs)
                   ms cs n
  = Pdl.process_loop defs ms cs n.
Proof.
  revert ms cs n. induction defs as [|defn defs IH]; intros ms cs n; [done|].
  cbn [List.filter]. unfold Pdl.is_message at 1, Pdl.is_constant at 1.
  cbn [Pdl.process_loop].
  destruct (String.eqb (Pdl.def_type defn) "message") eqn:Hm.
  - cbn [orb Pdl.process_loop]. rewrite Hm. apply IH.
  - destruct (String.eqb (Pdl.def_type defn) "constant") eqn:Hc.
    + cbn [orb Pdl.process_loop]. rewrite Hm, Hc. apply IH.
    + cbn [orb]. apply IH.
Qed.

(** X17: definitions that are neither messages nor constants leave no trace:
    the header of a unit is the header of the unit without them. *)
Theorem other_definitions_ignored ns filename defs :
  Pdl.compile_unit ns filename defs
  = Pdl.compile_unit ns filename
      (List.filter (fun d => Pdl.is_message d || Pdl.is_constant d) defs).
Proof.
  unfold Pdl.compile_unit, Pdl.process. by rewrite process_loop_filter.
Qed.

End PdlProcess.

(** ** The accessors of an array field *)
Section ArrayAccessors.

Lemma get_has_char c s n : String.get n s = Some c -> Py.has_char c s = true.
Proof.
  revert n. induction s as [|c' s IH]; intros n; simpl; [done|].
  destruct n as [|n].
  - intros [= ->]. by rewrite Ascii.eqb_refl.
  - intros H. rewrite (IH n H). apply orb_true_r.
Qed.

Lemma suffix_not_prefix s :
  Py.has_char "*" s = false -> s <> EmptyString ->
  String.prefix "_array_t *" (s ++ "_array_t *") = false.
Proof.
  intros Hs Hne.
  destruct (String.prefix "_array_t *" (s ++ "_array_t *")) eqn:Hp; [|done].
  exfalso. apply prefix_correct in Hp.
  assert (String.get 9 (s ++ "_array_t *") = Some "*"%char) as Hget.
  { pose proof (substring_correct1 (s ++ "_array_t *") 0 10 9 ltac:(lia)) as H.
    rewrite Nat.add_0_r in H. rewrite <- H.
    change (String.length "_array_t *") with 10%nat in Hp. by rewrite Hp. }
  destruct (Nat.lt_ge_cases 9 (String.length s)) as [Hlt|Hge].
  - rewrite <- append_correct1 in Hget by done.
    apply get_has_char in Hget. congruence.
  - assert (0 < String.length s)%nat by (destruct s; [done|simpl; lia]).
    replace 9%nat with ((9 - String.length s) + String.length s)%nat in Hget by lia.
    rewrite <- append_correct2 in Hget.
    assert (9 - String.length s < 9)%nat as Hk by lia.
    revert Hget Hk. generalize (9 - String.length s)%nat. intros k.
    do 9 (destruct k as [|k]; [discriminate|]). lia.
Qed.

Lemma remove_array_suffix s :
  Py.has_char "*" s = false -> Py.remove_all "_array_t *" (s ++ "_array_t *") = s.
Proof.
  induction s as [|c s IH]; intros Hs; [by vm_compute|].
  unfold Py.remove_all.
  change (String c s ++ "_array_t *") with (String c (s ++ "_array_t *")).
  cbn [Py.remove_aux].
  change (String c (s ++ "_array_t *")) with (String c s ++ "_array_t *").
  rewrite suffix_not_prefix by done.
  f_equal. apply IH. simpl in Hs. by apply orb_false_iff in Hs as [_ ?].
Qed.

Lemma string_app_assoc (a b c : string) : (a ++ b) ++ c = a ++ b ++ c.
Proof.
  induction a as [|x a IH]; [done|].
  change (String x ((a ++ b) ++ c) = String x (a ++ b ++ c)). by rewrite IH.
Qed.

Lemma message_has_array_lines message field line :
  In field (Pdl.gm_fields message) -> Pdl.is_array field = true ->
  In line
     (let n := Pdl.gm_name message in
      let element_type := Py.remove_all "_array_t *" (Pdl.c_type field) in
      [ "ptk_err " ++ n ++ "_get_" ++ Pdl.gf_name field
          ++ "_element(const " ++ n ++ "_t *msg, size_t index, "
          ++ element_type ++ " *value);";
        "ptk_err " ++ n ++ "_set_" ++ Pdl.gf_name field ++ "_element("
          ++ n ++ "_t *msg, size_t index, " ++ element_type ++ " value);";
        "size_t " ++ n ++ "_get_" ++ Pdl.gf_name field
          ++ "_length(const " ++ n ++ "_t *msg);" ]) ->
  In line (Pdl.message_lines message).
Proof.
  intros Hf Hb Hl. unfold Pdl.message_lines. rewrite !in_app_iff.
  right. right. right. left.
  assert (In field (List.filter Pdl.is_array (Pdl.gm_fields message))) as Hin
    by (by apply filter_In).
  destruct (List.filter Pdl.is_array (Pdl.gm_fields message)) as [|f0 fs] eqn:Hfs;
    [destruct Hin|].
  rewrite in_app_iff. right. apply in_concat.
  eexists. split; [|exact Hl].
  apply (in_map (fun field : Pdl.GeneratedField => _) _ _ Hin).
Qed.

(** X18: for every array field of a message of the unit, the header holds
    the member line and the three accessor declarations of the field, all
    written with the C type of its elements. *)
Theorem array_accessors_use_element_type ns filename defs defn fields name et size :
  In defn defs -> Pdl.def_type defn = "message" ->
  Pdl.attributes defn = Pdl.TMessage fields ->
  In (Pdl.FArray name et size) fields ->
  Py.has_char "*" (Pdl.get_c_type et) = false ->
  let n := Pdl.def_name defn in
  let header := Pdl.generate_header_lines ns (Pdl.process ns defs) filename in
  In ("    " ++ Pdl.get_c_type et ++ "_array_t * " ++ name ++ ";") header
  /\ In ("ptk_err " ++ n ++ "_get_" ++ name ++ "_element(const " ++ n
         ++ "_t *msg, size_t index, " ++ Pdl.get_c_type et ++ " *value);") header
  /\ In ("ptk_err " ++ n ++ "_set_" ++ name ++ "_element(" ++ n
         ++ "_t *msg, size_t index, " ++ Pdl.get_c_type et ++ " value);") header
  /\ In ("size_t " ++ n ++ "_get_" ++ name ++ "_length(const " ++ n ++ "_t *msg);")
        header.
Proof.
  intros Hin Hm Ha Hf Hstar n header.
  destruct (message_generated ns defs defn Hin Hm) as [k Hk].
  set (field := Pdl.mk_GeneratedField name (Pdl.get_c_type et ++ "_array_t *")
                  true false None).
  assert (In field (Pdl.gm_fields (Pdl.generate_message k defn))) as Hgf
    by (by eapply generated_field_in).
  assert (forall line,
             In line (Pdl.message_lines (Pdl.generate_message k defn)) -> In line header)
    as Hhdr by (intros line; by apply header_has_message_lines).
  pose proof (message_has_array_lines (Pdl.generate_message k defn) field) as Harr.
  cbn zeta in Harr. cbn [Pdl.c_type Pdl.gf_name Pdl.gm_name field] in Harr.
  change (Pdl.gm_name (Pdl.generate_message k defn)) with n in Harr.
  change (Pdl.c_type field) with (Pdl.get_c_type et ++ "_array_t *") in Harr.
  change (Pdl.gf_name field) with name in Harr.
  rewrite remove_array_suffix in Harr by done.
  split.
  { apply Hhdr.
    pose proof (message_has_member_line (Pdl.generate_message k defn) field Hgf) as Hl.
    change (Pdl.c_type field) with (Pdl.get_c_type et ++ "_array_t *") in Hl.
    change (Pdl.gf_name field) with name in Hl.
    by rewrite string_app_assoc in Hl. }
  split; [apply Hhdr, Harr; [done|done|left; reflexivity]|].
  split; [apply Hhdr, Harr; [done|done|right; left; reflexivity]|].
  apply Hhdr, Harr; [done|done|right; right; left; reflexivity].
Qed.

Lemma array_accessors_use_element_type_witness :
  let n := Pdl.def_name (Pdl.definition "frame"
             (Pdl.TMessage [Pdl.FTypeRef "n" "u8"; Pdl.FArray "data" "u16" "n"])) in
  let header :=
    Pdl.generate_header_lines "ns" (Pdl.process "ns" Pdl.array_unit) "file" in
  In ("    " ++ Pdl.get_c_type "u16" ++ "_array_t * " ++ "data" ++ ";") header
  /\ In ("ptk_err " ++ n ++ "_get_" ++ "data" ++ "_element(const " ++ n
         ++ "_t *msg, size_t index, " ++ Pdl.get_c_type "u16" ++ " *value);") header
  /\ In ("ptk_err " ++ n ++ "_set_" ++ "data" ++ "_element(" ++ n
         ++ "_t *msg, size_t index, " ++ Pdl.get_c_type "u16" ++ " value);") header
  /\ In ("size_t " ++ n ++ "_get_" ++ "data" ++ "_length(const " ++ n ++ "_t *msg);")
        header.
Proof.
  apply (array_accessors_use_element_type "ns" "file" Pdl.array_unit
           (Pdl.definition "frame"
              (Pdl.TMessage [Pdl.FTypeRef "n" "u8"; Pdl.FArray "data" "u16" "n"]))
           [Pdl.FTypeRef "n" "u8"; Pdl.FArray "data" "u16" "n"] "data" "u16" "n").
  - left. reflexivity.
  - reflexivity.
  - reflexivity.
  - right. left. reflexivity.
  - reflexivity.
Defined.

End ArrayAccessors.

(** ** The matcher on runs of characters *)
Section RegexLemmas.

Import Text.

Lemma match_star_max {R} p prev w s (k : option ascii -> string -> option R) r :
  all_chars p w = true -> stops p s ->
  k (last_char prev w) s = Some r ->
  Regex.match_star p prev (w ++ s) k = Some r.
Proof.
  revert prev. induction w as [|c w IH]; intros prev Hw Hs Hk.
  - change (EmptyString ++ s) with s. cbn [last_char] in Hk.
    destruct s as [|c s]; [done|]. cbn [Regex.match_star]. cbn in Hs. by rewrite Hs.
  - change (String c w ++ s) with (String c (w ++ s)). cbn [Regex.match_star].
    cbn [all_chars] in Hw. apply andb_true_iff in Hw as [Hc Hw]. rewrite Hc.
    cbn [last_char] in Hk. by rewrite (IH (Some c) Hw Hs Hk).
Qed.

Lemma match_star_sound {R} p prev s (k : option ascii -> string -> option R) r :
  Regex.match_star p prev s k = Some r ->
  exists w s', s = w ++ s' /\ all_chars p w = true /\ k (last_char prev w) s' = Some r.
Proof.
  revert prev. induction s as [|c s IH]; intros prev H.
  - exists EmptyString, EmptyString. by repeat split.
  - cbn [Regex.match_star] in H. destruct (p c) eqn:Hc.
    + destruct (Regex.match_star p (Some c) s k) as [r'|] eqn:Hrec.
      * injection H as ->. destruct (IH _ Hrec) as (w & s' & -> & Hw & Hk).
        exists (String c w), s'. split; [done|]. split; [by cbn; rewrite Hc|done].
      * exists EmptyString, (String c s). by repeat split.
    + exists EmptyString, (String c s). by repeat split.
Qed.

Lemma match_star_total {R} p prev s (k : option ascii -> string -> option R) :
  (forall prev' s', is_Some (k prev' s')) ->
  is_Some (Regex.match_star p prev s k).
Proof.
  intros Hk. revert prev. induction s as [|c s IH]; intros prev; cbn [Regex.match_star].
  - apply Hk.
  - destruct (p c); [|apply Hk].
    destruct (IH (Some c)) as [r ->]. by eexists.
Qed.

End RegexLemmas.

Section FieldMatch.

Import StructCodec Text.

Lemma length_append (a b : string) :
  String.length (a ++ b) = (String.length a + String.length b)%nat.
Proof.
  induction a as [|c a IH]; [done|].
  change (String c a ++ b) with (String c (a ++ b)). simpl. by rewrite IH.
Qed.

Lemma substring_prefix (a b : string) :
  substring 0 (String.length (a ++ b) - String.length b) (a ++ b) = a.
Proof.
  rewrite length_append. replace (_ + _ - _)%nat with (String.length a) by lia.
  induction a as [|c a IH]; [by destruct b|].
  change (String c a ++ b) with (String c (a ++ b)). simpl. by rewrite IH.
Qed.

Lemma word_not_space c : Regex.is_word c = true -> Regex.is_space c = false.
Proof.
  unfold Regex.is_word, Regex.is_space, Py.is_space.
  generalize (nat_of_ascii c). intros n H.
  repeat match goal with
         | |- context [(?a <=? ?b)%nat] => destruct (Nat.leb_spec a b)
         | H : context [(?a <=? ?b)%nat] |- _ => destruct (Nat.leb_spec a b)
         | H : context [(?a =? ?b)%nat] |- _ => destruct (Nat.eqb_spec a b)
         end; simpl in *; try done; lia.
Qed.

Lemma word_not_star c : Regex.is_word c = true -> Ascii.eqb "*" c = false.
Proof.
  intros H. destruct (Ascii.eqb_spec "*" c) as [<-|]; [|done]. by vm_compute in H.
Qed.

End FieldMatch.

Section RegexEquations.

Import Text.

Context {R : Type}.
Implicit Types (k : option ascii -> string -> Regex.captures -> option R).

Lemma match_seq a b prev s caps k :
  Regex.match_re (Regex.Seq a b) prev s caps k
  = Regex.match_re a prev s caps
      (fun prev' s' caps' => Regex.match_re b prev' s' caps' k).
Proof. reflexivity. Qed.

Lemma match_group n a prev s caps k :
  Regex.match_re (Regex.Group n a) prev s caps k
  = Regex.match_re a prev s caps
      (fun prev' s' caps' =>
         k prev' s' (<[n := substring 0 (String.length s - String.length s') s]> caps')).
Proof. reflexivity. Qed.

Lemma match_alt a b prev s caps k :
  Regex.match_re (Regex.Alt a b) prev s caps k
  = match Regex.match_re a prev s caps k with
    | Some r => Some r
    | None => Regex.match_re b prev s caps k
    end.
Proof. reflexivity. Qed.

Lemma match_opt a prev s caps k :
  Regex.match_re (Regex.Opt a) prev s caps k
  = match Regex.match_re a prev s caps k with
    | Some r => Some r
    | None => k prev s caps
    end.
Proof. reflexivity. Qed.

Lemma match_star_eq p prev s caps k :
  Regex.match_re (Regex.Star p) prev s caps k
  = Regex.match_star p prev s (fun prev' s' => k prev' s' caps).
Proof. reflexivity. Qed.

Lemma match_plus_eq p prev s caps k :
  Regex.match_re (Regex.Plus p) prev s caps k
  = match s with
    | String c s' =>
        if p c then Regex.match_star p (Some c) s' (fun prev' s' => k prev' s' caps)
        else None
    | EmptyString => None
    end.
Proof. reflexivity. Qed.

Lemma match_star_re_max p prev w s caps k r :
  all_chars p w = true -> stops p s ->
  k (last_char prev w) s caps = Some r ->
  Regex.match_re (Regex.Star p) prev (w ++ s) caps k = Some r.
Proof. intros. rewrite match_star_eq. by apply match_star_max. Qed.

Lemma match_plus_max p prev c w s caps k r :
  p c = true -> all_chars p w = true -> stops p s ->
  k (last_char (Some c) w) s caps = Some r ->
  Regex.match_re (Regex.Plus p) prev (String c w ++ s) caps k = Some r.
Proof.
  intros Hc Hw Hs Hk. rewrite match_plus_eq.
  change (String c w ++ s) with (String c (w ++ s)). cbv iota. rewrite Hc.
  by apply match_star_max.
Qed.

Lemma match_lit_append l prev s :
  Regex.match_lit l prev (l ++ s) = Some (last_char prev l, s).
Proof.
  revert prev. induction l as [|c l IH]; intros prev; [by destruct s|].
  change (String c l ++ s) with (String c (l ++ s)). cbn [Regex.match_lit last_char].
  rewrite Ascii.eqb_refl. apply IH.
Qed.

Lemma match_lit_re l prev s caps k :
  Regex.match_re (Regex.Lit l) prev (l ++ s) caps k = k (last_char prev l) s caps.
Proof. cbn [Regex.match_re]. by rewrite match_lit_append. Qed.

Lemma append_empty (s : string) : s ++ EmptyString = s.
Proof.
  induction s as [|c s IH]; [done|].
  change (String c s ++ EmptyString) with (String c (s ++ EmptyString)). by rewrite IH.
Qed.

Lemma match_lit_whole l prev caps k :
  Regex.match_re (Regex.Lit l) prev l caps k = k (last_char prev l) EmptyString caps.
Proof. rewrite <- (append_empty l) at 2. apply match_lit_re. Qed.

End RegexEquations.

Section FieldMatch2.

Import StructCodec Text.

Lemma is_word_text_cons s :
  is_word_text s = true ->
  exists c s', s = String c s' /\ Regex.is_word c = true /\ all_chars Regex.is_word s' = true.
Proof.
  unfold is_word_text. destruct s as [|c s']; [done|]. cbn.
  intros H. apply andb_true_iff in H as [Hc Hs]. eauto.
Qed.

Lemma has_char_all c s :
  Py.has_char c s = false -> all_chars (fun x => negb (Ascii.eqb x c)) s = true.
Proof.
  induction s as [|x s IH]; [done|]. cbn [Py.has_char all_chars]. intros H.
  apply orb_false_iff in H as [Hx Hs]. by rewrite Hx, IH.
Qed.

Lemma substring_all (s : string) :
  substring 0 (String.length s - String.length EmptyString) s = s.
Proof.
  simpl. rewrite Nat.sub_0_r. induction s as [|c s IH]; [done|]. simpl. by rewrite IH.
Qed.

Lemma stars_stop_space stars rest :
  all_chars (Ascii.eqb "*") stars = true -> stops Regex.is_space rest ->
  stops Regex.is_space (stars ++ rest).
Proof.
  destruct stars as [|c stars]; [done|].
  change (String c stars ++ rest) with (String c (stars ++ rest)).
  cbn [all_chars stops]. intros H _.
  apply andb_true_iff in H as [Hc _]. apply Ascii.eqb_eq in Hc as <-. done.
Qed.

Lemma field_line_match ty nm stars (a : option string) :
  is_word_text ty = true -> is_word_text nm = true ->
  all_chars (Ascii.eqb "*") stars = true ->
  match a with
  | None => True
  | Some a => Py.nonempty a = true /\ Py.has_char "]" a = false
  end ->
  Regex.re_match field_pattern
    (ty ++ " " ++ stars ++ nm
     ++ match a with None => EmptyString | Some a => "[" ++ a ++ "]" end)
  = Some (let caps := <[3%nat := nm]> (<[2%nat := stars]> (<[1%nat := ty]> ∅)) in
          match a with
          | None => caps
          | Some a => <[4%nat := "[" ++ a ++ "]"]> (<[5%nat := a]> caps)
          end).
Proof.
  intros Hty Hnm Hst Ha.
  destruct (is_word_text_cons ty Hty) as (c1 & ty' & -> & Hc1 & Hty').
  destruct (is_word_text_cons nm Hnm) as (c3 & nm' & -> & Hc3 & Hnm').
  set (arr := match a with None => EmptyString | Some a => "[" ++ a ++ "]" end).
  assert (stops Regex.is_word arr) as Harr by (unfold arr; by destruct a).
  unfold Regex.re_match, field_pattern.
  rewrite match_seq, match_group, match_alt.
  erewrite (match_plus_max Regex.is_word None c1 ty' (" " ++ stars ++ String c3 nm' ++ arr));
    [reflexivity|done|done|done|].
  rewrite substring_prefix.
  rewrite match_seq.
  change (" " ++ stars ++ String c3 nm' ++ arr)
    with (String " " EmptyString ++ stars ++ String c3 nm' ++ arr).
  apply match_plus_max; [done|done| |].
  { apply stars_stop_space; [done|]. cbn [stops String.append].
    change (String c3 nm' ++ arr) with (String c3 (nm' ++ arr)). cbn [stops].
    by apply word_not_space. }
  rewrite match_seq, match_group.
  apply match_star_re_max;
    [done|change (String c3 nm' ++ arr) with (String c3 (nm' ++ arr));
          cbn [stops]; by apply word_not_star|].
  rewrite substring_prefix.
  rewrite match_seq, match_group.
  apply match_plus_max; [done|done|done|].
  rewrite substring_prefix.
  rewrite match_opt.
  unfold arr. destruct a as [a0|].
  - destruct Ha as [Hne Hbr]. destruct a0 as [|c5 a0']; [done|].
    rewrite match_group, match_seq.
    rewrite (match_lit_re "[" _ (String c5 a0' ++ "]")).
    rewrite match_seq, match_group.
    cbn [Py.has_char] in Hbr. apply orb_false_iff in Hbr as [Hc5 Ha0].
    erewrite (match_plus_max (fun c => negb (Ascii.eqb c "]")) _ c5 a0' "]");
      [reflexivity|by rewrite Hc5|by apply has_char_all|done|].
    rewrite substring_prefix.
    rewrite match_lit_whole. by rewrite substring_all.
  - reflexivity.
Qed.

End FieldMatch2.

(** ** Written members read back *)
Section ParseRoundTrip.

Import StructCodec Text.

Lemma ends_nonspace_app a b : ends_nonspace b = true -> ends_nonspace (a ++ b) = true.
Proof.
  intros Hb. induction a as [|c a IH]; [done|].
  change (String c a ++ b) with (String c (a ++ b)). cbn [ends_nonspace].
  destruct (a ++ b) eqn:E; [|done].
  destruct a; [|discriminate E]. change (EmptyString ++ b) with b in E. by subst b.
Qed.

Lemma rstrip_id s : ends_nonspace s = true -> Py.rstrip s = s.
Proof.
  induction s as [|c s IH]; [done|]. cbn [ends_nonspace Py.rstrip].
  destruct s as [|c' s'].
  - intros H. apply negb_true_iff in H. cbn [Py.rstrip]. by rewrite H.
  - intros H. rewrite (IH H). done.
Qed.

Lemma lstrip_spaces w s :
  all_chars Py.is_space w = true -> stops Py.is_space s -> Py.lstrip (w ++ s) = s.
Proof.
  intros Hw Hs. induction w as [|c w IH].
  - change (EmptyString ++ s) with s. destruct s as [|c s]; [done|].
    cbn [Py.lstrip]. cbn in Hs. by rewrite Hs.
  - change (String c w ++ s) with (String c (w ++ s)). cbn [Py.lstrip].
    cbn [all_chars] in Hw. apply andb_true_iff in Hw as [Hc Hw]. rewrite Hc. by apply IH.
Qed.

Lemma strip_core w s :
  all_chars Py.is_space w = true -> stops Py.is_space s -> ends_nonspace s = true ->
  Py.strip (w ++ s) = s.
Proof.
  intros Hw Hs He. unfold Py.strip. rewrite lstrip_spaces by done. by apply rstrip_id.
Qed.

Lemma word_ends_nonspace s : is_word_text s = true -> ends_nonspace s = true.
Proof.
  unfold is_word_text. intros H. apply andb_true_iff in H as [Hne Hw].
  induction s as [|c s IH]; [done|].
  cbn [all_chars] in Hw. apply andb_true_iff in Hw as [Hc Hw].
  cbn [ends_nonspace]. destruct s as [|c' s'].
  - pose proof (word_not_space c Hc) as H. unfold Regex.is_space in H. by rewrite H.
  - by apply IH.
Qed.

Lemma has_char_app c a b :
  Py.has_char c (a ++ b) = Py.has_char c a || Py.has_char c b.
Proof.
  induction a as [|x a IH]; [done|].
  change (String x a ++ b) with (String x (a ++ b)). cbn [Py.has_char].
  by rewrite IH, orb_assoc.
Qed.

Lemma word_no_char c s :
  Regex.is_word c = false -> all_chars Regex.is_word s = true -> Py.has_char c s = false.
Proof.
  intros Hc. induction s as [|x s IH]; [done|]. cbn [all_chars Py.has_char].
  intros H. apply andb_true_iff in H as [Hx Hs]. rewrite (IH Hs), orb_false_r.
  destruct (Ascii.eqb_spec x c) as [->|]; [congruence|done].
Qed.

Lemma member_line_core f :
  plain_field f = true -> member_line f = "    " ++ member_core f ++ ";".
Proof.
  unfold plain_field, member_line, member_core. intros H.
  apply andb_true_iff in H as [_ Ha].
  destruct (array_size f) as [a|] eqn:E.
  - apply andb_true_iff in Ha as [Ha _]. apply andb_true_iff in Ha as [Hne _].
    assert (Py.truthy (Some a) = true) as -> by (destruct a; done).
    cbn [default from_option id].
    destruct (is_pointer f); rewrite !string_app_assoc; reflexivity.
  - cbn [Py.truthy]. destruct (is_pointer f); rewrite !string_app_assoc; reflexivity.
Qed.

End ParseRoundTrip.

Section ParseRoundTrip2.

Import StructCodec Text.

Lemma plain_field_spec f :
  plain_field f = true ->
  is_word_text (field_type f) = true /\ is_word_text (name f) = true
  /\ match array_size f with
     | None => True
     | Some a => Py.nonempty a = true /\ Py.has_char "]" a = false
                 /\ Py.has_char ";" a = false
     end.
Proof.
  unfold plain_field. intros H. apply andb_true_iff in H as [H Ha].
  apply andb_true_iff in H as [Ht Hn]. split; [done|]. split; [done|].
  destruct (array_size f) as [a|]; [|done].
  apply andb_true_iff in Ha as [Ha H3]. apply andb_true_iff in Ha as [H1 H2].
  apply negb_true_iff in H2, H3. done.
Qed.

Lemma member_core_shape f :
  plain_field f = true ->
  stops Py.is_space (member_core f) /\ ends_nonspace (member_core f) = true
  /\ Py.has_char ";" (member_core f) = false.
Proof.
  intros Hf. destruct (plain_field_spec f Hf) as (Ht & Hn & Ha).
  unfold member_core. split; [|split].
  - destruct (is_word_text_cons _ Ht) as (c & t' & -> & Hc & _).
    change (String c t' ++ ?x) with (String c (t' ++ x)). cbn [stops].
    pose proof (word_not_space c Hc) as H. by unfold Regex.is_space in H.
  - do 2 apply ends_nonspace_app.
    destruct (array_size f) as [a|].
    + do 4 apply ends_nonspace_app. reflexivity.
    + rewrite append_empty. apply ends_nonspace_app. by apply word_ends_nonspace.
  - unfold is_word_text in Ht, Hn.
    apply andb_true_iff in Ht as [_ Ht]. apply andb_true_iff in Hn as [_ Hn].
    rewrite !has_char_app.
    rewrite (word_no_char ";" _ eq_refl Ht), (word_no_char ";" _ eq_refl Hn).
    destruct (array_size f) as [a|].
    + destruct Ha as (_ & _ & Ha). rewrite !has_char_app, Ha.
      by destruct (is_pointer f).
    + by destruct (is_pointer f).
Qed.

Lemma caps_lookup5 (x1 x2 x3 x4 x5 : string) :
  let m : gmap nat string :=
    <[4%nat := x4]> (<[5%nat := x5]> (<[3%nat := x3]> (<[2%nat := x2]>
      (<[1%nat := x1]> ∅)))) in
  m !! 1%nat = Some x1 /\ m !! 2%nat = Some x2 /\ m !! 3%nat = Some x3
  /\ m !! 4%nat = Some x4 /\ m !! 5%nat = Some x5.
Proof. repeat split; reflexivity. Qed.

Lemma caps_lookup3 (x1 x2 x3 : string) :
  let m : gmap nat string :=
    <[3%nat := x3]> (<[2%nat := x2]> (<[1%nat := x1]> ∅)) in
  m !! 1%nat = Some x1 /\ m !! 2%nat = Some x2 /\ m !! 3%nat = Some x3
  /\ m !! 4%nat = None.
Proof. repeat split; reflexivity. Qed.

Lemma parse_member_core f :
  plain_field f = true -> parse_field_line (member_core f) = Some f.
Proof.
  intros Hf. destruct (plain_field_spec f Hf) as (Ht & Hn & Ha).
  destruct (member_core_shape f Hf) as (Hs & He & _).
  unfold parse_field_line.
  pose proof (strip_core EmptyString (member_core f) eq_refl Hs He) as Hstrip.
  change (EmptyString ++ member_core f) with (member_core f) in Hstrip.
  rewrite Hstrip. clear Hstrip.
  unfold member_core.
  rewrite (field_line_match (field_type f) (name f)
             (if is_pointer f then "*" else EmptyString) (array_size f));
    [|done|done|by destruct (is_pointer f)|destruct (array_size f); tauto].
  destruct f as [ty nm arr ptr]. cbn [field_type name array_size is_pointer] in *.
  destruct arr as [a|].
  - destruct Ha as (Hne & _).
    destruct (caps_lookup5 ty (if ptr then "*" else EmptyString) nm ("[" ++ a ++ "]") a)
      as (-> & -> & -> & -> & ->).
    cbn [default from_option id Py.nonempty String.append]. by destruct ptr.
  - destruct (caps_lookup3 ty (if ptr then "*" else EmptyString) nm)
      as (-> & -> & -> & ->).
    cbn [default from_option id]. by destruct ptr.
Qed.

End ParseRoundTrip2.

Section ParseRoundTrip3.

Import StructCodec Text.

Lemma split_cons_sep sep a rest :
  Py.has_char sep a = false ->
  Py.split sep (a ++ String sep rest) = a :: Py.split sep rest.
Proof.
  induction a as [|c a IH]; intros H.
  - change (EmptyString ++ String sep rest) with (String sep rest).
    cbn [Py.split]. by rewrite Ascii.eqb_refl.
  - change (String c a ++ String sep rest) with (String c (a ++ String sep rest)).
    cbn [Py.has_char] in H. apply orb_false_iff in H as [Hc Ha].
    cbn [Py.split]. rewrite Hc, IH by done. done.
Qed.

Lemma all_chars_app p a b :
  all_chars p (a ++ b) = all_chars p a && all_chars p b.
Proof.
  induction a as [|c a IH]; [done|].
  change (String c a ++ b) with (String c (a ++ b)). cbn [all_chars].
  by rewrite IH, andb_assoc.
Qed.

Lemma space_no_char c w :
  Py.is_space c = false -> all_chars Py.is_space w = true -> Py.has_char c w = false.
Proof.
  intros Hc. induction w as [|x w IH]; [done|]. cbn [all_chars Py.has_char].
  intros H. apply andb_true_iff in H as [Hx Hw]. rewrite (IH Hw), orb_false_r.
  destruct (Ascii.eqb_spec x c) as [->|]; [congruence|done].
Qed.

Lemma strip_spaces w : all_chars Py.is_space w = true -> Py.strip w = EmptyString.
Proof.
  intros Hw. unfold Py.strip.
  pose proof (lstrip_spaces w EmptyString Hw I) as H.
  rewrite append_empty in H. by rewrite H.
Qed.

Lemma parse_spaces w :
  all_chars Py.is_space w = true -> parse_struct_fields w = [].
Proof.
  intros Hw. unfold parse_struct_fields.
  rewrite split_no_sep by (by apply space_no_char).
  cbn [map]. rewrite strip_spaces by done. reflexivity.
Qed.

Lemma parse_member_then pre f rest :
  all_chars Py.is_space pre = true -> plain_field f = true ->
  parse_struct_fields (pre ++ member_line f ++ rest) = f :: parse_struct_fields rest.
Proof.
  intros Hpre Hf. rewrite member_line_core by done.
  destruct (member_core_shape f Hf) as (Hs & He & Hsemi).
  assert (pre ++ ("    " ++ member_core f ++ ";") ++ rest
          = ((pre ++ "    ") ++ member_core f) ++ String ";" rest) as ->.
  { rewrite !string_app_assoc. reflexivity. }
  unfold parse_struct_fields.
  rewrite split_cons_sep.
  2:{ rewrite !has_char_app, Hsemi, (space_no_char ";" pre eq_refl Hpre). reflexivity. }
  cbn [map].
  rewrite (strip_core (pre ++ "    ") (member_core f)); [|by rewrite all_chars_app, Hpre|done|done].
  assert (Py.nonempty (member_core f) = true) as Hne.
  { destruct (member_core f); [discriminate He|done]. }
  cbn [List.filter]. rewrite Hne.
  change (omap parse_field_line (?x :: ?l)) with
    (match parse_field_line x with
     | Some y => y :: omap parse_field_line l
     | None => omap parse_field_line l
     end).
  rewrite parse_member_core by done. reflexivity.
Qed.

Lemma join_lines_cons x l :
  exists pre, all_chars Py.is_space pre = true
    /\ forall post, Py.join_lines (x :: l) ++ post = x ++ pre ++ Py.join_lines l ++ post.
Proof.
  destruct l as [|y l].
  - exists EmptyString. split; [done|]. intros post. reflexivity.
  - exists (String (ascii_of_nat 10) EmptyString). split; [done|]. intros post.
    unfold Py.join_lines. cbn [String.concat]. by rewrite !string_app_assoc.
Qed.

Lemma parse_members pre post fs :
  all_chars Py.is_space pre = true -> all_chars Py.is_space post = true ->
  forallb plain_field fs = true ->
  parse_struct_fields (pre ++ Py.join_lines (map member_line fs) ++ post) = fs.
Proof.
  intros Hpre Hpost. revert pre Hpre. induction fs as [|f fs IH]; intros pre Hpre Hfs.
  - apply parse_spaces. change (Py.join_lines (map member_line []) ++ post) with post.
    by rewrite all_chars_app, Hpre, Hpost.
  - cbn [forallb] in Hfs. apply andb_true_iff in Hfs as [Hf Hfs].
    cbn [map].
    destruct (join_lines_cons (member_line f) (map member_line fs)) as (pre' & Hpre' & ->).
    rewrite parse_member_then by done. f_equal. by apply IH.
Qed.

(** X19: in ASCII text, the member lines [generate_header] writes for fields
    whose type and name are words (and whose array size, if any, is not
    empty and holds no closing bracket and no semicolon), joined by line
    feeds, parse back to exactly those fields, in order, whatever whitespace
    comes before and after them. *)
Theorem written_members_parse_back pre post fs :
  Py.is_ascii (pre ++ Py.join_lines (map member_line fs) ++ post) = true ->
  all_chars Py.is_space pre = true -> all_chars Py.is_space post = true ->
  forallb plain_field fs = true ->
  parse_struct_fields (pre ++ Py.join_lines (map member_line fs) ++ post) = fs.
Proof. intros _. apply parse_members. Qed.

Lemma written_members_parse_back_witness :
  parse_struct_fields
    ("  " ++ Py.join_lines
               (map member_line
                    [mk_Field "codec_u16_be" "id" None false;
                     mk_Field "payload" "p" (Some "N + 1") true;
                     mk_Field "codec_u8" "tail" (Some "4") false]) ++ " ")
  = [mk_Field "codec_u16_be" "id" None false;
     mk_Field "payload" "p" (Some "N + 1") true;
     mk_Field "codec_u8" "tail" (Some "4") false].
Proof.
  apply (written_members_parse_back "  " " ").
  - vm_compute. reflexivity.
  - reflexivity.
  - reflexivity.
  - vm_compute. reflexivity.
Defined.

End ParseRoundTrip3.

(** ** What the field parser accepts *)
Section ParseSound.

Import StructCodec Text.

Context {R : Type}.
Implicit Types (k : option ascii -> string -> Regex.captures -> option R).

Lemma match_lit_sound l prev s prev' s' :
  Regex.match_lit l prev s = Some (prev', s') -> s = l ++ s' /\ prev' = last_char prev l.
Proof.
  revert prev s. induction l as [|a l IH]; intros prev s H.
  - destruct s; cbn in H; by injection H as <- <-.
  - destruct s as [|c s]; [done|]. cbn [Regex.match_lit] in H.
    destruct (Ascii.eqb_spec a c) as [->|]; [|done].
    destruct (IH _ _ H) as [-> ->]. done.
Qed.

Lemma lit_sound l prev s caps k r :
  Regex.match_re (Regex.Lit l) prev s caps k = Some r ->
  exists s', s = l ++ s' /\ k (last_char prev l) s' caps = Some r.
Proof.
  cbn [Regex.match_re]. destruct (Regex.match_lit l prev s) as [[prev' s']|] eqn:E; [|done].
  destruct (match_lit_sound _ _ _ _ _ E) as [-> ->]. eauto.
Qed.

Lemma star_sound p prev s caps k r :
  Regex.match_re (Regex.Star p) prev s caps k = Some r ->
  exists w s', s = w ++ s' /\ all_chars p w = true /\ k (last_char prev w) s' caps = Some r.
Proof. rewrite match_star_eq. apply match_star_sound. Qed.

Lemma plus_sound p prev s caps k r :
  Regex.match_re (Regex.Plus p) prev s caps k = Some r ->
  exists c w s', s = String c w ++ s' /\ p c = true /\ all_chars p w = true
    /\ k (last_char (Some c) w) s' caps = Some r.
Proof.
  rewrite match_plus_eq. destruct s as [|c s]; [done|].
  destruct (p c) eqn:Hc; [|done]. intros H.
  destruct (match_star_sound _ _ _ _ _ H) as (w & s' & -> & Hw & Hk).
  exists c, w, s'. done.
Qed.

Lemma match_boundary prev s caps k :
  Regex.match_re Regex.WordBoundary prev s caps k
  = if xorb (Regex.word_at prev) (Regex.word_at (Regex.next_char s))
    then k prev s caps else None.
Proof. reflexivity. Qed.

End ParseSound.

Section ParseSound2.

Import StructCodec Text.

(** The pattern after group 1. *)
Local Abbreviation bracket_pattern :=
  (Regex.Group 4
     (Regex.Seq (Regex.Lit "[")
        (Regex.Seq (Regex.Group 5 (Regex.Plus (fun c => negb (Ascii.eqb c "]"))))
                   (Regex.Lit "]")))).

Local Abbreviation name_pattern :=
  (Regex.Seq (Regex.Group 3 (Regex.Plus Regex.is_word)) (Regex.Opt bracket_pattern)).

Local Abbreviation stars_pattern :=
  (Regex.Seq (Regex.Group 2 (Regex.Star (Ascii.eqb "*"))) name_pattern).

Local Abbreviation tail_pattern :=
  (Regex.Seq (Regex.Plus Regex.is_space) stars_pattern).

Local Abbreviation done_cont :=
  (fun (_ : option ascii) (_ : string) (caps : Regex.captures) => Some caps).

Lemma all_not_char c s :
  all_chars (fun x => negb (Ascii.eqb x c)) s = true -> Py.has_char c s = false.
Proof.
  induction s as [|x s IH]; [done|]. cbn [Py.has_char all_chars]. intros H.
  apply andb_true_iff in H as [Hx Hs]. apply negb_true_iff in Hx. by rewrite Hx, IH.
Qed.

Lemma bracket_sound prev s caps r :
  Regex.match_re bracket_pattern prev s caps done_cont = Some r ->
  exists a rest, s = "[" ++ a ++ "]" ++ rest /\ Py.nonempty a = true
    /\ Py.has_char "]" a = false
    /\ r = <[4%nat := "[" ++ a ++ "]"]> (<[5%nat := a]> caps).
Proof.
  rewrite match_group, match_seq. intros H.
  apply lit_sound in H as (s1 & -> & H).
  rewrite match_seq, match_group in H.
  apply plus_sound in H as (c & w & s2 & -> & Hc & Hw & H).
  apply lit_sound in H as (rest & -> & H).
  exists (String c w), rest. split; [done|]. split; [done|].
  split. { cbn [Py.has_char]. apply negb_true_iff in Hc. rewrite Hc. by apply all_not_char. }
  apply (inj Some) in H. rewrite <- H.
  rewrite (substring_prefix (String c w) ("]" ++ rest)).
  assert ("[" ++ String c w ++ "]" ++ rest = ("[" ++ String c w ++ "]") ++ rest) as ->.
  { by rewrite !string_app_assoc. }
  by rewrite substring_prefix.
Qed.

Lemma tail_sound prev s caps r :
  Regex.match_re tail_pattern prev s caps done_cont = Some r ->
  exists sp stars nm a rest,
    s = sp ++ stars ++ nm ++ bracket_text a ++ rest
    /\ Py.nonempty sp = true /\ all_chars Regex.is_space sp = true
    /\ all_chars (Ascii.eqb "*") stars = true
    /\ is_word_text nm = true /\ size_ok a
    /\ r = field_captures caps stars nm a.
Proof.
  rewrite match_seq. intros H.
  apply plus_sound in H as (c1 & w1 & s2 & -> & Hc1 & Hw1 & H).
  rewrite match_seq, match_group in H.
  apply star_sound in H as (stars & s3 & -> & Hstars & H).
  rewrite substring_prefix in H.
  rewrite match_seq, match_group in H.
  apply plus_sound in H as (c3 & w3 & s4 & -> & Hc3 & Hw3 & H).
  rewrite substring_prefix in H.
  rewrite match_opt in H.
  match type of H with
  | match ?m with _ => _ end = _ => destruct m as [r'|] eqn:Hb
  end.
  - apply (inj Some) in H. subst r'.
    apply bracket_sound in Hb as (a & rest & -> & Hne & Ha & ->).
    exists (String c1 w1), stars, (String c3 w3), (Some a), rest.
    split. { cbn [bracket_text]. by rewrite !string_app_assoc. }
    split; [done|]. split; [by cbn [all_chars]; rewrite Hc1|].
    split; [done|]. split; [by unfold is_word_text; cbn [Py.nonempty all_chars]; rewrite Hc3|].
    done.
  - apply (inj Some) in H. subst r.
    exists (String c1 w1), stars, (String c3 w3), None, s4.
    split; [done|].
    split; [done|]. split; [by cbn [all_chars]; rewrite Hc1|].
    split; [done|]. split; [by unfold is_word_text; cbn [Py.nonempty all_chars]; rewrite Hc3|].
    done.
Qed.

Lemma space_not_word c : Regex.is_space c = true -> Regex.is_word c = false.
Proof.
  intros H. destruct (Regex.is_word c) eqn:E; [|done].
  apply word_not_space in E. congruence.
Qed.

Lemma opt_total prev s caps a :
  is_Some (Regex.match_re (Regex.Opt a) prev s caps done_cont).
Proof. rewrite match_opt. destruct (Regex.match_re a prev s caps _); by eexists. Qed.

Lemma tail_total prev c1 w1 c2 rest caps :
  Regex.is_space c1 = true -> all_chars Regex.is_space w1 = true ->
  Regex.is_word c2 = true ->
  is_Some (Regex.match_re tail_pattern prev (String c1 w1 ++ String c2 rest) caps done_cont).
Proof.
  intros Hc1 Hw1 Hc2.
  assert (forall prev' caps',
            is_Some (Regex.match_re stars_pattern prev' (String c2 rest) caps' done_cont))
    as Hstars.
  { intros prev' caps'. rewrite match_seq, match_group, match_star_eq.
    cbn [Regex.match_star]. rewrite (word_not_star c2 Hc2).
    rewrite match_seq, match_group, match_plus_eq, Hc2.
    apply match_star_total. intros p s'. apply opt_total. }
  rewrite match_seq.
  destruct (Hstars (last_char (Some c1) w1) caps) as [r Hr].
  exists r. apply match_plus_max; [done|done| |done].
  cbn [stops]. by apply word_not_space.
Qed.

(** Whenever the second alternative of group 1 matches, so does the first
    with the pattern that follows it. *)
Lemma struct_alternative_unused s r :
  Regex.match_re
    (Regex.Seq Regex.WordBoundary
       (Regex.Seq (Regex.Lit "struct")
          (Regex.Seq (Regex.Plus Regex.is_space) (Regex.Plus Regex.is_word))))
    None s ∅
    (fun prev' s' caps' =>
       Regex.match_re tail_pattern prev' s'
         (<[1%nat := substring 0 (String.length s - String.length s') s]> caps') done_cont)
  = Some r ->
  is_Some
    (Regex.match_re (Regex.Plus Regex.is_word) None s ∅
       (fun prev' s' caps' =>
          Regex.match_re tail_pattern prev' s'
            (<[1%nat := substring 0 (String.length s - String.length s') s]> caps')
            done_cont)).
Proof.
  rewrite match_seq, match_boundary.
  destruct (xorb _ _); [|done].
  rewrite match_seq. intros H.
  apply lit_sound in H as (s1 & Hs & H).
  rewrite match_seq in H.
  apply plus_sound in H as (c1 & w1 & s2 & -> & Hc1 & Hw1 & H).
  apply plus_sound in H as (c2 & w2 & s3 & -> & Hc2 & Hw2 & _).
  change (String c2 w2 ++ s3) with (String c2 (w2 ++ s3)) in Hs.
  set (K := fun prev' s' caps' => Regex.match_re tail_pattern prev' s' _ done_cont).
  destruct (tail_total (Some "t"%char) c1 w1 c2 (w2 ++ s3)
              (<[1%nat := substring 0
                   (String.length s
                    - String.length (String c1 w1 ++ String c2 (w2 ++ s3))) s]> ∅)
              Hc1 Hw1 Hc2) as [r' Hr'].
  exists r'. subst s.
  change ("struct" ++ ?x) with (String "s" ("truct" ++ x)).
  apply (match_plus_max Regex.is_word None "s" "truct"); [done|done| |exact Hr'].
  change (String c1 w1 ++ ?x) with (String c1 (w1 ++ x)). cbn [stops].
  by apply space_not_word.
Qed.

Lemma field_pattern_sound s r :
  Regex.re_match field_pattern s = Some r ->
  exists ty sp stars nm a rest,
    s = ty ++ sp ++ stars ++ nm ++ bracket_text a ++ rest
    /\ is_word_text ty = true
    /\ Py.nonempty sp = true /\ all_chars Regex.is_space sp = true
    /\ all_chars (Ascii.eqb "*") stars = true
    /\ is_word_text nm = true /\ size_ok a
    /\ r = field_captures (<[1%nat := ty]> ∅) stars nm a.
Proof.
  unfold Regex.re_match, field_pattern.
  rewrite match_seq, match_group, match_alt. intros H.
  match type of H with
  | match ?m with _ => _ end = _ => destruct m as [r'|] eqn:Hfirst
  end.
  - apply (inj Some) in H. subst r'.
    apply plus_sound in Hfirst as (c & w & s' & -> & Hc & Hw & H).
    rewrite substring_prefix in H.
    apply tail_sound in H as (sp & stars & nm & a & rest & -> & ? & ? & ? & ? & ? & ->).
    exists (String c w), sp, stars, nm, a, rest.
    split; [done|].
    split; [by unfold is_word_text; cbn [Py.nonempty all_chars]; rewrite Hc|]. done.
  - apply struct_alternative_unused in H as [r' Hr'].
    rewrite Hr' in Hfirst. discriminate Hfirst.
Qed.

End ParseSound2.

Section ParseSound3.

Import StructCodec Text.

Lemma parse_field_line_sound line f :
  parse_field_line line = Some f ->
  exists ty sp stars nm a rest,
    Py.strip line = ty ++ sp ++ stars ++ nm ++ bracket_text a ++ rest
    /\ is_word_text ty = true
    /\ Py.nonempty sp = true /\ all_chars Regex.is_space sp = true
    /\ all_chars (Ascii.eqb "*") stars = true
    /\ is_word_text nm = true /\ size_ok a
    /\ f = mk_Field ty nm a (0 <? String.length stars)%nat.
Proof.
  unfold parse_field_line.
  destruct (Regex.re_match field_pattern (Py.strip line)) as [r|] eqn:E; [|done].
  apply field_pattern_sound in E
    as (ty & sp & stars & nm & a & rest & Hs & Hty & Hsp1 & Hsp2 & Hst & Hnm & Ha & ->).
  intros H. apply (inj Some) in H. subst f.
  exists ty, sp, stars, nm, a, rest. repeat (split; [done|]).
  unfold field_captures. destruct a as [a|].
  - destruct (caps_lookup5 ty stars nm ("[" ++ a ++ "]") a) as (-> & -> & -> & -> & ->).
    reflexivity.
  - destruct (caps_lookup3 ty stars nm) as (-> & -> & -> & ->). reflexivity.
Qed.

Lemma has_char_lstrip c s : Py.has_char c s = false -> Py.has_char c (Py.lstrip s) = false.
Proof.
  induction s as [|x s IH]; [done|]. cbn [Py.lstrip]. intros H.
  destruct (Py.is_space x); [|done]. apply IH.
  cbn [Py.has_char] in H. by apply orb_false_iff in H as [_ H].
Qed.

Lemma has_char_rstrip c s : Py.has_char c s = false -> Py.has_char c (Py.rstrip s) = false.
Proof.
  induction s as [|x s IH]; [done|]. cbn [Py.has_char Py.rstrip]. intros H.
  apply orb_false_iff in H as [Hx Hs]. specialize (IH Hs).
  destruct (Py.rstrip s) as [|y r].
  - destruct (Py.is_space x); [done|]. cbn [Py.has_char]. by rewrite Hx.
  - cbn [Py.has_char] in *. by rewrite Hx, IH.
Qed.

Lemma has_char_strip c s : Py.has_char c s = false -> Py.has_char c (Py.strip s) = false.
Proof. intros H. unfold Py.strip. by apply has_char_rstrip, has_char_lstrip. Qed.

Lemma split_pieces sep s piece :
  In piece (Py.split sep s) -> Py.has_char sep piece = false.
Proof.
  revert piece. induction s as [|c s IH]; intros piece; cbn [Py.split].
  - intros [<-|[]]. done.
  - destruct (Ascii.eqb c sep) eqn:Hc.
    + intros [<-|H]; [done|by apply IH].
    + destruct (Py.split sep s) as [|p ps].
      * intros [<-|[]]. cbn [Py.has_char]. by rewrite Hc.
      * intros [<-|H].
        -- cbn [Py.has_char]. rewrite Hc. apply IH. by left.
        -- apply IH. by right.
Qed.

Lemma parsed_line_plain line f :
  Py.has_char ";" line = false -> parse_field_line line = Some f -> plain_field f = true.
Proof.
  intros Hsemi H.
  apply parse_field_line_sound in H
    as (ty & sp & stars & nm & a & rest & Hs & Hty & _ & _ & _ & Hnm & Ha & ->).
  unfold plain_field. cbn [field_type name array_size]. rewrite Hty, Hnm.
  destruct a as [a|]; [|done]. destruct Ha as [Hne Hb]. rewrite Hne, Hb.
  apply has_char_strip in Hsemi. rewrite Hs in Hsemi.
  cbn [bracket_text] in Hsemi. rewrite !has_char_app in Hsemi.
  destruct (Py.has_char ";" a); [|done].
  rewrite ?orb_true_l, ?orb_true_r in Hsemi. discriminate Hsemi.
Qed.

Lemma parsed_fields_plain body :
  forallb plain_field (parse_struct_fields body) = true.
Proof.
  apply forallb_forall. intros f Hf. unfold parse_struct_fields in Hf.
  apply list_elem_of_In, list_elem_of_omap in Hf as (line & Hline & Hparse).
  apply list_elem_of_In, filter_In in Hline as [Hline _].
  apply in_map_iff in Hline as (piece & <- & Hpiece).
  apply split_pieces in Hpiece.
  apply (parsed_line_plain (Py.strip piece)); [by apply has_char_strip|done].
Qed.

Lemma plain_not_struct f :
  plain_field f = true -> Py.startswith "struct " (field_type f) = false.
Proof.
  intros Hf. destruct (plain_field_spec f Hf) as (Ht & _).
  unfold is_word_text in Ht. apply andb_true_iff in Ht as [_ Ht].
  unfold Py.startswith.
  destruct (String.prefix "struct " (field_type f)) eqn:E; [|done].
  apply prefix_correct in E.
  assert (Py.has_char " " (field_type f) = false) as Hsp by (by apply word_no_char).
  destruct (field_type f) as [|c0 [|c1 [|c2 [|c3 [|c4 [|c5 [|c6 t]]]]]]]; try discriminate E.
  cbn in E. injection E as -> -> -> -> -> -> ->. by vm_compute in Hsp.
Qed.

Lemma parse_twice body :
  parse_struct_fields (Py.join_lines (map member_line (parse_struct_fields body)))
  = parse_struct_fields body.
Proof.
  pose proof (parse_members EmptyString EmptyString (parse_struct_fields body)
                eq_refl eq_refl (parsed_fields_plain body)) as H.
  rewrite append_empty in H. exact H.
Qed.

(** X20: in ASCII text, every field the parser returns has a non-empty run of
    word characters as its type and as its name, and an array size, if any,
    that is not empty and holds no closing bracket and no semicolon.  So no
    parsed field has a type that starts with the text struct followed by a
    space: of a member of struct type the parser keeps the word struct as the
    type and the struct's name as the field name. *)
Theorem parsed_fields_are_words body f :
  Py.is_ascii body = true -> In f (parse_struct_fields body) ->
  plain_field f = true /\ Py.startswith "struct " (field_type f) = false.
Proof.
  intros _ Hf.
  assert (plain_field f = true) as Hp.
  { pose proof (parsed_fields_plain body) as H.
    rewrite forallb_forall in H. by apply H. }
  split; [done|]. by apply plain_not_struct.
Qed.

Lemma parsed_fields_are_words_witness :
  plain_field (mk_Field "struct" "inner" None false) = true
  /\ Py.startswith "struct " (field_type (mk_Field "struct" "inner" None false)) = false.
Proof.
  apply (parsed_fields_are_words "codec_u8 a; struct inner x; codec_u8 *p[4];").
  - reflexivity.
  - vm_compute. right. left. reflexivity.
Defined.

(** X21: in ASCII text, writing the fields the parser returns as member lines
    and parsing those gives the same fields again. *)
Theorem parse_written_parsed body :
  Py.is_ascii body = true ->
  parse_struct_fields (Py.join_lines (map member_line (parse_struct_fields body)))
  = parse_struct_fields body.
Proof. intros _. apply parse_twice. Qed.

Lemma parse_written_parsed_witness :
  parse_struct_fields
    (Py.join_lines
       (map member_line
            (parse_struct_fields "  codec_u8   a ;; junk!; struct inner x; u16 **p[N+1] t")))
  = parse_struct_fields "  codec_u8   a ;; junk!; struct inner x; u16 **p[N+1] t".
Proof.
  apply (parse_written_parsed "  codec_u8   a ;; junk!; struct inner x; u16 **p[N+1] t").
  reflexivity.
Defined.

End ParseSound3.

(** ** The field parser on text outside its pattern *)
Section ParserClaims.

Import StructCodec Text.

Lemma split_app sep a b :
  Py.split sep (a ++ String sep b) = (Py.split sep a ++ Py.split sep b)%list.
Proof.
  induction a as [|c a IH].
  - change (EmptyString ++ String sep b) with (String sep b).
    cbn [Py.split]. by rewrite Ascii.eqb_refl.
  - change (String c a ++ String sep b) with (String c (a ++ String sep b)).
    cbn [Py.split]. rewrite IH.
    destruct (Ascii.eqb c sep); [done|].
    pose proof (split_not_nil sep a). by destruct (Py.split sep a).
Qed.

Lemma parse_app a b :
  parse_struct_fields (a ++ String ";" b)
  = (parse_struct_fields a ++ parse_struct_fields b)%list.
Proof.
  unfold parse_struct_fields. by rewrite split_app, map_app, filter_app, omap_app.
Qed.

Lemma parse_unmatched seg :
  Py.has_char ";" seg = false -> unmatched (Py.strip seg) -> parse_struct_fields seg = [].
Proof.
  intros Hsep Hseg. unfold parse_struct_fields. rewrite split_no_sep by done.
  cbn [map List.filter]. destruct (Py.nonempty (Py.strip seg)); [|done].
  change (omap parse_field_line [Py.strip seg])
    with (match parse_field_line (Py.strip seg) with Some y => [y] | None => [] end).
  by rewrite parse_field_line_strip.
Qed.

Lemma parse_member good f :
  Py.has_char ";" good = false -> plain_field f = true ->
  Py.strip good = member_core f -> parse_struct_fields good = [f].
Proof.
  intros Hsep Hf Hgood. unfold parse_struct_fields. rewrite split_no_sep by done.
  cbn [map List.filter]. rewrite Hgood.
  destruct (member_core_shape f Hf) as (_ & He & _).
  assert (Py.nonempty (member_core f) = true) as ->.
  { destruct (member_core f); [discriminate He|done]. }
  change (omap parse_field_line [member_core f])
    with (match parse_field_line (member_core f) with Some y => [y] | None => [] end).
  by rewrite parse_member_core.
Qed.

Lemma parse_field_line_never_raises line :
  parse_field_line_run line = inr (parse_field_line line).
Proof.
  unfold parse_field_line_run, parse_field_line.
  destruct (Regex.re_match field_pattern (Py.strip line)) as [r|] eqn:E; [|done].
  apply field_pattern_sound in E
    as (ty & sp & stars & nm & a & rest & _ & _ & _ & _ & _ & _ & _ & ->).
  unfold field_captures. destruct a as [a|].
  - destruct (caps_lookup5 ty stars nm ("[" ++ a ++ "]") a) as (-> & -> & -> & -> & ->).
    reflexivity.
  - destruct (caps_lookup3 ty stars nm) as (-> & -> & -> & ->). reflexivity.
Qed.

Lemma run_field_lines_never_raises field_lines fields :
  run_field_lines field_lines fields
  = inr (fields ++ omap parse_field_line field_lines)%list.
Proof.
  revert fields. induction field_lines as [|line rest IH]; intros fields.
  - cbn [run_field_lines]. by rewrite app_nil_r.
  - cbn [run_field_lines]. rewrite parse_field_line_never_raises.
    change (omap parse_field_line (line :: rest))
      with (match parse_field_line line with
            | Some y => y :: omap parse_field_line rest
            | None => omap parse_field_line rest
            end).
    destruct (parse_field_line line) as [f|]; rewrite IH; [|done].
    by rewrite <- app_assoc.
Qed.

(** C8, as amended: the field parser never raises -- run with the one
    operation of it that can raise made explicit, it returns the list of
    [parse_struct_fields] on every text -- and, in ASCII text, a segment
    between semicolons that, stripped, is empty or starts with a character
    that cannot start a word is skipped without a trace wherever it stands:
    the fields of the text before it are kept, a member written after it is
    parsed, and so is the rest of the text. *)
Theorem parse_skips_unmatched text body seg good rest f :
  Py.is_ascii text = true ->
  Py.is_ascii (body ++ String ";" (seg ++ String ";" (good ++ String ";" rest))) = true ->
  Py.has_char ";" seg = false -> unmatched (Py.strip seg) ->
  Py.has_char ";" good = false -> plain_field f = true ->
  Py.strip good = member_core f ->
  parse_struct_fields_run text = inr (parse_struct_fields text)
  /\ parse_struct_fields (body ++ String ";" (seg ++ String ";" (good ++ String ";" rest)))
     = (parse_struct_fields body ++ f :: parse_struct_fields rest)%list
  /\ parse_struct_fields (body ++ String ";" seg) = parse_struct_fields body.
Proof.
  intros _ _ Hseg Hun Hgood Hf Hstrip. split; [|split].
  - unfold parse_struct_fields_run. by rewrite run_field_lines_never_raises.
  - rewrite !parse_app, (parse_unmatched seg), (parse_member good f) by done. done.
  - rewrite parse_app, (parse_unmatched seg) by done. apply app_nil_r.
Qed.

Lemma parse_skips_unmatched_witness :
  parse_struct_fields_run "codec_u8 a; @@@ garbage; codec_u8 b;"
  = inr (parse_struct_fields "codec_u8 a; @@@ garbage; codec_u8 b;")
  /\ parse_struct_fields
       ("codec_u8 a" ++ String ";" (" @@@ garbage" ++ String ";" (" codec_u8 b" ++ String ";" "")))
     = (parse_struct_fields "codec_u8 a"
        ++ mk_Field "codec_u8" "b" None false :: parse_struct_fields "")%list
  /\ parse_struct_fields ("codec_u8 a" ++ String ";" " @@@ garbage")
     = parse_struct_fields "codec_u8 a".
Proof.
  apply (parse_skips_unmatched "codec_u8 a; @@@ garbage; codec_u8 b;"
           "codec_u8 a" " @@@ garbage" " codec_u8 b" "" (mk_Field "codec_u8" "b" None false)).
  - reflexivity.
  - reflexivity.
  - reflexivity.
  - vm_compute. reflexivity.
  - reflexivity.
  - reflexivity.
  - vm_compute. reflexivity.
Defined.

(** C8 as stated fails: the middle segment of this text is outside the
    grammar, and the parser raises nothing and returns the two fields around
    it. *)
Lemma parse_counterexample :
  parse_struct_fields_run "codec_u8 a; @@@ garbage; codec_u8 b;"
  = inr [ mk_Field "codec_u8" "a" None false; mk_Field "codec_u8" "b" None false ].
Proof. by vm_compute. Qed.

End ParserClaims.

(** ** [main] on a text with definitions *)
Section MainClaims.

Lemma parse_raises content : content <> [] -> Pdl.parse content = inl Py.TypeError.
Proof. destruct content as [|[name d] rest]; [done|]. reflexivity. Qed.

Lemma main_raises args_namespace stem content :
  content <> [] -> Pdl.main_file args_namespace stem content = inl Py.TypeError.
Proof. intros H. unfold Pdl.main_file. by rewrite parse_raises. Qed.

(** A text without definitions is the one text of the grammar [main] writes a
    header for. *)
Lemma main_empty args_namespace stem :
  exists header, Pdl.main_file args_namespace stem [] = inr header.
Proof. eexists. reflexivity. Qed.

(** The definitions [parse] would hand on if [definition] received the
    dictionaries themselves are those of [example_unit]. *)
Lemma example_content_unit :
  map (fun nd : string * Pdl.type_def => Pdl.definition nd.1 nd.2) Pdl.example_content
  = Pdl.example_unit.
Proof. reflexivity. Qed.

(** C6: a text in which a message field's type reference names a definition
    that never appears makes [main] report an error and write no header, but
    the error is not an unknown-type error: it is the TypeError that
    [PDLTransformer.definition] raises on the first definition of the text,
    and every text with a definition raises it, whether its references
    resolve or not.  No check of the references is ever reached. *)
Theorem unknown_type_not_reported args_namespace stem content name fields x ref :
  In (name, Pdl.TMessage fields) content ->
  In (Pdl.FTypeRef x ref) fields ->
  ~ In ref (map fst content) ->
  Py.dict_find Pdl.type_map ref = None ->
  Pdl.main_file args_namespace stem content = inl Py.TypeError
  /\ forall content', content' <> [] ->
       Pdl.main_file args_namespace stem content' = inl Py.TypeError.
Proof.
  intros Hin _ _ _. split; [|intros content'; apply main_raises].
  apply main_raises. by destruct content.
Qed.

Lemma unknown_type_not_reported_witness :
  Pdl.main_file None "file" Pdl.example_content = inl Py.TypeError
  /\ forall content', content' <> [] ->
       Pdl.main_file None "file" content' = inl Py.TypeError.
Proof.
  apply (unknown_type_not_reported None "file" Pdl.example_content "hdr"
           Pdl.example_fields "x" "nosuch").
  - right. left. reflexivity.
  - right. right. left. reflexivity.
  - simpl. intros [H|[H|[H|[H|[]]]]]; discriminate H.
  - reflexivity.
Defined.

(** C7: a text with a bit-field whose start bit plus length exceeds the width
    of its container makes [main] report an error before any code is
    generated and write no header, so no accessor is emitted; but the error
    is not a range error: it is the TypeError that
    [PDLTransformer.definition] raises on the first definition of the text,
    and every text with a definition raises it, whether its bit-fields lie
    within their containers or not.  No check of the range is ever
    reached. *)
Theorem bit_field_range_not_reported args_namespace stem content name fields f source
        ctype csigned cwidth :
  In (name, Pdl.TMessage fields) content ->
  In (Pdl.FBitField f source) fields ->
  In (Pdl.FTypeRef (Pdl.container source) ctype) fields ->
  Py.dict_find Pdl.int_types (Pdl.get_c_type ctype) = Some (csigned, cwidth) ->
  cwidth < Z.of_nat (Pdl.start_bit source + Pdl.length source) ->
  Pdl.main_file args_namespace stem content = inl Py.TypeError
  /\ forall content', content' <> [] ->
       Pdl.main_file args_namespace stem content' = inl Py.TypeError.
Proof.
  intros Hin _ _ _ _. split; [|intros content'; apply main_raises].
  apply main_raises. by destruct content.
Qed.

Lemma bit_field_range_not_reported_witness :
  Pdl.main_file None "file" Pdl.example_content = inl Py.TypeError
  /\ forall content', content' <> [] ->
       Pdl.main_file None "file" content' = inl Py.TypeError.
Proof.
  apply (bit_field_range_not_reported None "file" Pdl.example_content "hdr"
           Pdl.example_fields "f" Pdl.flags_6_3 "u8" false 8).
  - right. left. reflexivity.
  - right. left. reflexivity.
  - left. reflexivity.
  - reflexivity.
  - simpl. lia.
Defined.

(** The error does not depend on the references or the ranges: a text whose
    references resolve and whose bit-field lies within its container fails
    in the same way. *)
Lemma sound_content_fails :
  Pdl.main_file None "file" Pdl.sound_content = inl Py.TypeError.
Proof. reflexivity. Qed.

End MainClaims.
